(** * fxos-certsuite: device orchestration and test-execution engine

    A shallow embedding of [certsuite/harness.py] and
    [certsuite/device_handler/adb_device_interface.py], and the properties of
    the polling primitive, the precondition pipelines, the device backup and
    the suite runner.

    Conventions of the embedding.
    - A Python call either returns a value or raises: [result].
    - Calls into the collaborators (mozdevice, marionette, wptserve, zipfile,
      the file system, the suite subprocess) are [event]s.  Their outcome is
      chosen by a [world]; the program records every call it issues in a
      trace, so "how many times" and "in which order" are statements about the
      trace.
    - Logging and printing are taken to succeed and leave no event.
    - Time stamps and durations are integers (clock ticks of some fixed
      fraction of a second); the rounding of Python floats is not modelled. *)

From Stdlib Require Import ZArith List String Ascii Bool Arith Lia.
From Stdlib Require Import Permutation.
Import ListNotations.

Open Scope string_scope.
Open Scope list_scope.
Open Scope Z_scope.

(** ** Python values of the embedding *)

Module Py.

(** Exception classes that the two modules name or let through. *)
Inductive exc_class : Type :=
| WaitTimeout
| ADBError
| DMError
| IOError
| OSError
| SocketError
| CalledProcessError
| AlreadyInstalledException
| ValueError
| KeyError
| NotModelled      (* behaviour outside the modelled fragment of Python *)
| OtherError.

(** [SystemExit] and [KeyboardInterrupt] are not subclasses of [Exception]. *)
Inductive exn : Type :=
| SystemExit (code : Z)
| KeyboardInterrupt
| Exc (cls : exc_class) (message : string).

Inductive result (A : Type) : Type :=
| Ret (a : A)
| Raise (e : exn).

Arguments Ret {A} a.
Arguments Raise {A} e.

Definition is_exception (e : exn) : bool :=
  match e with
  | Exc _ _ => true
  | _ => false
  end.

Definition exc_class_eqb (a b : exc_class) : bool :=
  match a, b with
  | WaitTimeout, WaitTimeout | ADBError, ADBError | DMError, DMError
  | IOError, IOError | OSError, OSError | SocketError, SocketError
  | CalledProcessError, CalledProcessError
  | AlreadyInstalledException, AlreadyInstalledException
  | ValueError, ValueError | KeyError, KeyError
  | NotModelled, NotModelled | OtherError, OtherError => true
  | _, _ => false
  end.

(** [issubclass(c', c)] for the classes above: in Python 2 [socket.error] is
    a subclass of [IOError]; the other classes are unrelated. *)
Definition subclass (c' c : exc_class) : bool :=
  exc_class_eqb c c' ||
  match c', c with
  | SocketError, IOError => true
  | _, _ => false
  end.

(** [isinstance(e, c)], the test of [except c]. *)
Definition is_instance (c : exc_class) (e : exn) : bool :=
  match e with
  | Exc c' _ => subclass c' c
  | _ => false
  end.

(** Exit status of the interpreter for [sys.exit(main())]: the returned
    integer, the code of a [SystemExit], and 1 for any other uncaught
    exception. *)
Definition exit_code (r : result Z) : Z :=
  match r with
  | Ret n => n
  | Raise (SystemExit c) => c
  | Raise _ => 1
  end.

End Py.
Import Py.

(** ** [poll_wait] (adb_device_interface.py) *)

Module PollWait.

(** What [poll_wait] has done so far: the number of [time.time()] readings,
    of evaluations of [func], of calls of [after_first], and the arguments
    given to [time.sleep]. *)
Record state : Type := mkState {
  reads : nat;
  evals : nat;
  callbacks : nat;
  sleeps : list Z
}.

Section poll_wait.

(** The value type of the predicate and Python's truth test on it. *)
Variable V : Type.
Variable truthy : V -> bool.

(** The environment: [clock n] is the n-th reading of [time.time()],
    [func n] the outcome of the n-th evaluation of the predicate, and
    [after_first] is [None] when no callback is supplied and otherwise the
    outcome of calling it. *)
Variable clock : nat -> Z.
Variable func : nat -> result V.
Variable after_first : option (result unit).
Variable polling_interval : Z.
Variable timeout : Z.

Definition tick_eval (st : state) : state :=
  mkState (reads st) (S (evals st)) (callbacks st) (sleeps st).

Definition tick_callback (st : state) : state :=
  mkState (reads st) (evals st) (S (callbacks st)) (sleeps st).

Definition tick_sleep (d : Z) (st : state) : state :=
  mkState (S (S (reads st))) (evals st) (callbacks st) (sleeps st ++ [d]).

(** [if not ran_first and after_first is not None: after_first()] *)
Definition run_after_first (ran_first : bool) (st : state) : state * result unit :=
  match after_first with
  | Some r => if negb ran_first then (tick_callback st, r) else (st, Ret tt)
  | None => (st, Ret tt)
  end.

(** The [while] loop; [fuel] bounds the number of iterations and [None]
    means the bound was reached. *)
Fixpoint loop (fuel : nat) (start_time current_time : Z) (ran_first : bool)
    (st : state) : option (state * result V) :=
  match fuel with
  | O => None
  | S fuel' =>
      if current_time - start_time <? timeout then
        match func (evals st) with
        | Raise e => Some (tick_eval st, Raise e)
        | Ret value =>
            let st1 := tick_eval st in
            if truthy value then Some (st1, Ret value)
            else
              match run_after_first ran_first st1 with
              | (st2, Raise e) => Some (st2, Raise e)
              | (st2, Ret _) =>
                  let now := clock (reads st2) in
                  let sleep := Z.max (current_time + polling_interval - now) 0 in
                  let current_time' := clock (S (reads st2)) in
                  loop fuel' start_time current_time' true (tick_sleep sleep st2)
              end
        end
      else Some (st, Raise (Exc WaitTimeout ""))
  end.

Definition poll_wait (fuel : nat) : option (state * result V) :=
  let start_time := clock 0 in
  let current_time := clock 1 in
  loop fuel start_time current_time false (mkState 2 0 0 []).

(** Elapsed time when [poll_wait] stops: the last clock reading against
    [start_time]. *)
Definition elapsed (st : state) : Z :=
  clock (Nat.pred (reads st)) - clock 0.

(** The loop condition at the start of iteration [i] (counted from 0), whose
    [current_time] is reading number [2 i + 1]. *)
Definition in_time (i : nat) : Prop :=
  clock (2 * i + 1) - clock 0 < timeout.

Definition falsy_at (i : nat) : Prop :=
  exists v, func i = Ret v /\ truthy v = false.

Definition truthy_at (i : nat) (v : V) : Prop :=
  func i = Ret v /\ truthy v = true.

(** Calls of [after_first] made once [n] failed polls have completed. *)
Definition callbacks_after (n : nat) : nat :=
  match after_first, n with
  | Some _, S _ => 1%nat
  | _, _ => 0%nat
  end.

(** The bookkeeping at the start of iteration [i]. *)
Definition at_iteration (i : nat) (st : state) : Prop :=
  reads st = (2 * i + 2)%nat /\ evals st = i /\ callbacks st = callbacks_after i.

(** The ways in which the loop stops at iteration [n]. *)
Inductive stops (n : nat) (st : state) : result V -> Prop :=
| stops_timeout :
    ~ in_time n -> at_iteration n st ->
    stops n st (Raise (Exc WaitTimeout ""))
| stops_value (v : V) :
    in_time n -> truthy_at n v ->
    reads st = (2 * n + 2)%nat -> evals st = S n ->
    callbacks st = callbacks_after n ->
    stops n st (Ret v)
| stops_func_raises (e : exn) :
    in_time n -> func n = Raise e ->
    evals st = S n -> callbacks st = callbacks_after n ->
    stops n st (Raise e)
| stops_callback_raises (e : exn) :
    n = 0%nat -> in_time n -> falsy_at n -> after_first = Some (Raise e) ->
    evals st = 1%nat -> callbacks st = 1%nat ->
    stops n st (Raise e).

(** The predicate and the callback return (they do not raise). *)
Definition func_returns : Prop := forall i, exists v, func i = Ret v.

Definition callback_returns : Prop := forall e, after_first <> Some (Raise e).

End poll_wait.

Arguments loop {V}.
Arguments poll_wait {V}.
Arguments falsy_at {V}.
Arguments truthy_at {V}.
Arguments stops {V}.
Arguments func_returns {V}.

End PollWait.

(** ** Strings and paths *)

Module Str.

Definition slash : ascii := "/"%char.

(** [s.lstrip("/")] *)
Fixpoint lstrip_slash (s : string) : string :=
  match s with
  | String c rest => if Ascii.eqb c slash then lstrip_slash rest else s
  | EmptyString => EmptyString
  end.

(** [s.rsplit(sep, 1)] when [sep] occurs in [s]: the text before and after the
    last occurrence; [None] when [sep] does not occur (Python then returns a
    one-element list). *)
Fixpoint rsplit1 (sep : ascii) (s : string) : option (string * string) :=
  match s with
  | EmptyString => None
  | String c rest =>
      match rsplit1 sep rest with
      | Some (before, after) => Some (String c before, after)
      | None => if Ascii.eqb c sep then Some (EmptyString, rest) else None
      end
  end.

(** [s.split(sep, 1)]: the text before the first occurrence and, when [sep]
    occurs, the text after it. *)
Fixpoint split1 (sep : ascii) (s : string) : string * option string :=
  match s with
  | EmptyString => (EmptyString, None)
  | String c rest =>
      if Ascii.eqb c sep then (EmptyString, Some rest)
      else let (before, after) := split1 sep rest in (String c before, after)
  end.

Fixpoint ends_with_slash (s : string) : bool :=
  match s with
  | EmptyString => false
  | String c EmptyString => Ascii.eqb c slash
  | String _ rest => ends_with_slash rest
  end.

Definition starts_with_slash (s : string) : bool :=
  match s with
  | String c _ => Ascii.eqb c slash
  | EmptyString => false
  end.

(** [os.path.join(a, b)] of posixpath. *)
Definition path_join (a b : string) : string :=
  if starts_with_slash b then b
  else if (a =? "")%string || ends_with_slash a then (a ++ b)%string
  else (a ++ "/" ++ b)%string.

(** [s.replace(old, new)] for one-character [old] and [new]. *)
Fixpoint replace_char (old new : ascii) (s : string) : string :=
  match s with
  | EmptyString => EmptyString
  | String c rest =>
      String (if Ascii.eqb c old then new else c) (replace_char old new rest)
  end.

(** [needle in s] *)
Fixpoint contains (needle s : string) : bool :=
  String.prefix needle s ||
  match s with
  | EmptyString => false
  | String _ rest => contains needle rest
  end.

End Str.

(** ** Calls into the collaborators, and the trace monad *)

Module Sys.

Inductive event : Type :=
(* zipfile, open, os, report: the LogManager of harness.py *)
| ZipOpen | OpenStructured | StructuredClose | ZipWriteLog
| AddSummaryReport | Unlink | ZipClose
| SetupLogging | LogMetadata
(* mozdevice.DeviceManagerADB, harness.py *)
| NewDeviceManager
| MarionetteInstall (version : string)
| Sleep (seconds : Z)
| Netcfg
| Forward | AdbForwardList | NewMarionette | StartSession | GetLogcat
| WaitForB2GReady (timeout : Z)
| GetIp
| ServerStart (port : Z)
| Navigate (host : string) (port : Z)
| GoBack
| ServerStop (port : Z)
| Mkdtemp
| PathExists (path : string)
| Makedirs (path : string)
| GetDirectory (remote local : string)
| GetFile (remote local : string)
| Rmtree (path : string)
| Remount
| RemoveFile (remote : string)
| PushFile (local remote : string)
| RemoveDir (remote : string)
| PushDir (local remote : string)
| DmReboot (wait : bool)
| RunSuite (suite : string) (groups : list string)
(* ADBB2G and the checks of adb_device_interface.py *)
| NewADBB2G
| GetProcessList
| AdbInstallMarionette (version : string)
| AdbEnsureSettings
| AdbCheckNetwork
| Curl (host : string) (port : Z)
| AdbReboot
| Rm (remote : string) (recursive : bool)
| Push (local remote : string)
| Pull (remote local : string).

(** A process of [get_process_list]: pid, name, user. *)
Definition process : Type := Z * string * string.

(** The environment of a run.  [raises n e] is the exception with which the
    call [e], issued when [n] calls have been made before it, fails (or
    [None]); [truth n e] the boolean it returns when it is a query. *)
Record world : Type := mkWorld {
  raises : nat -> event -> option exn;
  truth : nat -> event -> bool;
  process_list : nat -> list process;
  tmpdir : string;
  host_ip : string
}.

Definition trace : Type := list event.

Definition M (A : Type) : Type := trace -> trace * result A.

Definition ret {A : Type} (a : A) : M A := fun tr => (tr, Ret a).

Definition raise {A : Type} (e : exn) : M A := fun tr => (tr, Raise e).

Definition bind {A B : Type} (m : M A) (k : A -> M B) : M B :=
  fun tr =>
    match m tr with
    | (tr', Ret a) => k a tr'
    | (tr', Raise e) => (tr', Raise e)
    end.

(** [try: m  except <catches>: handler] *)
Definition try_except {A : Type} (m : M A) (catches : exn -> bool)
    (handler : exn -> M A) : M A :=
  fun tr =>
    match m tr with
    | (tr', Raise e) => if catches e then handler e tr' else (tr', Raise e)
    | done => done
    end.

(** [try: m  finally: fin]; an exception of [fin] replaces the outcome of
    [m]. *)
Definition try_finally {A : Type} (m : M A) (fin : M unit) : M A :=
  fun tr =>
    let (tr', r) := m tr in
    match fin tr' with
    | (tr'', Ret _) => (tr'', r)
    | (tr'', Raise e) => (tr'', Raise e)
    end.

(** [with <enter .. exit> as x: body], for an [__exit__] that returns
    [None]. *)
Definition with_ {R A : Type} (enter : M R) (exit : R -> M unit)
    (body : R -> M A) : M A :=
  bind enter (fun r => try_finally (body r) (exit r)).

(** A bare [except:] catches everything. *)
Definition anything (_ : exn) : bool := true.

Definition sys_exit {A : Type} (code : Z) : M A := raise (SystemExit code).

Fixpoint for_each {A : Type} (body : A -> M unit) (items : list A) : M unit :=
  match items with
  | [] => ret tt
  | x :: rest => bind (body x) (fun _ => for_each body rest)
  end.

(** [a and b] on checks that return booleans. *)
Definition and_then (a b : M bool) : M bool :=
  bind a (fun x => if x then b else ret false).

Section calls.
Variable w : world.

Definition call (e : event) : M unit :=
  fun tr =>
    (tr ++ [e],
     match raises w (List.length tr) e with
     | Some x => Raise x
     | None => Ret tt
     end).

Definition ask (e : event) : M bool :=
  fun tr =>
    (tr ++ [e],
     match raises w (List.length tr) e with
     | Some x => Raise x
     | None => Ret (truth w (List.length tr) e)
     end).

Definition get_process_list : M (list process) :=
  fun tr =>
    (tr ++ [GetProcessList],
     match raises w (List.length tr) GetProcessList with
     | Some x => Raise x
     | None => Ret (process_list w (List.length tr))
     end).

Definition mkdtemp : M string :=
  bind (call Mkdtemp) (fun _ => ret (tmpdir w)).

Definition get_ip : M string :=
  bind (call GetIp) (fun _ => ret (host_ip w)).
End calls.

Declare Scope py_scope.
Delimit Scope py_scope with py.
Notation "x <- m ;; k" := (bind m (fun x => k))
  (at level 61, m at next level, right associativity) : py_scope.
Notation "m ;; k" := (bind m (fun _ => k))
  (at level 61, right associativity) : py_scope.

End Sys.

Import Sys.
Open Scope py_scope.

(** ** harness.py *)

Module Harness.

(** One entry of [config["suites"]]; an absent key is [None]. *)
Record suite_opts : Type := mkSuite {
  cmd : option string;
  run_args : option (list string);
  common_args : option (list string);
  extra_files : option (list string)
}.

(** The configuration: the ordered [suites] mapping, and the other top-level
    entries (such as [version]) with their values as [%s] prints them. *)
Record config : Type := mkConfig {
  suites : list (string * suite_opts);
  entries : list (string * string)
}.

Fixpoint lookup {A : Type} (key : string) (d : list (string * A)) : option A :=
  match d with
  | [] => None
  | (k, v) :: rest => if (k =? key)%string then Some v else lookup key rest
  end.

(** *** Templates: [item % subn] *)

Inductive fmt_state : Type :=
| Text
| Percent
| Key (name : string)
| Conv (name : string).

(** [fmt % subn] for a dictionary [subn], on the fragment of format strings
    made of text, [%%] and [%(name)s]. *)
Fixpoint py_format_from (st : fmt_state) (fmt : string)
    (subn : list (string * string)) : result string :=
  match fmt with
  | EmptyString =>
      match st with
      | Text => Ret EmptyString
      | Key _ => Raise (Exc ValueError "incomplete format key")
      | _ => Raise (Exc ValueError "incomplete format")
      end
  | String c rest =>
      match st with
      | Text =>
          if Ascii.eqb c "%"%char then py_format_from Percent rest subn
          else
            match py_format_from Text rest subn with
            | Ret s => Ret (String c s)
            | Raise e => Raise e
            end
      | Percent =>
          if Ascii.eqb c "%"%char then
            match py_format_from Text rest subn with
            | Ret s => Ret (String "%"%char s)
            | Raise e => Raise e
            end
          else if Ascii.eqb c "("%char then py_format_from (Key EmptyString) rest subn
          else Raise (Exc NotModelled "conversion")
      | Key name =>
          if Ascii.eqb c ")"%char then py_format_from (Conv name) rest subn
          else if Ascii.eqb c "("%char then Raise (Exc NotModelled "nested key")
          else py_format_from (Key (name ++ String c EmptyString)%string) rest subn
      | Conv name =>
          if Ascii.eqb c "s"%char then
            match lookup name subn with
            | None => Raise (Exc KeyError name)
            | Some v =>
                match py_format_from Text rest subn with
                | Ret s => Ret (v ++ s)%string
                | Raise e => Raise e
                end
            end
          else Raise (Exc NotModelled "conversion")
      end
  end.

Definition py_format (fmt : string) (subn : list (string * string)) : result string :=
  py_format_from Text fmt subn.

(** [[item % subn for item in items]], left to right. *)
Fixpoint format_all (items : list string) (subn : list (string * string))
    : result (list string) :=
  match items with
  | [] => Ret []
  | item :: rest =>
      match py_format item subn with
      | Raise e => Raise e
      | Ret s =>
          match format_all rest subn with
          | Raise e => Raise e
          | Ret l => Ret (s :: l)
          end
      end
  end.

(** [suite_opts.get(key, [])] *)
Definition get_list (o : option (list string)) : list string :=
  match o with
  | Some l => l
  | None => []
  end.

(** [TestRunner.build_command] *)
Definition build_command (cfg : config) (suite : string) (groups : list string)
    (temp_dir : string) : result (list string * list string * string) :=
  match lookup suite (suites cfg) with
  | None => Raise (Exc KeyError suite)
  | Some suite_opts =>
      let subn := ("temp_dir", temp_dir) :: entries cfg in
      match cmd suite_opts with
      | None => Raise (Exc KeyError "cmd")
      | Some exe =>
          let log_name :=
            (temp_dir ++ "/" ++ suite ++ "_structured"
               ++ String.concat "_" (map (Str.replace_char "/" "-") groups)
               ++ ".log")%string in
          let cmd1 := [exe] ++ [("--log-raw=" ++ log_name)%string; "--log-mach=-"] in
          let cmd2 :=
            match groups with
            | [] => cmd1
            | _ => cmd1 ++ map (fun g => ("--include=" ++ g)%string) groups
            end in
          match format_all (get_list (run_args suite_opts)) subn with
          | Raise e => Raise e
          | Ret run =>
              match format_all (get_list (common_args suite_opts)) subn with
              | Raise e => Raise e
              | Ret common =>
                  match format_all (get_list (extra_files suite_opts)) subn with
                  | Raise e => Raise e
                  | Ret extra =>
                      Ret (cmd2 ++ run ++ common, [log_name] ++ extra, log_name)
                  end
              end
          end
      end
  end.

(** *** [TestRunner.iter_suites] *)

(** [if suite not in d: d[suite] = []] and, for [suite:group],
    [d[suite].append(group)], on an ordered dictionary. *)
Fixpoint add_test (suite : string) (group : option string)
    (d : list (string * list string)) : list (string * list string) :=
  match d with
  | [] => [(suite, match group with Some g => [g] | None => [] end)]
  | (k, gs) :: rest =>
      if (k =? suite)%string
      then (k, match group with Some g => gs ++ [g] | None => gs end) :: rest
      else (k, gs) :: add_test suite group rest
  end.

Definition iter_suites (tests : list string) (cfg : config)
    : list (string * list string) :=
  let tests := match tests with [] => map fst (suites cfg) | _ => tests end in
  fold_left
    (fun d t => let (suite, group) := Str.split1 ":" t in add_test suite group d)
    tests [].

Definition backup_dirs : list string := ["/data/local"; "/data/b2g/mozilla"].
Definition backup_files : list string := ["/system/etc/hosts"].

(** [DeviceBackup.local_dir] *)
Definition local_dir (backup_path remote : string) : string :=
  Str.path_join backup_path (Str.lstrip_slash remote).

Definition unpack_error : exn := Exc ValueError "need more than 1 value to unpack".

Section harness.
Variable w : world.

(** *** [LogManager] *)

Definition LogManager_enter : M unit :=
  call w ZipOpen ;; call w OpenStructured.

Definition LogManager_exit : M unit :=
  try_finally
    (call w StructuredClose ;; call w ZipWriteLog ;; call w AddSummaryReport)
    (try_finally (call w Unlink) (call w ZipClose)).

(** *** [DeviceBackup] *)

Definition ensure_dir (path : string) : M unit :=
  found <- ask w (PathExists path) ;;
  if negb found then call w (Makedirs path) else ret tt.

Definition backup_dir (backup_path remote_path : string) : M unit :=
  let local_path := local_dir backup_path remote_path in
  ensure_dir local_path ;;
  call w (GetDirectory remote_path local_path).

Definition backup_file (backup_path remote_path : string) : M unit :=
  match Str.rsplit1 "/" remote_path with
  | None => raise unpack_error
  | Some (remote_dir, filename) =>
      let local_d := local_dir backup_path remote_dir in
      let local_path := Str.path_join local_d filename in
      ensure_dir local_d ;;
      call w (GetFile remote_path local_path)
  end.

(** [DeviceBackup()] followed by [__enter__]; yields [backup_path]. *)
Definition DeviceBackup_enter : M string :=
  call w NewDeviceManager ;;
  backup_path <- mkdtemp w ;;
  for_each (backup_dir backup_path) backup_dirs ;;
  for_each (backup_file backup_path) backup_files ;;
  ret backup_path.

Definition DeviceBackup_exit (backup_path : string) : M unit :=
  call w (Rmtree backup_path).

Definition restore_file (backup_path remote_path : string) : M unit :=
  match Str.rsplit1 "/" remote_path with
  | None => raise unpack_error
  | Some (remote_dir, filename) =>
      let local_path := Str.path_join (local_dir backup_path remote_dir) filename in
      call w (RemoveFile remote_path) ;;
      call w (PushFile local_path remote_path)
  end.

Definition restore_dir (backup_path remote_path : string) : M unit :=
  let local_path := local_dir backup_path remote_path in
  call w (RemoveDir remote_path) ;;
  call w (PushDir local_path remote_path).

(** [DeviceBackup.restore] *)
Definition restore (backup_path : string) : M unit :=
  call w Remount ;;
  for_each (restore_file backup_path) backup_files ;;
  for_each (restore_dir backup_path) backup_dirs ;;
  call w (DmReboot true).

(** *** The precondition checks *)

Definition check_adb : M bool :=
  try_except (call w NewDeviceManager ;; ret true)
    (is_instance DMError) (fun _ => ret false).

Definition install_marionette (version : string) : M bool :=
  call w NewDeviceManager ;;
  try_except
    (try_except
       (call w (MarionetteInstall version) ;; call w (Sleep 10))
       (is_instance AlreadyInstalledException) (fun _ => ret tt) ;;
     ret true)
    (is_instance CalledProcessError) (fun _ => ret false).

(** The [while not active and time_out < 40] loop, with [remaining] the
    iterations left before [time_out] reaches 40.  The answer of [Netcfg]
    is whether a line of the output shows an interface that is UP with an
    address. *)
Fixpoint network_loop (remaining : nat) (active : bool) : M bool :=
  match remaining with
  | O => ret active
  | S n =>
      if active then ret active
      else
        found <- ask w Netcfg ;;
        call w (Sleep 1) ;;
        network_loop n found
  end.

Definition check_network : M bool :=
  call w NewDeviceManager ;;
  network_loop 40 false.

Definition dump_logcat : M unit :=
  try_except (call w GetLogcat) anything (fun _ => ret tt).

(** One iteration of [for port in [8000, 8001]]: [Some b] is [return b],
    [None] goes on to the next port. *)
Definition probe_port (host : string) (port : Z) : M (option bool) :=
  started <- try_except (call w (ServerStart port) ;; ret true)
               anything (fun _ => ret false) ;;
  if negb started then ret (Some false)
  else
    try_finally
      (try_except (call w (Navigate host port) ;; ret None)
         anything (fun _ => ret (Some false)))
      (call w GoBack ;; call w (ServerStop port)).

Fixpoint probe_ports (host : string) (ports : list Z) : M bool :=
  match ports with
  | [] => ret true
  | port :: rest =>
      r <- probe_port host port ;;
      match r with
      | Some b => ret b
      | None => probe_ports host rest
      end
  end.

Definition check_server : M bool :=
  call w NewDeviceManager ;;
  call w Forward ;;
  call w AdbForwardList ;;
  call w NewMarionette ;;
  session <- try_except (call w StartSession ;; ret true)
               anything (fun _ => dump_logcat ;; ret false) ;;
  if negb session then ret false
  else
    ready <- try_except (call w (WaitForB2GReady 60) ;; ret true)
               (is_instance IOError) (fun _ => dump_logcat ;; ret false) ;;
    if negb ready then ret false
    else
      host <- get_ip w ;;
      probe_ports host [8000; 8001].

(** The body of the [for precondition in [...]] loop. *)
Definition run_precondition (precondition : M bool) : M unit :=
  passed <- try_except precondition anything (fun _ => ret false) ;;
  if negb passed then sys_exit 1 else ret tt.

Definition check_marionette_installed (cfg : config) : M bool :=
  match lookup "version" (entries cfg) with
  | None => raise (Exc KeyError "version")
  | Some version => install_marionette version
  end.

(** [check_preconditions], lines 284-300, the closing [sys.exit(1)]
    included. *)
Definition check_preconditions (cfg : config) : M unit :=
  for_each run_precondition
    [check_adb; check_marionette_installed cfg; check_network; check_server] ;;
  sys_exit 1.

(** *** [run_tests] *)

(** [try: run_suite  except: error = True  finally: device.restore()];
    yields the new value of [error].  [RunSuite] stands for the whole of
    [runner.run_suite]. *)
Definition run_one (backup_path : string) (error : bool)
    (item : string * list string) : M bool :=
  try_finally
    (try_except (call w (RunSuite (fst item) (snd item)) ;; ret error)
       anything (fun _ => ret true))
    (restore backup_path).

Fixpoint suite_loop (backup_path : string) (error : bool)
    (items : list (string * list string)) : M bool :=
  match items with
  | [] => ret error
  | item :: rest =>
      error' <- run_one backup_path error item ;;
      suite_loop backup_path error' rest
  end.

(** [with DeviceBackup() as device: ...], lines 431-441. *)
Definition suite_phase (tests : list string) (cfg : config) : M bool :=
  with_ DeviceBackup_enter DeviceBackup_exit
    (fun backup_path => suite_loop backup_path false (iter_suites tests cfg)).

(** [with LogManager() as log_manager: ...], lines 424-444. *)
Definition logged_run (tests : list string) (cfg : config) : M bool :=
  with_ LogManager_enter (fun _ => LogManager_exit)
    (fun _ =>
       call w SetupLogging ;;
       call w LogMetadata ;;
       check_preconditions cfg ;;
       suite_phase tests cfg).

Definition run_tests (tests : list string) (cfg : config) : M Z :=
  error <- try_except (logged_run tests cfg)
             is_exception (fun _ => ret true) ;;
  ret (if error then 1 else 0).

End harness.

End Harness.

(** ** adb_device_interface.py *)

Module Adb.

Definition exn_message (e : exn) : string :=
  match e with
  | Exc _ m => m
  | _ => EmptyString
  end.

(** The loop of [check_root] over the process list: [(have_adbd, have_root)]
    at the first process named [/sbin/adbd]. *)
Fixpoint scan_adbd (processes : list process) : bool * bool :=
  match processes with
  | [] => (false, false)
  | (_, name, user) :: rest =>
      if (name =? "/sbin/adbd")%string then (true, (user =? "root")%string)
      else scan_adbd rest
  end.

(** How an iteration of a [for] loop ends. *)
Inductive flow : Type :=
| Next
| Break
| Return (b : bool).

Definition local_dir (backup_path remote : string) : string :=
  Str.path_join backup_path (Str.lstrip_slash remote).

Definition unpack_error : exn := Exc ValueError "need more than 1 value to unpack".

Section adb.
Variable w : world.

(** *** [ADBDeviceInterface] *)

Definition check_root : M bool :=
  processes <- get_process_list w ;;
  ret (snd (scan_adbd processes)).

(** [install_marionette], [ensure_settings] and [check_network] are taken
    whole: each returns a boolean or raises. *)
Definition install_marionette (version : string) : M bool :=
  ask w (AdbInstallMarionette version).

Definition ensure_settings : M bool := ask w AdbEnsureSettings.

Definition check_network : M bool := ask w AdbCheckNetwork.

Definition probe_port (host : string) (port : Z) : M flow :=
  started <- try_except (call w (ServerStart port) ;; ret true)
               anything (fun _ => ret false) ;;
  if negb started then ret (Return false)
  else
    try_finally
      (try_except (call w (Curl host port) ;; ret Next)
         (is_instance ADBError)
         (fun e =>
            if Str.contains "curl: not found" (exn_message e)
            then ret Break
            else ret (Return false)))
      (call w (ServerStop port)).

Fixpoint probe_ports (host : string) (ports : list Z) : M bool :=
  match ports with
  | [] => ret true
  | port :: rest =>
      r <- probe_port host port ;;
      match r with
      | Next => probe_ports host rest
      | Break => ret true
      | Return b => ret b
      end
  end.

Definition check_server : M bool :=
  host <- get_ip w ;;
  probe_ports host [8000; 8001].

(** [ADBDeviceInterface.check_preconditions]; [has_device] is the truth
    value of [self.device]. *)
Definition check_preconditions (has_device : bool) (version : string) : M bool :=
  if negb has_device then sys_exit 1
  else
    passed <- try_except
                (and_then check_root
                  (and_then (install_marionette version)
                    (and_then ensure_settings
                      (and_then check_network check_server))))
                anything (fun _ => ret false) ;;
    if negb passed then call w AdbReboot ;; sys_exit 1
    else ret true.

(** *** [DeviceBackup] *)

Variable backup_dirs : list string.
Variable backup_files : list string.

Definition ensure_dir (path : string) : M unit :=
  found <- ask w (PathExists path) ;;
  if negb found then call w (Makedirs path) else ret tt.

Definition backup_dir (backup_path remote_path : string) : M unit :=
  let local_path := local_dir backup_path remote_path in
  ensure_dir local_path ;;
  call w (Pull remote_path local_path).

Definition backup_file (backup_path remote_path : string) : M unit :=
  match Str.rsplit1 "/" remote_path with
  | None => raise unpack_error
  | Some (remote_dir, filename) =>
      let local_d := local_dir backup_path remote_dir in
      let local_path := Str.path_join local_d filename in
      ensure_dir local_d ;;
      call w (Pull remote_path local_path)
  end.

(** [DeviceBackup.backup]; yields [backup_path]. *)
Definition backup : M string :=
  backup_path <- mkdtemp w ;;
  for_each (backup_dir backup_path) backup_dirs ;;
  for_each (backup_file backup_path) backup_files ;;
  ret backup_path.

Definition restore_file (backup_path remote_path : string) : M unit :=
  match Str.rsplit1 "/" remote_path with
  | None => raise unpack_error
  | Some (remote_dir, filename) =>
      let local_path := Str.path_join (local_dir backup_path remote_dir) filename in
      call w (Rm remote_path false) ;;
      call w (Push local_path remote_path)
  end.

Definition restore_dir (backup_path remote_path : string) : M unit :=
  let local_path := local_dir backup_path remote_path in
  call w (Rm remote_path true) ;;
  call w (Push local_path remote_path).

(** [DeviceBackup.restore] *)
Definition restore (backup_path : string) : M unit :=
  call w Remount ;;
  for_each (restore_file backup_path) backup_files ;;
  for_each (restore_dir backup_path) backup_dirs.

Definition cleanup (backup_path : string) : M unit :=
  call w (Rmtree backup_path).

End adb.

End Adb.

(** ** Concrete environments and configurations *)

Module Scenario.

Definition never_raises (_ : nat) (_ : event) : option exn := None.
Definition always_true (_ : nat) (_ : event) : bool := true.

(** Every call succeeds, every query answers yes, adbd runs as root. *)
Definition quiet : world :=
  mkWorld never_raises always_true
    (fun _ => [(1, "/init", "root"); (52, "/sbin/adbd", "root")])
    "/tmp/tmpXk3" "10.0.0.2".

Definition address_in_use : exn := Exc SocketError "Address already in use".

(** As [quiet], but port 8000 is taken on the host. *)
Definition port_8000_busy : world :=
  mkWorld
    (fun _ e => match e with ServerStart 8000 => Some address_in_use | _ => None end)
    always_true
    (fun _ => [(1, "/init", "root"); (52, "/sbin/adbd", "root")])
    "/tmp/tmpXk3" "10.0.0.2".

(** As [quiet], but adbd runs as the user [shell]. *)
Definition no_root : world :=
  mkWorld never_raises always_true
    (fun _ => [(1, "/init", "root"); (52, "/sbin/adbd", "shell")])
    "/tmp/tmpXk3" "10.0.0.2".

(** As [quiet], but running suiteA raises. *)
Definition suiteA_raises : world :=
  mkWorld
    (fun _ e =>
       match e with
       | RunSuite "suiteA" _ => Some (Exc OtherError "suite crashed")
       | _ => None
       end)
    always_true
    (fun _ => [(1, "/init", "root"); (52, "/sbin/adbd", "root")])
    "/tmp/tmpXk3" "10.0.0.2".

(** As [quiet], but the reboot that ends a restore is interrupted from the
    keyboard. *)
Definition interrupted_restore : world :=
  mkWorld
    (fun _ e => match e with DmReboot _ => Some KeyboardInterrupt | _ => None end)
    always_true
    (fun _ => [(1, "/init", "root"); (52, "/sbin/adbd", "root")])
    "/tmp/tmpXk3" "10.0.0.2".

Definition suite_x : Harness.suite_opts :=
  Harness.mkSuite (Some "run_x") (Some ["--out=%(temp_dir)s"]) (Some []) None.

Definition two_suites : Harness.config :=
  Harness.mkConfig
    [("suiteA", Harness.mkSuite (Some "run_a") None None None);
     ("suiteB", Harness.mkSuite (Some "run_b") None None None)]
    [("version", "2.1")].

(** A clock for [poll_wait] under which the first evaluation of the predicate
    takes 100 ticks. *)
Definition slow_clock (n : nat) : Z :=
  match n with
  | 0%nat | 1%nat => 0
  | _ => 100
  end.

End Scenario.


(** ** Statements about runs *)

Module Run.

(** From any trace, [m] appends events that all satisfy [P] and ends with a
    result that satisfies [Q]. *)
Definition run_spec {A : Type} (P : event -> Prop) (Q : result A -> Prop)
    (m : M A) : Prop :=
  forall tr, exists ext, fst (m tr) = tr ++ ext /\ Forall P ext /\ Q (snd (m tr)).

Definition anyhow {A : Type} (_ : result A) : Prop := True.

(** [m] only issues calls that satisfy [P]. *)
Definition emits {A : Type} (P : event -> Prop) (m : M A) : Prop :=
  run_spec P anyhow m.

Definition any_event (_ : event) : Prop := True.

Definition is_prefix (l plan : list event) : Prop := exists rest, plan = l ++ rest.

(** [m] issues the calls of [plan] in order: all of them when it returns, and
    an initial part of them when one raises. *)
Definition follows (plan : list event) (m : M unit) : Prop :=
  forall tr, exists ext,
    fst (m tr) = tr ++ ext /\
    ((snd (m tr) = Ret tt /\ ext = plan) \/
     ((exists e, snd (m tr) = Raise e) /\ is_prefix ext plan)).

(** No call fails in [w]. *)
Definition calm (w : world) : Prop := forall n e, raises w n e = None.

(** The calls of [plan], issued one after the other from position [n] on,
    succeed. *)
Definition calls_succeed (w : world) (n : nat) (plan : list event) : Prop :=
  forall i e, nth_error plan i = Some e -> raises w (n + i) e = None.

(** The events by which a suite is run or the device snapshot is taken,
    restored or discarded. *)
Definition suite_activity (e : event) : bool :=
  match e with
  | RunSuite _ _ | Mkdtemp | GetDirectory _ _ | GetFile _ _ | Rmtree _
  | Remount | RemoveFile _ | PushFile _ _ | RemoveDir _ | PushDir _ _
  | DmReboot _ => true
  | _ => false
  end.

Definition no_suite_activity (e : event) : Prop := suite_activity e = false.

(** Shapes of results. *)
Definition returns {A : Type} (r : result A) : Prop := exists a, r = Ret a.

Definition raises_some {A : Type} (r : result A) : Prop := exists e, r = Raise e.

Definition returns_or_exits {A : Type} (r : result A) : Prop :=
  (exists a, r = Ret a) \/ r = Raise (SystemExit 1).

(** [run_tests] returns 1 or lets a [SystemExit] or [KeyboardInterrupt]
    through. *)
Definition fails_run (r : result Z) : Prop :=
  r = Ret 1%Z \/ exists e, r = Raise e /\ is_exception e = false.

Definition is_run_suite (e : event) : bool :=
  match e with
  | RunSuite _ _ => true
  | _ => false
  end.

(** Nothing but the run of a suite fails in [w]. *)
Definition only_suites_fail (w : world) : Prop :=
  forall n e, is_run_suite e = false -> raises w n e = None.

Definition is_rmtree (e : event) : bool :=
  match e with
  | Rmtree _ => true
  | _ => false
  end.

Definition is_reboot (e : event) : bool :=
  match e with
  | DmReboot _ | AdbReboot => true
  | _ => false
  end.

End Run.

(** Steps of [DeviceBackup.restore] for one path. *)

Module Plan.

Definition harness_file (backup_path remote_path : string) : list event :=
  match Str.rsplit1 "/" remote_path with
  | None => []
  | Some (remote_dir, filename) =>
      [RemoveFile remote_path;
       PushFile (Str.path_join (Harness.local_dir backup_path remote_dir) filename)
         remote_path]
  end.

Definition harness_dir (backup_path remote_path : string) : list event :=
  [RemoveDir remote_path;
   PushDir (Harness.local_dir backup_path remote_path) remote_path].

Definition adb_file (backup_path remote_path : string) : list event :=
  match Str.rsplit1 "/" remote_path with
  | None => []
  | Some (remote_dir, filename) =>
      [Rm remote_path false;
       Push (Str.path_join (Adb.local_dir backup_path remote_dir) filename)
         remote_path]
  end.

Definition adb_dir (backup_path remote_path : string) : list event :=
  [Rm remote_path true;
   Push (Adb.local_dir backup_path remote_path) remote_path].

Definition has_slash (path : string) : Prop := Str.rsplit1 "/" path <> None.

(** The calls of [DeviceBackup.restore] of adb_device_interface.py, in
    order. *)
Definition adb_restore (backup_dirs backup_files : list string)
    (backup_path : string) : list event :=
  [Remount]
  ++ flat_map (adb_file backup_path) backup_files
  ++ flat_map (adb_dir backup_path) backup_dirs.

(** The calls of [DeviceBackup.restore] of harness.py before the reboot. *)
Definition harness_pushes (backup_path : string) : list event :=
  [Remount]
  ++ flat_map (harness_file backup_path) Harness.backup_files
  ++ flat_map (harness_dir backup_path) Harness.backup_dirs.

Definition harness_restore (backup_path : string) : list event :=
  harness_pushes backup_path ++ [DmReboot true].

(** The calls of the loop over the suites of harness.py when every restore
    goes through. *)
Definition suite_loop_calls (backup_path : string)
    (items : list (string * list string)) : list event :=
  flat_map
    (fun item => RunSuite (fst item) (snd item) :: harness_restore backup_path)
    items.

End Plan.

(** ** Texts and test tokens *)

Module Text.

(** [c in s] for a character [c]. *)
Fixpoint has_char (c : ascii) (s : string) : bool :=
  match s with
  | EmptyString => false
  | String c' rest => Ascii.eqb c' c || has_char c rest
  end.

(** The outcome of formatting the rest of a template, after [pre]. *)
Definition prepend (pre : string) (r : result string) : result string :=
  match r with
  | Ret s => Ret (pre ++ s)%string
  | Raise e => Raise e
  end.

(** Templates without placeholder. *)
Definition plain (items : list string) : Prop :=
  Forall (fun item => has_char "%" item = false) items.

(** The name of the raw log of [build_command]. *)
Definition log_name_of (suite : string) (groups : list string) (temp_dir : string) :=
  (temp_dir ++ "/" ++ suite ++ "_structured"
     ++ String.concat "_" (map (Str.replace_char "/" "-") groups)
     ++ ".log")%string.

End Text.

(** What [iter_suites] reads in a test token [suite] or [suite:group]. *)
Module Select.

Definition suite_of (token : string) : string := fst (Str.split1 ":" token).

Definition group_of (token : string) : option string := snd (Str.split1 ":" token).

(** The tokens [iter_suites] goes through: the configured suite names when
    no test is given. *)
Definition tokens (tests : list string) (cfg : Harness.config) : list string :=
  match tests with
  | [] => map fst (Harness.suites cfg)
  | _ => tests
  end.

Definition names (suite : string) (token : string) : bool :=
  (suite_of token =? suite)%string.

(** The groups asked for [suite], in the order of the tokens. *)
Definition groups_for (suite : string) (tokens : list string) : list string :=
  flat_map
    (fun token =>
       if names suite token
       then match group_of token with Some g => [g] | None => [] end
       else [])
    tokens.

(** [[g]] for a group, nothing for none. *)
Definition some_group (group : option string) : list string :=
  match group with
  | Some g => [g]
  | None => []
  end.

(** The step of the loop of [iter_suites]. *)
Definition select_step (d : list (string * list string)) (t : string) :=
  let (suite, group) := Str.split1 ":" t in Harness.add_test suite group d.

End Select.

(** Observations on processes and traces. *)
Module Obs.

Definition is_adbd (p : process) : bool :=
  let '(_, name, _) := p in (name =? "/sbin/adbd")%string.

(** [n] rounds of the loop of [check_network] of harness.py. *)
Definition netcfg_polls (n : nat) : list event :=
  List.concat (repeat [Netcfg; Sleep 1] n).

(** The (remote, local) pairs that a trace pulls from the device. *)
Definition pulled (tr : trace) : list (string * string) :=
  flat_map
    (fun e =>
       match e with
       | Pull remote local | GetDirectory remote local | GetFile remote local =>
           [(remote, local)]
       | _ => []
       end)
    tr.

(** The (remote, local) pairs that a trace pushes to the device. *)
Definition pushed (tr : trace) : list (string * string) :=
  flat_map
    (fun e =>
       match e with
       | Push local remote | PushDir local remote | PushFile local remote =>
           [(remote, local)]
       | _ => []
       end)
    tr.

(** Where [backup] stages a file and [restore] takes it from. *)
Definition staged_file (backup_path remote_path : string) : string :=
  match Str.rsplit1 "/" remote_path with
  | Some (remote_dir, filename) =>
      Str.path_join (Adb.local_dir backup_path remote_dir) filename
  | None => EmptyString
  end.

Definition file_copy (backup_path remote_path : string) : string * string :=
  (remote_path, staged_file backup_path remote_path).

Definition dir_copy (backup_path remote_path : string) : string * string :=
  (remote_path, Adb.local_dir backup_path remote_path).

Definition no_reboot (e : event) : Prop := Run.is_reboot e = false.

(** In a world without failing call, [m] returns, and [obs] of its calls is
    [seen]. *)
Definition observes {X : Type} (obs : trace -> list X) (seen : list X)
    (m : M unit) : Prop :=
  forall tr, exists ext, m tr = (tr ++ ext, Ret tt) /\ obs ext = seen.

End Obs.

(** Further environments. *)
Module Cases.

(** A world without failing call in which only the third poll of [netcfg]
    (the call at position 5) shows an address. *)
Definition third_poll_answers : world :=
  mkWorld Scenario.never_raises (fun n _ => (n =? 5)%nat) (fun _ => [])
    "/tmp/tmpXk3" "10.0.0.2".

(** As [Scenario.quiet], but the extension is already on the device. *)
Definition already_installed : world :=
  mkWorld
    (fun _ e =>
       match e with
       | MarionetteInstall _ => Some (Exc AlreadyInstalledException "")
       | _ => None
       end)
    Scenario.always_true (fun _ => []) "/tmp/tmpXk3" "10.0.0.2".

(** As [Scenario.quiet], but the device has no curl. *)
Definition no_curl : world :=
  mkWorld
    (fun _ e =>
       match e with
       | Curl _ _ => Some (Exc ADBError "/system/bin/sh: curl: not found")
       | _ => None
       end)
    Scenario.always_true (fun _ => []) "/tmp/tmpXk3" "10.0.0.2".

(** As [Scenario.quiet], but pulling [/data/b2g/mozilla] fails. *)
Definition pull_fails : world :=
  mkWorld
    (fun _ e =>
       match e with
       | GetDirectory "/data/b2g/mozilla" _ => Some (Exc DMError "pull failed")
       | _ => None
       end)
    Scenario.always_true (fun _ => []) "/tmp/tmpXk3" "10.0.0.2".

(** The state in which [poll_wait] times out after one failed poll and one
    sleep of one tick. *)
Definition after_one_sleep : PollWait.state := PollWait.mkState 4 1 1 [1].

End Cases.


(** ** A trace monad over any type of calls *)

Module Eff.

Section eff.
Variable E : Type.

Definition M (A : Type) : Type := list E -> list E * result A.

Definition ret {A : Type} (a : A) : M A := fun tr => (tr, Ret a).

Definition raise {A : Type} (e : exn) : M A := fun tr => (tr, Raise e).

Definition bind {A B : Type} (m : M A) (k : A -> M B) : M B :=
  fun tr =>
    match m tr with
    | (tr', Ret a) => k a tr'
    | (tr', Raise e) => (tr', Raise e)
    end.

Definition try_except {A : Type} (m : M A) (catches : exn -> bool)
    (handler : exn -> M A) : M A :=
  fun tr =>
    match m tr with
    | (tr', Raise e) => if catches e then handler e tr' else (tr', Raise e)
    | done => done
    end.

Definition try_finally {A : Type} (m : M A) (fin : M unit) : M A :=
  fun tr =>
    let (tr', r) := m tr in
    match fin tr' with
    | (tr'', Ret _) => (tr'', r)
    | (tr'', Raise e) => (tr'', Raise e)
    end.

Definition with_ {R A : Type} (enter : M R) (exit : R -> M unit)
    (body : R -> M A) : M A :=
  bind enter (fun r => try_finally (body r) (exit r)).

Fixpoint for_each {A : Type} (body : A -> M unit) (items : list A) : M unit :=
  match items with
  | [] => ret tt
  | x :: rest => bind (body x) (fun _ => for_each body rest)
  end.

(** A call that may fail: [raises n e] as in [Sys.world]. *)
Definition call (raises : nat -> E -> option exn) (e : E) : M unit :=
  fun tr =>
    (tr ++ [e],
     match raises (List.length tr) e with
     | Some x => Raise x
     | None => Ret tt
     end).

(** A call that does not fail (printing). *)
Definition say (e : E) : M unit := fun tr => (tr ++ [e], Ret tt).

(** [m] only issues calls that satisfy [P]. *)
Definition issues (P : E -> Prop) {A : Type} (m : M A) : Prop :=
  forall tr, exists ext, fst (m tr) = tr ++ ext /\ Forall P ext.

End eff.

Arguments ret {E A} a.
Arguments raise {E A} e.
Arguments bind {E A B} m k.
Arguments try_except {E A} m catches handler.
Arguments try_finally {E A} m fin.
Arguments with_ {E R A} enter exit body.
Arguments for_each {E A} body items.
Arguments call {E} raises e.
Arguments say {E} e.
Arguments issues {E} P {A} m.

End Eff.

(** ** harness.py: running one suite, listing the tests *)

Module Runner.

Inductive event : Type :=
| TempDirNew
| TempDirRemove (path : string)
| ProcessHandlerNew (cmd : list string)
| ProcRun
| ProcWait
| ProcKill
| ZipWrite (path arcname : string)
| AddSubsuiteReport (path : string)
| CheckOutput (cmd : list string)
| Print (line : string)
| PrintErr (line : string).

(** [temp_dir] is the directory that [TemporaryDirectory()] creates, and
    [output cmd] the lines that the command prints on its standard output. *)
Record world : Type := mkWorld {
  raises : nat -> event -> option exn;
  temp_dir : string;
  output : list string -> list string
}.

(** [os.path.split(path)[1]] *)
Definition basename (path : string) : string :=
  match Str.rsplit1 "/" path with
  | Some (_, tail) => tail
  | None => path
  end.

Definition exn_text (e : exn) : string :=
  match e with
  | Exc _ m => m
  | _ => EmptyString
  end.

Section runner.
Variable w : world.
Variable cfg : Harness.config.

Definition do (e : event) : Eff.M event unit := Eff.call (raises w) e.

(** [TestRunner.run_test].  [proc] is bound once [ProcessHandler(...)] has
    returned; before that the [proc.kill()] of the [finally] clause raises a
    NameError, which its bare [except] drops. *)
Definition run_test (suite : string) (groups : list string) (temp : string)
    : Eff.M event (list string * string) :=
  match Harness.build_command cfg suite groups temp with
  | Raise e => Eff.raise e
  | Ret (cmd, output_files, structured_log) =>
      Eff.bind (do (ProcessHandlerNew cmd))
        (fun _ =>
           Eff.try_finally
             (Eff.bind (do ProcRun)
                (fun _ =>
                   Eff.bind (do ProcWait)
                     (fun _ => Eff.ret (output_files, structured_log))))
             (Eff.try_except (do ProcKill) anything (fun _ => Eff.ret tt)))
  end.

(** [log_manager.add_file(path, "%s/%s" % (suite, file_name))] *)
Definition add_file (suite path : string) : Eff.M event unit :=
  do (ZipWrite path (suite ++ "/" ++ basename path)%string).

(** [TestRunner.run_suite] *)
Definition run_suite (suite : string) (groups : list string) : Eff.M event unit :=
  Eff.with_
    (Eff.bind (do TempDirNew) (fun _ => Eff.ret (temp_dir w)))
    (fun temp => do (TempDirRemove temp))
    (fun temp =>
       Eff.bind (run_test suite groups temp)
         (fun '(result_files, structured_path) =>
            Eff.bind (Eff.for_each (add_file suite) result_files)
              (fun _ => do (AddSubsuiteReport structured_path)))).

(** The command of [iter_test_lists] for one suite. *)
Definition list_command (opts : Harness.suite_opts) : result (list string) :=
  match Harness.cmd opts with
  | None => Raise (Exc KeyError "cmd")
  | Some exe =>
      Ret ([exe; "--list-test-groups"] ++ Harness.get_list (Harness.common_args opts))
  end.

Definition is_listing_error (e : exn) : bool :=
  is_instance CalledProcessError e || is_instance OSError e.

(** One round of the loop of [iter_test_lists], with the [print] that
    [list_tests] makes for each pair it yields. *)
Definition list_suite (item : string * Harness.suite_opts) : Eff.M event unit :=
  let (name, opts) := item in
  match list_command opts with
  | Raise e => Eff.raise e
  | Ret cmd =>
      Eff.try_except
        (Eff.bind (do (CheckOutput cmd))
           (fun _ =>
              Eff.for_each
                (fun group => Eff.say (Print (name ++ ":" ++ group)%string))
                (output w cmd)))
        is_listing_error
        (fun e =>
           Eff.bind
             (Eff.say
                (PrintErr ("Failed to run command: " ++ String.concat " " cmd
                             ++ ": " ++ exn_text e)%string))
             (fun _ => Eff.raise (SystemExit 1)))
  end.

Definition newline : string := String "010"%char EmptyString.

Definition usage : string :=
  ("To run a set of tests, pass those test names on the commandline, like:"
     ++ newline
     ++ "runcertsuite suite1:test1 suite1:test2 suite2:test1 [...]")%string.

(** [list_tests] *)
Definition list_tests : Eff.M event Z :=
  Eff.bind (Eff.say (Print "Tests available:"))
    (fun _ =>
       Eff.bind (Eff.for_each list_suite (Harness.suites cfg))
         (fun _ => Eff.bind (Eff.say (Print usage)) (fun _ => Eff.ret 0))).

End runner.

(** The archive entries of the output files of a suite. *)
Definition archived (suite : string) (files : list string) : list event :=
  map (fun path => ZipWrite path (suite ++ "/" ++ basename path)%string) files.

Definition no_temp_removal (e : event) : Prop :=
  match e with
  | TempDirRemove _ | TempDirNew => False
  | _ => True
  end.

Definition process_call (e : event) : Prop :=
  match e with
  | ProcessHandlerNew _ | ProcRun | ProcWait | ProcKill => True
  | _ => False
  end.

(** What [list_tests] does for one suite whose listing succeeds. *)
Definition listed (w : world) (item : string * Harness.suite_opts) : list event :=
  match list_command (snd item) with
  | Raise _ => []
  | Ret cmd =>
      CheckOutput cmd
      :: map (fun group => Print (fst item ++ ":" ++ group)%string) (output w cmd)
  end.

(** Every suite of [items] has a command, and its listing does not fail. *)
Definition listings_succeed (w : world)
    (items : list (string * Harness.suite_opts)) : Prop :=
  forall item,
    In item items ->
    exists cmd,
      list_command (snd item) = Ret cmd /\
      forall n, raises w n (CheckOutput cmd) = None.

(** The message of [iter_test_lists] on the error stream. *)
Definition listing_failure (cmd : list string) (x : exn) : string :=
  ("Failed to run command: " ++ String.concat " " cmd ++ ": " ++ exn_text x)%string.

End Runner.

(** ** adb_device_interface.py: [PushFile], [install_marionette], readiness *)

Module Device.

Section push_file.
Variable w : Sys.world.

(** [PushFile.__enter__] *)
Definition PushFile_enter (local remote : string) : M unit :=
  (if String.prefix "/system/" remote then call w Remount else ret tt) ;;
  call w (Push local remote).

(** [PushFile.__exit__] *)
Definition PushFile_exit (remote : string) : M unit :=
  call w (Rm remote false).

(** [with PushFile(device, local, remote): body] *)
Definition with_PushFile {A : Type} (local remote : string) (body : M A) : M A :=
  with_ (PushFile_enter local remote) (fun _ => PushFile_exit remote)
    (fun _ => body).

End push_file.

(** The calls of [ADBDeviceInterface.install_marionette]. *)
Inductive install_event : Type :=
| MarionetteInstall (version : string)
| Restart.

Section install.
Variable raises : nat -> install_event -> option exn.

(** [ADBDeviceInterface.install_marionette].  Of the [except] clauses the
    first that matches is taken: [CalledProcessError] is logged and raised
    again, [WaitTimeout] gives False. *)
Definition install_marionette (version : string) : Eff.M install_event bool :=
  Eff.bind
    (Eff.try_except
       (Eff.bind
          (Eff.try_except (Eff.call raises (MarionetteInstall version))
             (is_instance AlreadyInstalledException) (fun _ => Eff.ret tt))
          (fun _ => Eff.ret true))
       (fun e => is_instance CalledProcessError e || is_instance WaitTimeout e)
       (fun e =>
          if is_instance CalledProcessError e then Eff.raise e else Eff.ret false))
    (fun installed =>
       if installed
       then Eff.bind (Eff.call raises Restart) (fun _ => Eff.ret true)
       else Eff.ret false).

End install.

(** *** The poll of [wait_for_device_ready] *)

(** [c.isspace()] *)
Definition is_space (c : ascii) : bool :=
  match c with
  | " "%char | "009"%char | "010"%char | "011"%char | "012"%char | "013"%char => true
  | _ => false
  end.

(** Where [s.split(None, maxsplit)] stands: between words, with [allowed] splits
    still to make, or in a word. *)
Inductive scan : Type :=
| Gap (allowed : nat)
| Word (allowed : nat) (acc : string).

Fixpoint split_from (st : scan) (s : string) : list string :=
  match s with
  | EmptyString =>
      match st with
      | Gap _ => []
      | Word _ acc => [acc]
      end
  | String c rest =>
      match st with
      | Gap allowed =>
          if is_space c then split_from (Gap allowed) rest
          else
            match allowed with
            | O => [s]
            | S _ => split_from (Word allowed (String c EmptyString)) rest
            end
      | Word allowed acc =>
          if is_space c then acc :: split_from (Gap (Nat.pred allowed)) rest
          else split_from (Word allowed (acc ++ String c EmptyString)%string) rest
      end
  end.

(** [s.split(None, maxsplit)] *)
Definition split_ws (maxsplit : nat) (s : string) : list string :=
  split_from (Gap maxsplit) s.

(** The [try] block of [inner]: the modification time read in the listing,
    or [None] when the command or the unpacking of the seven fields fails. *)
Definition listing_mtime (listing : result string) : option string :=
  match listing with
  | Raise _ => None
  | Ret s =>
      match split_ws 6 s with
      | [_; _; _; _; date; time; _] => Some (date ++ " " ++ time)%string
      | _ => None
      end
  end.

(** One call of [inner], the closure of [prefs_modified], from the value of
    [times[0]]: its result and the new [times[0]]. *)
Definition inner (times0 : option string) (listing : result string)
    : bool * option string :=
  match listing_mtime listing with
  | None => (false, times0)
  | Some mtime =>
      match times0 with
      | None => (false, Some mtime)
      | Some first => (negb (mtime =? first)%string, times0)
      end
  end.

(** [times[0]] before call number [n], when [listings k] is what call number
    [k] of [ls -l] gives. *)
Fixpoint times_before (listings : nat -> result string) (n : nat) : option string :=
  match n with
  | O => None
  | S k => snd (inner (times_before listings k) (listings k))
  end.

(** The outcomes of the successive calls of [prefs_modified()]. *)
Definition prefs_modified (listings : nat -> result string) (n : nat) : result bool :=
  Ret (fst (inner (times_before listings n) (listings n))).

(** The [poll_wait] that ends [wait_for_device_ready]. *)
Definition wait_for_prefs (clock : nat -> Z) (listings : nat -> result string)
    (after_first : option (result unit)) (wait_polling_interval timeout : Z)
    (fuel : nat) : option (PollWait.state * result bool) :=
  PollWait.poll_wait (fun b : bool => b) clock (prefs_modified listings)
    after_first wait_polling_interval timeout fuel.

End Device.

(** ** webidl/get_webidl.py *)

Module Webidl.

Fixpoint skip (n : nat) (s : string) : string :=
  match n, s with
  | O, _ => s
  | S k, String _ rest => skip k rest
  | S _, EmptyString => EmptyString
  end.

(** [fn[-6:]] *)
Definition last6 (fn : string) : string := skip (String.length fn - 6) fn.

Definition quote : string := String "034"%char EmptyString.

Definition webidl_dir : string := "gecko/dom/webidl/".

(** The text that [main] writes for the listing [names] of the directory. *)
Definition written (names : list string) : list string :=
  flat_map
    (fun fn =>
       if (last6 fn =? "webidl")%string
       then [(quote ++ Str.path_join webidl_dir fn ++ quote ++ Runner.newline)%string]
       else [])
    names.

(** The line written for one file name. *)
Definition webidl_line (fn : string) : string :=
  (quote ++ "gecko/dom/webidl/" ++ fn ++ quote ++ Runner.newline)%string.

End Webidl.

(** ** Further expected calls and concrete environments *)

Module Probe.

(** The calls of [check_server] of harness.py for one port that answers. *)
Definition served (host : string) (port : Z) : list event :=
  [ServerStart port; Navigate host port; GoBack; ServerStop port].

(** The calls of [check_server] of harness.py before the first port. *)
Definition session_calls : list event :=
  [NewDeviceManager; Forward; AdbForwardList; NewMarionette; StartSession;
   WaitForB2GReady 60; GetIp].

(** The calls of [check_server] of adb_device_interface.py for one port that
    answers. *)
Definition fetched (host : string) (port : Z) : list event :=
  [ServerStart port; Curl host port; ServerStop port].

Definition starts (port : Z) (e : event) : bool :=
  match e with
  | ServerStart p => (p =? port)%Z
  | _ => false
  end.

(** [e] is not the start of the server on port 8001. *)
Definition no_second_start (e : event) : Prop := starts 8001 e = false.

End Probe.

Module Samples.

Definition rewritten_prefs (n : nat) : result string :=
  match n with
  | 0%nat | 1%nat =>
      Ret "-rw------- root root 123 2013-11-19 09:19 prefs.js"
  | _ => Ret "-rw------- root root 125 2014-11-20 10:21 prefs.js"
  end.

Definition ready_state : PollWait.state := PollWait.mkState 6 3 1 [1; 1].

(** Every call succeeds; a listing command prints two groups. *)
Definition calm_runner : Runner.world :=
  Runner.mkWorld (fun _ _ => None) "/tmp/t" (fun _ => ["apps"; "sms"]).

(** As [calm_runner], but the process cannot be waited for. *)
Definition wait_fails : Runner.world :=
  Runner.mkWorld
    (fun _ e =>
       match e with
       | Runner.ProcWait => Some (Exc OSError "no child")
       | _ => None
       end)
    "/tmp/t" (fun _ => ["apps"; "sms"]).

(** As [calm_runner], but the listing of [run_b] cannot be executed. *)
Definition run_b_missing : Runner.world :=
  Runner.mkWorld
    (fun _ e =>
       match e with
       | Runner.CheckOutput ("run_b" :: _) => Some (Exc OSError "No such file")
       | _ => None
       end)
    "/tmp/t" (fun _ => ["apps"; "sms"]).

Definition one_suite : Harness.config :=
  Harness.mkConfig [("sx", Scenario.suite_x)] [("version", "2.1")].

Definition sx_log : string := "/tmp/t/sx_structuredg1_g2.log".

Definition sx_command : list string :=
  ["run_x"; "--log-raw=/tmp/t/sx_structuredg1_g2.log"; "--log-mach=-";
   "--include=g1"; "--include=g2"; "--out=/tmp/t"].

(** A suite whose second run-time argument names an entry that the
    configuration does not have, and a suite without a command. *)
Definition needs_profile : Harness.config :=
  Harness.mkConfig
    [("sp", Harness.mkSuite (Some "run_p")
              (Some ["--out=%(temp_dir)s"; "--p=%(profile)s"]) None None);
     ("bare", Harness.mkSuite None None None None)]
    [("version", "2.1")].

End Samples.


(** * Properties *)

(** ** [poll_wait] *)

Section poll_wait_facts.
Import PollWait.
Variable V : Type.
Variable truthy : V -> bool.
Variable clock : nat -> Z.
Variable func : nat -> result V.
Variable after_first : option (result unit).
Variable polling_interval timeout : Z.

#[local] Abbreviation loop := (loop truthy clock func after_first polling_interval timeout).
#[local] Abbreviation poll_wait := (poll_wait truthy clock func after_first polling_interval timeout).
#[local] Abbreviation in_time := (in_time clock timeout).
#[local] Abbreviation falsy_at := (falsy_at truthy func).
#[local] Abbreviation truthy_at := (truthy_at truthy func).
#[local] Abbreviation at_iteration := (at_iteration after_first).
#[local] Abbreviation callbacks_after := (callbacks_after after_first).
#[local] Abbreviation stops := (stops truthy clock func after_first timeout).
#[local] Abbreviation run_after_first := (run_after_first after_first).

(** First iteration of a failed poll: what [run_after_first] leaves. *)
Lemma run_after_first_spec (i : nat) (st : state) :
  evals st = S i -> callbacks st = callbacks_after i ->
  forall st2 r,
    run_after_first (negb (i =? 0)%nat) st = (st2, r) ->
    reads st2 = reads st /\ evals st2 = evals st /\ sleeps st2 = sleeps st /\
    ((r = Ret tt /\ callbacks st2 = callbacks_after (S i)) \/
     (exists e, r = Raise e /\ i = 0%nat /\ after_first = Some (Raise e) /\
                callbacks st2 = 1%nat)).
Proof.
  intros He Hc st2 r. unfold PollWait.run_after_first, PollWait.callbacks_after in *.
  destruct after_first as [[[]|e]|]; destruct i; simpl; intros H;
    inversion H; subst; clear H; simpl; repeat split; auto.
  all: try (left; split; [reflexivity | lia]).
  all: try (left; split; [reflexivity | assumption]).
  all: try (right; exists e; repeat split; auto; lia).
Qed.

Lemma loop_sound (fuel : nat) :
  forall i ct ran_first st st' r,
    ct = clock (2 * i + 1) -> ran_first = negb (i =? 0)%nat ->
    at_iteration i st ->
    loop fuel (clock 0) ct ran_first st = Some (st', r) ->
    exists n, (i <= n)%nat /\
      (forall j, (i <= j < n)%nat -> in_time j /\ falsy_at j) /\
      stops n st' r.
Proof.
  induction fuel as [|fuel IH]; intros i ct rf st st' r Hct Hrf Hat Hrun;
    [discriminate|].
  destruct Hat as (Hr & He & Hc).
  simpl in Hrun.
  destruct (ct - clock 0 <? timeout) eqn:Hguard.
  - apply Z.ltb_lt in Hguard. rewrite Hct in Hguard.
    rewrite He in Hrun.
    destruct (func i) as [value|e] eqn:Hf.
    + destruct (truthy value) eqn:Ht.
      * injection Hrun as <- <-.
        exists i. split; [lia|]. split; [intros; lia|].
        apply stops_value; simpl; auto. split; auto.
      * destruct (run_after_first rf (tick_eval st)) as [st2 r2] eqn:Hcb.
        rewrite Hrf in Hcb.
        apply (run_after_first_spec i) in Hcb; simpl; auto.
        destruct Hcb as (Hr2 & He2 & _ & [[-> Hc2]|(e & -> & -> & Haf & Hc2)]).
        -- simpl in Hr2, He2.
           apply (IH (S i)) in Hrun.
           ++ destruct Hrun as (n & Hn & Hall & Hstop).
              exists n. split; [lia|]. split; auto.
              intros j Hj. destruct (Nat.eq_dec j i) as [->|].
              ** split; auto. exists value; auto.
              ** apply Hall; lia.
           ++ f_equal. lia.
           ++ reflexivity.
           ++ unfold PollWait.at_iteration; simpl; repeat split; try lia; auto.
        -- injection Hrun as <- <-.
           exists 0%nat. split; [lia|]. split; [intros; lia|].
           apply stops_callback_raises; auto.
           ++ exists value; auto.
           ++ simpl in He2. lia.
    + injection Hrun as <- <-.
      exists i. split; [lia|]. split; [intros; lia|].
      apply stops_func_raises; simpl; auto.
  - apply Z.ltb_ge in Hguard. rewrite Hct in Hguard.
    injection Hrun as <- <-.
    exists i. split; [lia|]. split; [intros; lia|].
    apply stops_timeout.
    + unfold PollWait.in_time. lia.
    + repeat split; auto.
Qed.

(** What [poll_wait] returns when it returns. *)
Lemma poll_wait_sound (fuel : nat) (st : state) (r : result V) :
  poll_wait fuel = Some (st, r) ->
  exists n, (forall j, (j < n)%nat -> in_time j /\ falsy_at j) /\ stops n st r.
Proof.
  intros H. unfold PollWait.poll_wait in H.
  apply (loop_sound fuel 0) in H; try reflexivity.
  - destruct H as (n & _ & Hall & Hs). exists n. split; auto.
    intros j Hj. apply Hall. lia.
  - unfold PollWait.at_iteration, PollWait.callbacks_after; simpl.
    destruct after_first; auto.
Qed.

(** The loop runs through [d] failed polls and stops at iteration [i + d]
    when the predicate is truthy there. *)
Lemma loop_reaches (d : nat) :
  forall i fuel ct ran_first st v,
    ct = clock (2 * i + 1) -> ran_first = negb (i =? 0)%nat ->
    at_iteration i st ->
    callback_returns after_first ->
    (forall j, (i <= j < i + d)%nat -> falsy_at j) ->
    (forall j, (i <= j <= i + d)%nat -> in_time j) ->
    truthy_at (i + d) v ->
    (d < fuel)%nat ->
    exists st',
      loop fuel (clock 0) ct ran_first st = Some (st', Ret v) /\
      evals st' = S (i + d) /\ callbacks st' = callbacks_after (i + d).
Proof.
  induction d as [|d IH]; intros i fuel ct rf st v Hct Hrf Hat Hcbr Hfalse Htime Htrue Hfuel.
  - destruct fuel as [|fuel]; [lia|]. destruct Hat as (Hr & He & Hc).
    rewrite Nat.add_0_r in *. destruct Htrue as [Hf Ht].
    simpl. assert (Hg : in_time i) by (apply Htime; lia).
    unfold PollWait.in_time in Hg. rewrite <- Hct in Hg.
    apply Z.ltb_lt in Hg. rewrite Hg, He, Hf, Ht.
    eexists. split; [reflexivity|]. simpl. split; [lia | assumption].
  - destruct fuel as [|fuel]; [lia|]. destruct Hat as (Hr & He & Hc).
    simpl. assert (Hg : in_time i) by (apply Htime; lia).
    unfold PollWait.in_time in Hg. rewrite <- Hct in Hg.
    apply Z.ltb_lt in Hg. rewrite Hg, He.
    destruct (Hfalse i) as (value & Hf & Ht); [lia|]. rewrite Hf, Ht.
    destruct (run_after_first rf (tick_eval st)) as [st2 r2] eqn:Hcb.
    rewrite Hrf in Hcb.
    apply (run_after_first_spec i) in Hcb; simpl; auto.
    destruct Hcb as (Hr2 & He2 & _ & [[-> Hc2]|(e & -> & -> & Haf & Hc2)]).
    + simpl in Hr2, He2.
      destruct (IH (S i) fuel (clock (S (reads st2))) true
                  (tick_sleep (Z.max (ct + polling_interval - clock (reads st2)) 0) st2) v)
        as (st' & Hrun & He' & Hc'); auto.
      * f_equal. lia.
      * unfold PollWait.at_iteration; simpl; repeat split; try lia; auto.
      * intros j Hj. apply Hfalse. lia.
      * intros j Hj. apply Htime. lia.
      * replace (S i + d)%nat with (i + S d)%nat by lia. assumption.
      * lia.
      * exists st'. rewrite Hrun. split; [reflexivity|].
        replace (i + S d)%nat with (S i + d)%nat by lia. auto.
    + exfalso. eapply Hcbr. eassumption.
Qed.

Lemma run_after_first_reads (ran_first : bool) (st st2 : state) (r : result unit) :
  run_after_first ran_first st = (st2, r) -> reads st2 = reads st.
Proof.
  unfold PollWait.run_after_first.
  destruct after_first; [destruct ran_first|]; simpl; intros H;
    injection H as <- _; reflexivity.
Qed.

(** When every iteration advances the clock by at least a positive
    [polling_interval], the loop stops within the iterations that fit in the
    time left. *)
Lemma loop_terminates (fuel : nat) :
  forall i ct ran_first st,
    0 < polling_interval ->
    (forall m, clock (2 * m + 1) + polling_interval <= clock (2 * m + 3)) ->
    ct = clock (2 * i + 1) -> reads st = (2 * i + 2)%nat ->
    timeout - (ct - clock 0) <= Z.of_nat fuel * polling_interval ->
    exists st' r, loop (S fuel) (clock 0) ct ran_first st = Some (st', r).
Proof.
  induction fuel as [|fuel IH]; intros i ct rf st Hpos Hadv Hct Hr Hleft.
  - simpl. destruct (ct - clock 0 <? timeout) eqn:Hg; [|eauto].
    apply Z.ltb_lt in Hg. lia.
  - cbn [PollWait.loop].
    destruct (ct - clock 0 <? timeout) eqn:Hg; [|eauto].
    destruct (func (evals st)) as [value|e]; [|eauto].
    cbv zeta. destruct (truthy value); [eauto|].
    destruct (run_after_first rf (tick_eval st)) as [st2 [[]|e]] eqn:Hcb; [|eauto].
    apply run_after_first_reads in Hcb. simpl in Hcb.
    apply (IH (S i)); auto.
    + rewrite Hcb, Hr. f_equal. lia.
    + simpl. lia.
    + rewrite Hcb, Hr.
      replace (S (2 * i + 2)) with (2 * i + 3)%nat by lia.
      specialize (Hadv i). rewrite <- Hct in Hadv. lia.
Qed.

(** C4 (amended).  If the predicate is falsy at its first [k] evaluations and
    truthy at the next one, with [k <= N], the loop condition holds at these
    [k + 1] iterations and the callback does not raise, then [poll_wait]
    returns the truthy value after exactly [k + 1 <= N + 1] evaluations; the
    callback has run exactly once when it is supplied and the first poll
    failed, and not at all when the first poll succeeded. *)
Theorem poll_wait_returns_within (N k : nat) (v : V) :
  (k <= N)%nat ->
  (forall j, (j < k)%nat -> falsy_at j) ->
  truthy_at k v ->
  (forall j, (j <= k)%nat -> in_time j) ->
  callback_returns after_first ->
  forall fuel, (k < fuel)%nat ->
  exists st,
    poll_wait fuel = Some (st, Ret v) /\
    evals st = S k /\ (evals st <= N + 1)%nat /\
    (after_first <> None -> (0 < k)%nat -> callbacks st = 1%nat) /\
    (k = 0%nat -> callbacks st = 0%nat) /\
    (after_first = None -> callbacks st = 0%nat).
Proof.
  intros HkN Hfalse Htrue Htime Hcb fuel Hfuel.
  destruct (loop_reaches k 0 fuel (clock 1) false (mkState 2 0 0 []) v)
    as (st & Hrun & He & Hc); auto.
  - unfold PollWait.at_iteration, PollWait.callbacks_after; simpl.
    destruct after_first; auto.
  - intros j Hj. apply Hfalse. lia.
  - intros j Hj. apply Htime. lia.
  - exists st. simpl in He, Hc. split; [exact Hrun|].
    split; [exact He|]. split; [lia|].
    unfold PollWait.callbacks_after in Hc.
    repeat split.
    + intros Hsome Hpos. destruct after_first; [|congruence].
      destruct k; [lia | exact Hc].
    + intros ->. destruct after_first; exact Hc.
    + intros ->. exact Hc.
Qed.

(** C5 (amended).  For a predicate and a callback that do not raise, a run of
    [poll_wait] raises [WaitTimeout] exactly when the predicate is falsy at
    every evaluation made while the loop condition holds, and otherwise
    returns the truthy value of its last evaluation.  At the failure the
    elapsed time is at least [timeout]; it is below
    [timeout + polling_interval] when no iteration lasts longer than
    [polling_interval] and the two initial clock readings are closer than
    that.  The run ends whenever each iteration advances the clock by at
    least a positive [polling_interval]. *)
Theorem poll_wait_timeout :
  func_returns func -> callback_returns after_first ->
  (forall fuel st r,
     poll_wait fuel = Some (st, r) ->
     (r = Raise (Exc WaitTimeout "") <->
      (forall i, (forall j, (j <= i)%nat -> in_time j) -> falsy_at i)) /\
     (r = Raise (Exc WaitTimeout "") \/
      exists v, r = Ret v /\ truthy v = true /\ func (Nat.pred (evals st)) = Ret v) /\
     (r = Raise (Exc WaitTimeout "") ->
      timeout <= elapsed clock st /\
      ((forall m, clock (2 * m + 3) <= clock (2 * m + 1) + polling_interval) ->
       clock 1 - clock 0 < timeout + polling_interval ->
       elapsed clock st < timeout + polling_interval))) /\
  (0 < polling_interval ->
   (forall m, clock (2 * m + 1) + polling_interval <= clock (2 * m + 3)) ->
   exists fuel st r, poll_wait fuel = Some (st, r)).
Proof.
  intros Hfunc Hcb. split.
  - intros fuel st r Hrun.
    apply poll_wait_sound in Hrun. destruct Hrun as (n & Hall & Hstop).
    destruct Hstop as [Hout Hat | v Hin [Hf Ht] Hr He Hc | e Hin Hf He Hc
                      | e Hn Hin Hfal Haf He Hc].
    + split; [|split].
      * split; auto. intros _ i Hi.
        destruct (Nat.lt_ge_cases i n) as [Hlt|Hge]; [apply Hall; exact Hlt|].
        exfalso. apply Hout. apply Hi. exact Hge.
      * left; reflexivity.
      * intros _. destruct Hat as (Hr & _ & _).
        unfold PollWait.elapsed, PollWait.in_time in *. rewrite Hr.
        replace (Nat.pred (2 * n + 2)) with (2 * n + 1)%nat by lia.
        split; [lia|]. intros Hstep Hfirst.
        destruct n as [|m]; [exact Hfirst|].
        destruct (Hall m) as [Hm _]; [lia|].
        specialize (Hstep m).
        replace (2 * S m + 1)%nat with (2 * m + 3)%nat by lia. lia.
    + split; [|split].
      * split; [discriminate|]. intros Hnever.
        destruct (Hnever n) as (v' & Hf' & Ht').
        -- intros j Hj. destruct (Nat.eq_dec j n) as [->|]; [exact Hin|].
           apply Hall; lia.
        -- congruence.
      * right. exists v. rewrite He. simpl. auto.
      * discriminate.
    + destruct (Hfunc n) as [v Hv]. congruence.
    + exfalso. eapply Hcb. eassumption.
  - intros Hpos Hadv.
    exists (S (Z.to_nat (Z.max 0 (timeout - (clock 1 - clock 0))))).
    unfold PollWait.poll_wait.
    apply (loop_terminates _ 0); auto. nia.
Qed.

End poll_wait_facts.

(** C4 as stated fails: with a predicate that is truthy at the first poll the
    supplied callback is never called. *)
Lemma poll_wait_callback_not_called :
  ~ (forall (V : Type) (truthy : V -> bool) (clock : nat -> Z)
       (func : nat -> result V) (after_first : option (result unit))
       (polling_interval timeout : Z) (N k : nat) (v : V),
       (k <= N)%nat ->
       (forall j, (j < k)%nat -> PollWait.falsy_at truthy func j) ->
       PollWait.truthy_at truthy func k v ->
       (forall j, (j <= k)%nat -> PollWait.in_time clock timeout j) ->
       PollWait.callback_returns after_first ->
       forall fuel, (k < fuel)%nat ->
       exists st,
         PollWait.poll_wait truthy clock func after_first polling_interval timeout fuel
           = Some (st, Ret v) /\
         (PollWait.evals st <= N + 1)%nat /\
         (after_first <> None -> PollWait.callbacks st = 1%nat)).
Proof.
  intros H.
  destruct (H bool (fun b => b) (fun _ => 0) (fun _ => Ret true) (Some (Ret tt))
              1 30 0%nat 0%nat true) with (fuel := 1%nat)
    as (st & Hrun & _ & Hc).
  - lia.
  - intros j Hj. lia.
  - split; reflexivity.
  - intros j _. unfold PollWait.in_time. lia.
  - intros e. discriminate.
  - lia.
  - vm_compute in Hrun. injection Hrun as <-.
    assert (Hone : PollWait.callbacks (PollWait.mkState 2 1 0 []) = 1%nat)
      by (apply Hc; discriminate).
    discriminate Hone.
Qed.

Lemma poll_wait_returns_within_witness :
  exists st,
    PollWait.poll_wait (fun b : bool => b) (fun n => Z.of_nat n)
      (fun n => Ret (2 <=? n)%nat) (Some (Ret tt)) 1 30 5 = Some (st, Ret true) /\
    PollWait.evals st = 3%nat /\ (PollWait.evals st <= 3 + 1)%nat /\
    (Some (Ret tt) <> None -> (0 < 2)%nat -> PollWait.callbacks st = 1%nat) /\
    (2%nat = 0%nat -> PollWait.callbacks st = 0%nat) /\
    (Some (Ret tt) = None -> PollWait.callbacks st = 0%nat).
Proof.
  apply (poll_wait_returns_within bool (fun b => b) (fun n => Z.of_nat n)
           (fun n => Ret (2 <=? n)%nat) (Some (Ret tt)) 1 30 3%nat 2%nat true).
  - lia.
  - intros j Hj. exists false. destruct j as [|[|j]]; [split; reflexivity..|lia].
  - split; reflexivity.
  - intros j Hj. unfold PollWait.in_time. lia.
  - intros e; discriminate.
  - lia.
Defined.

(** C5 as stated fails: the failure comes 100 ticks after the start although
    [timeout + polling_interval] is 31. *)
Lemma poll_wait_overruns :
  ~ (forall (V : Type) (truthy : V -> bool) (clock : nat -> Z)
       (func : nat -> result V) (after_first : option (result unit))
       (polling_interval timeout : Z) (fuel : nat) (st : PollWait.state),
       PollWait.func_returns func ->
       PollWait.callback_returns after_first ->
       PollWait.poll_wait truthy clock func after_first polling_interval timeout fuel
         = Some (st, Raise (Exc WaitTimeout "")) ->
       timeout <= PollWait.elapsed clock st < timeout + polling_interval).
Proof.
  intros H.
  specialize (H bool (fun b => b) Scenario.slow_clock (fun _ => Ret false) None 1 30
                5%nat (PollWait.mkState 4 1 0 [0])).
  destruct H as [_ H].
  - intros i. exists false. reflexivity.
  - intros e. discriminate.
  - vm_compute. reflexivity.
  - vm_compute in H. discriminate H.
Qed.

Lemma poll_wait_timeout_witness :
  3 <= PollWait.elapsed (fun n => Z.of_nat n) (PollWait.mkState 4 1 1 [1]) < 3 + 2.
Proof.
  destruct (poll_wait_timeout bool (fun b => b) (fun n => Z.of_nat n)
              (fun _ => Ret false) (Some (Ret tt)) 2 3) as [H _].
  - intros i. exists false. reflexivity.
  - intros e. discriminate.
  - destruct (H 5%nat (PollWait.mkState 4 1 1 [1]) (Raise (Exc WaitTimeout "")))
      as (_ & _ & Hb); [reflexivity|].
    destruct Hb as [Hlo Hhi]; [reflexivity|].
    split; [exact Hlo | apply Hhi; [intros m; lia | lia]].
Defined.

(** ** Rules for runs *)

Section run_rules.
Import Run.
Context {A B : Type}.
Variable P : event -> Prop.

Lemma run_ret (Q : result A -> Prop) (a : A) : Q (Ret a) -> run_spec P Q (ret a).
Proof.
  intros H tr. exists []. simpl. rewrite app_nil_r. auto.
Qed.

Lemma run_raise (Q : result A -> Prop) (e : exn) :
  Q (Raise e) -> run_spec P Q (raise e).
Proof.
  intros H tr. exists []. simpl. rewrite app_nil_r. auto.
Qed.

Lemma run_weaken (P' : event -> Prop) (Q Q' : result A -> Prop) (m : M A) :
  run_spec P' Q' m ->
  (forall e, P' e -> P e) -> (forall r, Q' r -> Q r) ->
  run_spec P Q m.
Proof.
  intros H HP HQ tr. destruct (H tr) as (ext & E & F & R).
  exists ext. repeat split; auto.
  eapply Forall_impl; eauto.
Qed.

Lemma run_bind (Q1 : result A -> Prop) (Q : result B -> Prop)
    (m : M A) (k : A -> M B) :
  run_spec P Q1 m ->
  (forall a, Q1 (Ret a) -> run_spec P Q (k a)) ->
  (forall e, Q1 (Raise e) -> Q (Raise e)) ->
  run_spec P Q (bind m k).
Proof.
  intros Hm Hk He tr. unfold bind.
  destruct (Hm tr) as (ext & E & F & R).
  destruct (m tr) as [tr' [a|e]]; simpl in *; subst tr'.
  - destruct (Hk a R (tr ++ ext)) as (ext' & E' & F' & R').
    exists (ext ++ ext'). rewrite E', app_assoc. repeat split; auto.
    apply Forall_app; auto.
  - exists ext. auto.
Qed.

Lemma run_try_except (Q1 Q : result A -> Prop) (m : M A)
    (catches : exn -> bool) (handler : exn -> M A) :
  run_spec P Q1 m ->
  (forall a, Q1 (Ret a) -> Q (Ret a)) ->
  (forall e, Q1 (Raise e) -> catches e = true -> run_spec P Q (handler e)) ->
  (forall e, Q1 (Raise e) -> catches e = false -> Q (Raise e)) ->
  run_spec P Q (try_except m catches handler).
Proof.
  intros Hm Hr Hh Hp tr. unfold try_except.
  destruct (Hm tr) as (ext & E & F & R).
  destruct (m tr) as [tr' [a|e]]; simpl in *; subst tr'.
  - exists ext. auto.
  - destruct (catches e) eqn:Hc.
    + destruct (Hh e R Hc (tr ++ ext)) as (ext' & E' & F' & R').
      exists (ext ++ ext'). rewrite E', app_assoc. repeat split; auto.
      apply Forall_app; auto.
    + exists ext. simpl. auto.
Qed.

Lemma run_try_finally (Q1 Q : result A -> Prop) (Q2 : result unit -> Prop)
    (m : M A) (fin : M unit) :
  run_spec P Q1 m -> run_spec P Q2 fin ->
  (forall r, Q1 r -> Q2 (Ret tt) -> Q r) ->
  (forall e, Q2 (Raise e) -> Q (Raise e)) ->
  run_spec P Q (try_finally m fin).
Proof.
  intros Hm Hf Hr He tr. unfold try_finally.
  destruct (Hm tr) as (ext & E & F & R).
  destruct (m tr) as [tr' r]; simpl in *; subst tr'.
  destruct (Hf (tr ++ ext)) as (ext' & E' & F' & R').
  destruct (fin (tr ++ ext)) as [tr'' [[]|e]]; simpl in *; subst tr'';
    exists (ext ++ ext'); rewrite app_assoc; repeat split; auto;
    apply Forall_app; auto.
Qed.

End run_rules.

Section call_rules.
Import Run.
Variable w : world.
Variable P : event -> Prop.

Lemma run_call (Q : result unit -> Prop) (e : event) :
  P e -> Q (Ret tt) -> (forall x, Q (Raise x)) -> run_spec P Q (call w e).
Proof.
  intros HP Hr Hx tr. exists [e]. unfold call; simpl.
  repeat split; auto. destruct (raises w (List.length tr) e); auto.
Qed.

Lemma run_ask (Q : result bool -> Prop) (e : event) :
  P e -> (forall b, Q (Ret b)) -> (forall x, Q (Raise x)) -> run_spec P Q (ask w e).
Proof.
  intros HP Hr Hx tr. exists [e]. unfold ask; simpl.
  repeat split; auto. destruct (raises w (List.length tr) e); auto.
Qed.

Lemma run_call_calm (e : event) :
  calm w -> P e -> run_spec P (eq (Ret tt)) (call w e).
Proof.
  intros Hc HP tr. exists [e]. unfold call; simpl. rewrite Hc. auto.
Qed.

Lemma emits_call (e : event) : P e -> emits P (call w e).
Proof. intros H. apply run_call; unfold anyhow; auto. Qed.

Lemma emits_ask (e : event) : P e -> emits P (ask w e).
Proof. intros H. apply run_ask; unfold anyhow; auto. Qed.

Lemma emits_get_process_list : P GetProcessList -> emits P (get_process_list w).
Proof.
  intros H tr. exists [GetProcessList]. unfold get_process_list, anyhow; simpl. auto.
Qed.

End call_rules.

Section emits_rules.
Import Run.
Context {A B : Type}.
Variable P : event -> Prop.

Lemma emits_ret (a : A) : emits P (ret a).
Proof. apply run_ret. exact I. Qed.

Lemma emits_raise (e : exn) : emits P (@raise A e).
Proof. apply run_raise. exact I. Qed.

Lemma emits_bind (m : M A) (k : A -> M B) :
  emits P m -> (forall a, emits P (k a)) -> emits P (bind m k).
Proof.
  intros Hm Hk. apply (run_bind P anyhow anyhow m k Hm).
  - intros a _. apply Hk.
  - intros; exact I.
Qed.

Lemma emits_try_except (m : M A) (catches : exn -> bool) (handler : exn -> M A) :
  emits P m -> (forall e, emits P (handler e)) ->
  emits P (try_except m catches handler).
Proof.
  intros Hm Hh. apply (run_try_except P anyhow anyhow m catches handler Hm).
  - intros; exact I.
  - intros e _ _. apply Hh.
  - intros; exact I.
Qed.

Lemma emits_try_finally (m : M A) (fin : M unit) :
  emits P m -> emits P fin -> emits P (try_finally m fin).
Proof.
  intros Hm Hf.
  apply (run_try_finally P anyhow anyhow anyhow m fin Hm Hf); intros; exact I.
Qed.

Lemma emits_for_each (body : A -> M unit) (items : list A) :
  (forall x, emits P (body x)) -> emits P (for_each body items).
Proof.
  intros H. induction items as [|x rest IH]; simpl.
  - apply run_ret. exact I.
  - apply (run_bind P anyhow anyhow (body x) _ (H x)).
    + intros _ _. exact IH.
    + intros; exact I.
Qed.

End emits_rules.

(** One step of a proof that a program only issues calls that satisfy a
    predicate given as a boolean test. *)
Ltac emits_step :=
  match goal with
  | |- Run.run_spec ?P Run.anyhow ?m => change (Run.emits P m)
  | |- Run.emits _ (bind _ _) => apply emits_bind; [|intros ?]
  | |- Run.emits _ (ret _) => apply emits_ret
  | |- Run.emits _ (raise _) => apply emits_raise
  | |- Run.emits _ (sys_exit _) => apply emits_raise
  | |- Run.emits _ (call _ _) => apply emits_call; reflexivity
  | |- Run.emits _ (ask _ _) => apply emits_ask; reflexivity
  | |- Run.emits _ (get_process_list _) => apply emits_get_process_list; reflexivity
  | |- Run.emits _ (try_except _ _ _) => apply emits_try_except; [|intros ?]
  | |- Run.emits _ (try_finally _ _) => apply emits_try_finally
  | |- Run.emits _ (for_each _ _) => apply emits_for_each; intros ?
  | |- Run.emits _ (and_then _ _) => unfold and_then
  | |- Run.emits _ (with_ _ _ _) => unfold with_
  | |- Run.emits _ (mkdtemp _) => unfold mkdtemp
  | |- Run.emits _ (get_ip _) => unfold get_ip
  | |- Run.emits _ (if ?b then _ else _) => destruct b
  | |- Run.emits _ (match ?x with _ => _ end) => destruct x
  end.

Ltac emits_tac := repeat emits_step.

Section harness_facts.
Import Run.
Variable w : world.

Lemma harness_check_adb_quiet : emits no_suite_activity (Harness.check_adb w).
Proof. unfold Harness.check_adb. emits_tac. Qed.

Lemma harness_install_marionette_quiet (cfg : Harness.config) :
  emits no_suite_activity (Harness.check_marionette_installed w cfg).
Proof.
  unfold Harness.check_marionette_installed, Harness.install_marionette. emits_tac.
Qed.

Lemma harness_network_loop_quiet (n : nat) :
  forall active, emits no_suite_activity (Harness.network_loop w n active).
Proof.
  induction n as [|n IH]; intros active; simpl; emits_tac. apply IH.
Qed.

Lemma harness_check_network_quiet : emits no_suite_activity (Harness.check_network w).
Proof.
  unfold Harness.check_network. emits_tac. apply harness_network_loop_quiet.
Qed.

Lemma harness_check_server_quiet : emits no_suite_activity (Harness.check_server w).
Proof.
  unfold Harness.check_server, Harness.dump_logcat. emits_tac.
  simpl. unfold Harness.probe_port. emits_tac.
Qed.

(** A precondition either lets the loop go on or exits with status 1. *)
Lemma run_precondition_spec (precondition : M bool) :
  emits no_suite_activity precondition ->
  run_spec no_suite_activity returns_or_exits
    (Harness.run_precondition precondition).
Proof.
  intros H. unfold Harness.run_precondition.
  apply (run_bind _ returns).
  - apply (run_try_except _ anyhow _ _ _ _ H).
    + intros a _. exists a; reflexivity.
    + intros e _ _. apply run_ret. exists false; reflexivity.
    + intros e _ Hc. discriminate Hc.
  - intros [|] _; simpl.
    + apply run_ret. left. exists tt; reflexivity.
    + apply run_raise. right; reflexivity.
  - intros e [a Ha]. discriminate Ha.
Qed.

Lemma for_each_precondition_spec (checks : list (M bool)) :
  Forall (emits no_suite_activity) checks ->
  run_spec no_suite_activity returns_or_exits
    (for_each (Harness.run_precondition) checks).
Proof.
  induction 1 as [|c rest Hc _ IH]; simpl.
  - apply run_ret. left. exists tt; reflexivity.
  - apply (run_bind _ returns_or_exits).
    + apply run_precondition_spec, Hc.
    + intros _ _. exact IH.
    + intros e [[a Ha]|He]; [discriminate Ha|]. right. exact He.
Qed.

(** [check_preconditions] never returns: whatever the checks answer, it ends
    in [sys.exit(1)]. *)
Lemma check_preconditions_spec (cfg : Harness.config) :
  run_spec no_suite_activity (eq (Raise (SystemExit 1)))
    (Harness.check_preconditions w cfg).
Proof.
  unfold Harness.check_preconditions.
  apply (run_bind _ returns_or_exits).
  - apply for_each_precondition_spec.
    repeat constructor.
    + apply harness_check_adb_quiet.
    + apply harness_install_marionette_quiet.
    + apply harness_check_network_quiet.
    + apply harness_check_server_quiet.
  - intros _ _. apply run_raise. reflexivity.
  - intros e [[a Ha]|He]; [discriminate Ha|]. symmetry. exact He.
Qed.

Lemma LogManager_exit_quiet : emits no_suite_activity (Harness.LogManager_exit w).
Proof. unfold Harness.LogManager_exit. emits_tac. Qed.

(** The [with LogManager()] block always ends with an exception, and never
    reaches the suite loop. *)
Lemma logged_run_spec (tests : list string) (cfg : Harness.config) :
  run_spec no_suite_activity raises_some (Harness.logged_run w tests cfg).
Proof.
  unfold Harness.logged_run, with_.
  apply (run_bind _ anyhow).
  - unfold Harness.LogManager_enter. emits_tac.
  - intros _ _.
    apply (run_try_finally _ raises_some _ anyhow).
    + apply (run_bind _ anyhow); [emits_tac| |intros e _; exists e; reflexivity].
      intros _ _.
      apply (run_bind _ anyhow); [emits_tac| |intros e _; exists e; reflexivity].
      intros _ _.
      apply (run_bind _ (eq (Raise (SystemExit 1)))).
      * apply check_preconditions_spec.
      * intros a Ha. discriminate Ha.
      * intros e _. exists e; reflexivity.
    + apply LogManager_exit_quiet.
    + intros r Hr _. exact Hr.
    + intros e _. exists e; reflexivity.
  - intros e _. exists e; reflexivity.
Qed.

(** [run_tests] never reaches the suite loop, and never returns 0. *)
Lemma run_tests_spec (tests : list string) (cfg : Harness.config) :
  run_spec no_suite_activity fails_run (Harness.run_tests w tests cfg).
Proof.
  unfold Harness.run_tests.
  apply (run_bind _ (fun r => r = Ret true \/ exists e, r = Raise e /\ is_exception e = false)).
  - apply (run_try_except _ raises_some _ _ _ _ (logged_run_spec tests cfg)).
    + intros a [e He]. discriminate He.
    + intros e _ _. apply run_ret. left; reflexivity.
    + intros e _ He. right. exists e. auto.
  - intros a [Ha|(e & He & _)]; [|discriminate He].
    injection Ha as ->. apply run_ret. left; reflexivity.
  - intros e [He|(e' & He & Hx)]; [discriminate He|].
    injection He as ->. right. exists e'. auto.
Qed.

End harness_facts.

(** ** [run_tests] and [check_preconditions] of harness.py *)

Lemma Forall_not_in (P : event -> Prop) (ext : list event) (e : event) :
  Forall P ext -> ~ P e -> ~ In e ext.
Proof.
  intros H Hn Hin. rewrite Forall_forall in H. apply Hn, H, Hin.
Qed.

Lemma no_suite_activity_not_in (ext : list event) (e : event) :
  Forall Run.no_suite_activity ext -> Run.suite_activity e = true -> ~ In e ext.
Proof.
  intros H He. apply (Forall_not_in _ _ _ H).
  unfold Run.no_suite_activity. rewrite He. discriminate.
Qed.

(** C1.  Code: [check_preconditions] of harness.py ends in [sys.exit(1)] on
    every path, also when the four checks pass; [run_tests] therefore never
    returns 0, and the run in which every call succeeds and every check
    passes exits with status 1. *)
Theorem check_preconditions_never_returns
    (w : world) (cfg : Harness.config) (tests : list string) (tr : trace) :
  snd (Harness.check_preconditions w cfg tr) = Raise (SystemExit 1) /\
  snd (Harness.run_tests w tests cfg tr) <> Ret 0%Z /\
  exit_code (snd (Harness.run_tests Scenario.quiet [] Scenario.two_suites [])) = 1%Z.
Proof.
  split; [|split].
  - destruct (check_preconditions_spec w cfg tr) as (_ & _ & _ & H).
    symmetry. exact H.
  - destruct (run_tests_spec w tests cfg tr) as (_ & _ & _ & [H|(e & H & _)]);
      rewrite H; discriminate.
  - reflexivity.
Qed.

(** C2.  Code: no run of [run_tests] runs a suite or restores the device,
    because [check_preconditions] has left before the loop; with two suites
    of which the first would raise, the run ends in [SystemExit(1)]. *)
Theorem run_tests_runs_no_suite
    (w : world) (cfg : Harness.config) (tests : list string) (tr : trace) :
  (exists ext,
     fst (Harness.run_tests w tests cfg tr) = tr ++ ext /\
     (forall suite groups, ~ In (RunSuite suite groups) ext) /\
     ~ In Remount ext /\ (forall wait, ~ In (DmReboot wait) ext)) /\
  snd (Harness.run_tests Scenario.suiteA_raises ["suiteA"; "suiteB"]
         Scenario.two_suites []) = Raise (SystemExit 1).
Proof.
  split; [|reflexivity].
  destruct (run_tests_spec w tests cfg tr) as (ext & E & F & _).
  exists ext. split; [exact E|].
  repeat split; intros; apply no_suite_activity_not_in; auto.
Qed.

(** C3.  Code: no run of [run_tests] creates or deletes the staging directory
    of the snapshot; the run in which every call succeeds closes the zip file
    once, writes the summary once, and calls [rmtree] not once. *)
Theorem run_tests_takes_no_snapshot
    (w : world) (cfg : Harness.config) (tests : list string) (tr : trace) :
  (exists ext,
     fst (Harness.run_tests w tests cfg tr) = tr ++ ext /\
     ~ In Mkdtemp ext /\ (forall path, ~ In (Rmtree path) ext)) /\
  (let run := fst (Harness.run_tests Scenario.quiet [] Scenario.two_suites []) in
   List.length (filter (fun e => match e with ZipClose => true | _ => false end) run) = 1%nat /\
   List.length (filter (fun e => match e with AddSummaryReport => true | _ => false end) run) = 1%nat /\
   List.length (filter (fun e => match e with Rmtree _ => true | _ => false end) run) = 0%nat).
Proof.
  split; [|repeat split].
  destruct (run_tests_spec w tests cfg tr) as (ext & E & F & _).
  exists ext. split; [exact E|].
  repeat split; intros; apply no_suite_activity_not_in; auto.
Qed.

(** The loop over the suites, taken alone: when suiteA raises, the device is
    restored, suiteB is run, the device is restored again, the staging
    directory is removed once, and [error] is true. *)
Example suite_phase_after_a_failure :
  Harness.suite_phase Scenario.suiteA_raises ["suiteA"; "suiteB"] Scenario.two_suites [] =
  ([NewDeviceManager; Mkdtemp;
    PathExists "/tmp/tmpXk3/data/local";
    GetDirectory "/data/local" "/tmp/tmpXk3/data/local";
    PathExists "/tmp/tmpXk3/data/b2g/mozilla";
    GetDirectory "/data/b2g/mozilla" "/tmp/tmpXk3/data/b2g/mozilla";
    PathExists "/tmp/tmpXk3/system/etc";
    GetFile "/system/etc/hosts" "/tmp/tmpXk3/system/etc/hosts";
    RunSuite "suiteA" []]
   ++ Plan.harness_restore "/tmp/tmpXk3"
   ++ [RunSuite "suiteB" []]
   ++ Plan.harness_restore "/tmp/tmpXk3"
   ++ [Rmtree "/tmp/tmpXk3"],
   Ret true).
Proof. reflexivity. Qed.

(** The same block when the reboot of the first restore is interrupted from
    the keyboard: the interrupt leaves the loop, and the staging directory is
    still removed, once. *)
Example suite_phase_interrupted :
  Harness.suite_phase Scenario.interrupted_restore ["suiteA"; "suiteB"]
    Scenario.two_suites [] =
  ([NewDeviceManager; Mkdtemp;
    PathExists "/tmp/tmpXk3/data/local";
    GetDirectory "/data/local" "/tmp/tmpXk3/data/local";
    PathExists "/tmp/tmpXk3/data/b2g/mozilla";
    GetDirectory "/data/b2g/mozilla" "/tmp/tmpXk3/data/b2g/mozilla";
    PathExists "/tmp/tmpXk3/system/etc";
    GetFile "/system/etc/hosts" "/tmp/tmpXk3/system/etc/hosts";
    RunSuite "suiteA" []]
   ++ Plan.harness_restore "/tmp/tmpXk3"
   ++ [Rmtree "/tmp/tmpXk3"],
   Raise KeyboardInterrupt).
Proof. reflexivity. Qed.

(** X15.  [LogManager.__exit__] closes the zip file as its last call, once,
    whichever of its calls raise. *)
Lemma LogManager_exit_closes_once (w : world) (tr : trace) :
  exists ext,
    fst (Harness.LogManager_exit w tr) = tr ++ ext /\
    last ext ZipOpen = ZipClose /\
    List.length
      (filter (fun e => match e with ZipClose => true | _ => false end) ext)
    = 1%nat.
Proof.
  unfold Harness.LogManager_exit, try_finally, bind, call. cbv beta iota.
  destruct (raises w (List.length tr) StructuredClose);
    [|destruct (raises w (List.length (tr ++ [StructuredClose])) ZipWriteLog)];
    cbv beta iota;
    repeat match goal with
           | |- context [match raises w ?n ?e with _ => _ end] =>
               destruct (raises w n e); cbv beta iota
           end;
    cbn [fst]; rewrite <- ?app_assoc; cbn [app];
    eexists; (split; [reflexivity|]); split; reflexivity.
Qed.

Section suite_loop_alone.
Variable w : world.
Hypothesis Honly : Run.only_suites_fail w.

Lemma harness_restore_goes_through (backup_path : string) (tr : trace) :
  Harness.restore w backup_path tr = (tr ++ Plan.harness_restore backup_path, Ret tt).
Proof.
  unfold Harness.restore, Harness.backup_files, Harness.backup_dirs.
  cbn [for_each]. unfold Harness.restore_file, Harness.restore_dir.
  cbn [Str.rsplit1 Ascii.eqb Bool.eqb]. unfold bind, ret, call. cbv beta iota.
  repeat (rewrite Honly by reflexivity; cbv beta iota).
  rewrite <- !app_assoc. reflexivity.
Qed.

Lemma run_one_spec (backup_path : string) (error : bool)
    (item : string * list string) (tr : trace) :
  Harness.run_one w backup_path error item tr
  = (tr ++ RunSuite (fst item) (snd item) :: Plan.harness_restore backup_path,
     Ret (match raises w (List.length tr) (RunSuite (fst item) (snd item)) with
          | Some _ => true
          | None => error
          end)).
Proof.
  unfold Harness.run_one, try_finally, try_except, bind, call, ret. cbv beta iota.
  destruct (raises w (List.length tr) (RunSuite (fst item) (snd item)));
    cbv beta iota; cbn [anything];
    rewrite harness_restore_goes_through, <- app_assoc; reflexivity.
Qed.

(** X17.  The loop over the suites, taken alone: every suite is run and followed by
    a restore, whether or not it raises, and the loop yields [error] as true
    when it was already or when the first suite raises. *)
Lemma suite_loop_goes_on (backup_path : string)
    (items : list (string * list string)) :
  forall error tr,
    exists error',
      Harness.suite_loop w backup_path error items tr
      = (tr ++ Plan.suite_loop_calls backup_path items, Ret error') /\
      (error = true -> error' = true) /\
      (forall item rest x,
         items = item :: rest ->
         raises w (List.length tr) (RunSuite (fst item) (snd item)) = Some x ->
         error' = true).
Proof.
  induction items as [|item rest IH]; intros error tr.
  - exists error. simpl. unfold ret. rewrite app_nil_r.
    repeat split; auto. intros item rest x H. discriminate H.
  - cbn [Harness.suite_loop]. unfold bind. rewrite run_one_spec.
    destruct (IH (match raises w (List.length tr) (RunSuite (fst item) (snd item)) with
                  | Some _ => true
                  | None => error
                  end)
                (tr ++ RunSuite (fst item) (snd item)
                    :: Plan.harness_restore backup_path))
      as (error' & E & Hmono & _).
    exists error'. rewrite E. split; [|split].
    + unfold Plan.suite_loop_calls. cbn [flat_map].
      rewrite <- app_assoc. reflexivity.
    + intros ->. apply Hmono.
      destruct (raises w (List.length tr) (RunSuite (fst item) (snd item)));
        reflexivity.
    + intros item' rest' x H Hx. injection H as <- <-.
      apply Hmono. rewrite Hx. reflexivity.
Qed.

End suite_loop_alone.

Lemma suite_loop_keeps_staging (w : world) (backup_path : string)
    (items : list (string * list string)) :
  forall error,
    Run.emits (fun e => Run.is_rmtree e = false)
      (Harness.suite_loop w backup_path error items).
Proof.
  induction items as [|item rest IH]; intros error; simpl.
  - apply emits_ret.
  - apply emits_bind; [|intros error'; apply IH].
    unfold Harness.run_one, Harness.restore, Harness.restore_file,
      Harness.restore_dir.
    emits_tac.
Qed.

(** X16.  The [with DeviceBackup()] block, once entered, removes the staging
    directory as its last call, once, however the loop over the suites
    ends. *)
Lemma suite_phase_removes_staging_once
    (w : world) (tests : list string) (cfg : Harness.config)
    (tr tr1 : trace) (backup_path : string) :
  Harness.DeviceBackup_enter w tr = (tr1, Ret backup_path) ->
  exists body,
    fst (Harness.suite_phase w tests cfg tr)
    = tr1 ++ body ++ [Rmtree backup_path] /\
    Forall (fun e => Run.is_rmtree e = false) body.
Proof.
  intros H. unfold Harness.suite_phase, with_, bind. rewrite H.
  unfold try_finally.
  destruct (suite_loop_keeps_staging w backup_path
              (Harness.iter_suites tests cfg) false tr1) as (ext & E & F & _).
  destruct (Harness.suite_loop w backup_path false
              (Harness.iter_suites tests cfg) tr1) as [tr2 r].
  simpl in E. subst tr2. exists ext. split; [|exact F].
  unfold Harness.DeviceBackup_exit, call.
  destruct (raises w (List.length (tr1 ++ ext)) (Rmtree backup_path));
    simpl; rewrite app_assoc; reflexivity.
Qed.

Section follows_rules.
Import Run.
Variable w : world.

Lemma follows_call (e : event) : follows [e] (call w e).
Proof.
  intros tr. exists [e]. unfold call; simpl. split; [reflexivity|].
  destruct (raises w (List.length tr) e) as [x|].
  - right. split; [exists x; reflexivity | exists []; reflexivity].
  - left. auto.
Qed.

Lemma follows_ret : follows [] (ret tt).
Proof.
  intros tr. exists []. simpl. rewrite app_nil_r. auto.
Qed.

Lemma follows_raise (x : exn) : follows [] (raise x).
Proof.
  intros tr. exists []. simpl. rewrite app_nil_r. split; [reflexivity|].
  right. split; [exists x; reflexivity | exists []; reflexivity].
Qed.

Lemma follows_seq (p1 p2 : list event) (m k : M unit) :
  follows p1 m -> follows p2 k -> follows (p1 ++ p2) (m ;; k).
Proof.
  intros Hm Hk tr. unfold bind.
  destruct (Hm tr) as (ext & E & H).
  destruct (m tr) as [tr' r]; simpl in *; subst tr'.
  destruct H as [[-> ->]|[[x ->] [rest ->]]].
  - destruct (Hk (tr ++ p1)) as (ext' & E' & H').
    exists (p1 ++ ext'). rewrite E', app_assoc. split; [reflexivity|].
    destruct H' as [[R ->]|[R [rest ->]]]; [left; auto|right].
    split; [exact R|]. exists rest. rewrite app_assoc. reflexivity.
  - exists ext. simpl. split; [reflexivity|]. right.
    split; [exists x; reflexivity|]. exists (rest ++ p2).
    rewrite app_assoc. reflexivity.
Qed.

Lemma follows_for_each {A : Type} (steps : A -> list event) (body : A -> M unit)
    (items : list A) :
  (forall x, follows (steps x) (body x)) ->
  follows (flat_map steps items) (for_each body items).
Proof.
  intros H. induction items as [|x rest IH]; simpl.
  - apply follows_ret.
  - apply follows_seq; auto.
Qed.

(** What a run that follows a plan has issued. *)
Lemma follows_prefix (plan : list event) (m : M unit) (tr : trace) :
  follows plan m ->
  exists ext, fst (m tr) = tr ++ ext /\ is_prefix ext plan /\
              (snd (m tr) = Ret tt -> ext = plan).
Proof.
  intros H. destruct (H tr) as (ext & E & [[R ->]|[[x R] Hp]]).
  - exists plan. repeat split; auto. exists []. rewrite app_nil_r; reflexivity.
  - exists ext. repeat split; auto. rewrite R. discriminate.
Qed.

Lemma harness_restore_follows (backup_path : string) :
  follows (Plan.harness_restore backup_path) (Harness.restore w backup_path).
Proof.
  unfold Plan.harness_restore, Plan.harness_pushes, Harness.restore.
  rewrite <- !app_assoc.
  apply follows_seq; [apply follows_call|].
  apply follows_seq.
  - apply follows_for_each. intros x.
    unfold Plan.harness_file, Harness.restore_file.
    destruct (Str.rsplit1 "/"%char x) as [[d f]|]; [|apply follows_raise].
    apply (follows_seq [_] [_]); apply follows_call.
  - apply follows_seq; [|apply follows_call].
    apply follows_for_each. intros x.
    apply (follows_seq [_] [_]); apply follows_call.
Qed.

Lemma adb_restore_follows (dirs files : list string) (backup_path : string) :
  follows (Plan.adb_restore dirs files backup_path)
    (Adb.restore w dirs files backup_path).
Proof.
  unfold Plan.adb_restore, Adb.restore.
  apply follows_seq; [apply follows_call|].
  apply follows_seq.
  - apply follows_for_each. intros x.
    unfold Plan.adb_file, Adb.restore_file.
    destruct (Str.rsplit1 "/"%char x) as [[d f]|]; [|apply follows_raise].
    apply (follows_seq [_] [_]); apply follows_call.
  - apply follows_for_each. intros x.
    apply (follows_seq [_] [_]); apply follows_call.
Qed.

End follows_rules.

Section calm_rules.
Import Run.
Variable w : world.
Hypothesis Hcalm : calm w.

Lemma calm_call (e : event) : run_spec any_event (eq (Ret tt)) (call w e).
Proof. apply run_call_calm; [exact Hcalm | exact I]. Qed.

Lemma calm_seq (m k : M unit) :
  run_spec any_event (eq (Ret tt)) m -> run_spec any_event (eq (Ret tt)) k ->
  run_spec any_event (eq (Ret tt)) (m ;; k).
Proof.
  intros Hm Hk. apply (run_bind _ (eq (Ret tt))); auto;
    intros e He; discriminate He.
Qed.

Lemma calm_for_each {A : Type} (good : A -> Prop) (body : A -> M unit)
    (items : list A) :
  (forall x, good x -> run_spec any_event (eq (Ret tt)) (body x)) ->
  Forall good items ->
  run_spec any_event (eq (Ret tt)) (for_each body items).
Proof.
  intros H. induction 1 as [|x rest Hx _ IH]; simpl.
  - apply run_ret. reflexivity.
  - apply calm_seq; auto.
Qed.

Lemma harness_restore_calm (backup_path : string) (tr : trace) :
  snd (Harness.restore w backup_path tr) = Ret tt.
Proof.
  assert (H : run_spec any_event (eq (Ret tt)) (Harness.restore w backup_path)).
  { unfold Harness.restore.
    apply calm_seq; [apply calm_call|].
    apply calm_seq; [|apply calm_seq; [|apply calm_call]].
    - apply (calm_for_each (fun f => In f Harness.backup_files)).
      + intros x [<-|[]]. cbn. apply calm_seq; apply calm_call.
      + apply Forall_forall. auto.
    - apply (calm_for_each (fun _ => True)).
      + intros x _. apply calm_seq; apply calm_call.
      + apply Forall_forall. auto. }
  destruct (H tr) as (_ & _ & _ & R). symmetry. exact R.
Qed.

Lemma adb_restore_calm (dirs files : list string) (backup_path : string) (tr : trace) :
  Forall Plan.has_slash files ->
  snd (Adb.restore w dirs files backup_path tr) = Ret tt.
Proof.
  intros Hs.
  assert (H : run_spec any_event (eq (Ret tt)) (Adb.restore w dirs files backup_path)).
  { unfold Adb.restore.
    apply calm_seq; [apply calm_call|]. apply calm_seq.
    - apply (calm_for_each Plan.has_slash); [|exact Hs].
      intros x Hx. unfold Adb.restore_file, Plan.has_slash in *.
      destruct (Str.rsplit1 "/"%char x) as [[d f]|]; [|congruence].
      apply calm_seq; apply calm_call.
    - apply (calm_for_each (fun _ => True)).
      + intros x _. apply calm_seq; apply calm_call.
      + apply Forall_forall. auto. }
  destruct (H tr) as (_ & _ & _ & R). symmetry. exact R.
Qed.

End calm_rules.

(** C8.  In both modules the calls of [restore] are, in order, an initial
    part of: the remount, then for each backed-up file the removal of the
    live copy and the push of the staged copy, then for each backed-up
    directory the recursive removal and the push of the staged tree (and, in
    harness.py, the reboot).  They are all of these when [restore] returns,
    and it returns when no call fails (and, in adb_device_interface.py, every
    file path has a slash). *)
Theorem restore_files_before_directories
    (w : world) (dirs files : list string) (backup_path : string) (tr : trace) :
  (exists ext,
     fst (Harness.restore w backup_path tr) = tr ++ ext /\
     Run.is_prefix ext
       ([Remount]
        ++ flat_map (Plan.harness_file backup_path) Harness.backup_files
        ++ flat_map (Plan.harness_dir backup_path) Harness.backup_dirs
        ++ [DmReboot true]) /\
     (snd (Harness.restore w backup_path tr) = Ret tt ->
      ext = [Remount]
            ++ flat_map (Plan.harness_file backup_path) Harness.backup_files
            ++ flat_map (Plan.harness_dir backup_path) Harness.backup_dirs
            ++ [DmReboot true])) /\
  (Run.calm w -> snd (Harness.restore w backup_path tr) = Ret tt) /\
  (exists ext,
     fst (Adb.restore w dirs files backup_path tr) = tr ++ ext /\
     Run.is_prefix ext
       ([Remount]
        ++ flat_map (Plan.adb_file backup_path) files
        ++ flat_map (Plan.adb_dir backup_path) dirs) /\
     (snd (Adb.restore w dirs files backup_path tr) = Ret tt ->
      ext = [Remount]
            ++ flat_map (Plan.adb_file backup_path) files
            ++ flat_map (Plan.adb_dir backup_path) dirs)) /\
  (Run.calm w -> Forall Plan.has_slash files ->
   snd (Adb.restore w dirs files backup_path tr) = Ret tt).
Proof.
  split; [|split; [|split]].
  - destruct (follows_prefix _ _ tr (harness_restore_follows w backup_path))
      as (ext & E & Hp & Hr).
    exists ext. unfold Plan.harness_restore, Plan.harness_pushes in *.
    rewrite <- !app_assoc in *. auto.
  - intros Hc. apply harness_restore_calm, Hc.
  - destruct (follows_prefix _ _ tr (adb_restore_follows w dirs files backup_path))
      as (ext & E & Hp & Hr).
    exists ext. auto.
  - intros Hc Hs. apply adb_restore_calm; assumption.
Qed.

Lemma restore_files_before_directories_witness :
  snd (Harness.restore Scenario.quiet "/tmp/b" []) = Ret tt /\
  snd (Adb.restore Scenario.quiet ["/data/local"] ["/system/etc/hosts"] "/tmp/b" [])
  = Ret tt.
Proof.
  destruct (restore_files_before_directories Scenario.quiet
              ["/data/local"] ["/system/etc/hosts"] "/tmp/b" [])
    as (_ & Hh & _ & Ha).
  split.
  - apply Hh. intros n e. reflexivity.
  - apply Ha.
    + intros n e. reflexivity.
    + constructor; [|constructor]. unfold Plan.has_slash. simpl. discriminate.
Defined.

(** C10.  [restore] of harness.py, when it returns, has issued exactly the
    remount, removals and pushes followed by [reboot(wait=True)] as its last
    call, and it does so whenever no call fails; none of the calls before
    the last is a reboot.  [restore] of adb_device_interface.py never issues
    a reboot. *)
Theorem harness_restore_ends_with_reboot
    (w : world) (dirs files : list string) (backup_path : string) (tr : trace) :
  (snd (Harness.restore w backup_path tr) = Ret tt ->
   fst (Harness.restore w backup_path tr)
   = tr ++ Plan.harness_pushes backup_path ++ [DmReboot true]) /\
  (Run.calm w ->
   Harness.restore w backup_path tr
   = (tr ++ Plan.harness_pushes backup_path ++ [DmReboot true], Ret tt)) /\
  Forall (fun e => Run.is_reboot e = false) (Plan.harness_pushes backup_path) /\
  (exists ext,
     fst (Adb.restore w dirs files backup_path tr) = tr ++ ext /\
     Forall (fun e => Run.is_reboot e = false) ext).
Proof.
  assert (Hret : snd (Harness.restore w backup_path tr) = Ret tt ->
                 fst (Harness.restore w backup_path tr)
                 = tr ++ Plan.harness_pushes backup_path ++ [DmReboot true]).
  { intros R.
    destruct (follows_prefix _ _ tr (harness_restore_follows w backup_path))
      as (ext & E & _ & Hr).
    rewrite E, (Hr R). reflexivity. }
  split; [exact Hret|]. split; [|split].
  - intros Hc. pose proof (harness_restore_calm w Hc backup_path tr) as R.
    specialize (Hret R).
    destruct (Harness.restore w backup_path tr) as [tr' r].
    simpl in R, Hret. rewrite R, Hret. reflexivity.
  - unfold Plan.harness_pushes. cbn. repeat constructor.
  - assert (H : Run.emits (fun e => Run.is_reboot e = false)
                  (Adb.restore w dirs files backup_path)).
    { unfold Adb.restore, Adb.restore_file, Adb.restore_dir. emits_tac. }
    destruct (H tr) as (ext & E & F & _). exists ext. auto.
Qed.

Lemma harness_restore_ends_with_reboot_witness :
  Harness.restore Scenario.quiet "/tmp/b" []
  = ([] ++ Plan.harness_pushes "/tmp/b" ++ [DmReboot true], Ret tt).
Proof.
  destruct (harness_restore_ends_with_reboot Scenario.quiet [] [] "/tmp/b" [])
    as (_ & H & _).
  apply H. intros n e. reflexivity.
Defined.

(** ** The precondition pipelines *)

Section call_facts.
Variable w : world.

Lemma call_ok (e : event) (tr : trace) :
  raises w (List.length tr) e = None -> call w e tr = (tr ++ [e], Ret tt).
Proof. intros H. unfold call. rewrite H. reflexivity. Qed.

Lemma call_fails (e : event) (x : exn) (tr : trace) :
  raises w (List.length tr) e = Some x -> call w e tr = (tr ++ [e], Raise x).
Proof. intros H. unfold call. rewrite H. reflexivity. Qed.

End call_facts.

(** Side conditions of [call_ok] and [call_fails]: the position of a call. *)
Ltac position_eq := f_equal; rewrite ?length_app; simpl; lia.

Ltac nth_call_succeeds H :=
  first
    [ rewrite <- (H 0%nat _ eq_refl); position_eq
    | rewrite <- (H 1%nat _ eq_refl); position_eq
    | rewrite <- (H 2%nat _ eq_refl); position_eq
    | rewrite <- (H 3%nat _ eq_refl); position_eq
    | rewrite <- (H 4%nat _ eq_refl); position_eq
    | rewrite <- (H 5%nat _ eq_refl); position_eq
    | rewrite <- (H 6%nat _ eq_refl); position_eq ].

Ltac this_call_fails H := rewrite <- H; position_eq.

(** ** The probes of [check_server] *)

Section probes.
Variable w : world.

Lemma calls_succeed_cons (n : nat) (e : event) (plan : list event) :
  raises w n e = None -> Run.calls_succeed w (S n) plan ->
  Run.calls_succeed w n (e :: plan).
Proof.
  intros He Hp i x H. destruct i as [|i]; simpl in H.
  - injection H as <-. rewrite Nat.add_0_r. exact He.
  - replace (n + S i)%nat with (S n + i)%nat by lia. apply Hp. exact H.
Qed.

Lemma calls_succeed_nil (n : nat) : Run.calls_succeed w n [].
Proof. intros i x H. destruct i; discriminate H. Qed.

Lemma calls_succeed_app (n : nat) (a b : list event) :
  Run.calls_succeed w n a -> Run.calls_succeed w (n + List.length a) b ->
  Run.calls_succeed w n (a ++ b).
Proof.
  intros Ha Hb i x H. destruct (Nat.lt_ge_cases i (List.length a)) as [Hlt|Hge].
  - rewrite nth_error_app1 in H by exact Hlt. apply Ha. exact H.
  - rewrite nth_error_app2 in H by exact Hge.
    replace (n + i)%nat with (n + List.length a + (i - List.length a))%nat by lia.
    apply Hb. exact H.
Qed.

Lemma second_start_not_in (ext : trace) :
  Forall Probe.no_second_start ext -> ~ In (ServerStart 8001) ext.
Proof.
  intros H Hin. rewrite Forall_forall in H. specialize (H _ Hin). discriminate H.
Qed.

(** Positions along a trace. *)
Ltac at_position :=
  match goal with
  | H : raises w _ ?c = None |- raises w _ ?c = None =>
      rewrite <- H; f_equal; rewrite ?length_app; simpl; lia
  end.

Ltac these_calls_succeed :=
  repeat (apply calls_succeed_cons; [at_position|]); apply calls_succeed_nil.

(** *** One port *)

Lemma adb_probe_port_next (host : string) (port : Z) (tr tr' : trace) :
  Adb.probe_port w host port tr = (tr', Ret Adb.Next) ->
  tr' = tr ++ Probe.fetched host port /\
  Run.calls_succeed w (List.length tr) (Probe.fetched host port).
Proof.
  unfold Adb.probe_port, bind, try_except, try_finally, ret, call.
  cbv beta iota.
  destruct (raises w (List.length tr) (ServerStart port)) eqn:Hs; cbn;
    [discriminate|].
  destruct (raises w (List.length (tr ++ [ServerStart port])) (Curl host port))
    as [x|] eqn:Hc; cbn.
  - destruct (is_instance ADBError x); cbn.
    + destruct (Str.contains "curl: not found" (Adb.exn_message x)); cbn;
        destruct (raises w _ (ServerStop port)); cbn; discriminate.
    + destruct (raises w _ (ServerStop port)); cbn; discriminate.
  - destruct (raises w _ (ServerStop port)) eqn:Hp; cbn; [discriminate|].
    intros H. injection H as <-. rewrite <- !app_assoc. split; [reflexivity|].
    unfold Probe.fetched. these_calls_succeed.
Qed.

Lemma harness_probe_port_next (host : string) (port : Z) (tr tr' : trace) :
  Harness.probe_port w host port tr = (tr', Ret None) ->
  tr' = tr ++ Probe.served host port /\
  Run.calls_succeed w (List.length tr) (Probe.served host port).
Proof.
  unfold Harness.probe_port, bind, try_except, try_finally, ret, call.
  cbv beta iota.
  destruct (raises w (List.length tr) (ServerStart port)) eqn:Hs; cbn;
    [discriminate|].
  destruct (raises w (List.length (tr ++ [ServerStart port])) (Navigate host port))
    eqn:Hn; cbn.
  - destruct (raises w _ GoBack); cbn; [discriminate|].
    destruct (raises w _ (ServerStop port)); cbn; discriminate.
  - destruct (raises w _ GoBack) eqn:Hg; cbn; [discriminate|].
    destruct (raises w _ (ServerStop port)) eqn:Hp; cbn; [discriminate|].
    intros H. injection H as <-. rewrite <- !app_assoc. split; [reflexivity|].
    unfold Probe.served. these_calls_succeed.
Qed.

Lemma harness_probe_port_answers (host : string) (port : Z) (tr tr' : trace)
    (b : bool) :
  Harness.probe_port w host port tr = (tr', Ret (Some b)) -> b = false.
Proof.
  unfold Harness.probe_port, bind, try_except, try_finally, ret, call.
  cbv beta iota.
  destruct (raises w (List.length tr) (ServerStart port)); cbn;
    [intros H; injection H as _ <-; reflexivity|].
  destruct (raises w (List.length (tr ++ [ServerStart port])) (Navigate host port));
    cbn; destruct (raises w _ GoBack); cbn; try discriminate;
    destruct (raises w _ (ServerStop port)); cbn; try discriminate.
  intros H; injection H as _ <-; reflexivity.
Qed.

Lemma adb_probe_port_first_only (host : string) :
  Run.emits Probe.no_second_start (Adb.probe_port w host 8000).
Proof. unfold Adb.probe_port. emits_tac. Qed.

Lemma harness_probe_port_first_only (host : string) :
  Run.emits Probe.no_second_start (Harness.probe_port w host 8000).
Proof. unfold Harness.probe_port. emits_tac. Qed.

Lemma adb_probe_port_starts (host : string) (port : Z) (tr : trace) :
  exists rest, fst (Adb.probe_port w host port tr) = tr ++ ServerStart port :: rest.
Proof.
  unfold Adb.probe_port, bind, try_except, try_finally, ret, call.
  cbv beta iota.
  destruct (raises w (List.length tr) (ServerStart port)); cbn;
    [exists []; reflexivity|].
  destruct (raises w (List.length (tr ++ [ServerStart port])) (Curl host port))
    as [x|]; cbn;
    [destruct (is_instance ADBError x); cbn;
     [destruct (Str.contains "curl: not found" (Adb.exn_message x)); cbn|]|];
    destruct (raises w _ (ServerStop port)); cbn;
    rewrite <- !app_assoc; eexists; reflexivity.
Qed.

Lemma harness_probe_port_starts (host : string) (port : Z) (tr : trace) :
  exists rest,
    fst (Harness.probe_port w host port tr) = tr ++ ServerStart port :: rest.
Proof.
  unfold Harness.probe_port, bind, try_except, try_finally, ret, call.
  cbv beta iota.
  destruct (raises w (List.length tr) (ServerStart port)); cbn;
    [exists []; reflexivity|].
  destruct (raises w (List.length (tr ++ [ServerStart port])) (Navigate host port));
    cbn; (destruct (raises w _ GoBack); cbn;
          [|destruct (raises w _ (ServerStop port)); cbn]);
    rewrite <- !app_assoc; eexists; reflexivity.
Qed.

(** *** Both ports *)

Lemma adb_probe_ports_cases (host : string) (tr : trace) :
  (exists ext,
     fst (Adb.probe_ports w host [8000; 8001] tr) = tr ++ ext /\
     Forall Probe.no_second_start ext) \/
  (Run.calls_succeed w (List.length tr) (Probe.fetched host 8000) /\
   exists rest,
     fst (Adb.probe_ports w host [8000; 8001] tr)
     = tr ++ Probe.fetched host 8000 ++ ServerStart 8001 :: rest).
Proof.
  cbn [Adb.probe_ports]. unfold bind.
  destruct (adb_probe_port_first_only host tr) as (ext & E & F & _).
  destruct (Adb.probe_port w host 8000 tr) as [t r] eqn:Ep. simpl in E.
  destruct r as [[| |b]|e]; try (left; exists ext; split; [exact E | exact F]).
  destruct (adb_probe_port_next _ _ _ _ Ep) as [-> Hc].
  right. split; [exact Hc|].
  destruct (adb_probe_port_starts host 8001 (tr ++ Probe.fetched host 8000))
    as (rest & Er).
  exists rest. cbv beta iota.
  destruct (Adb.probe_port w host 8001 (tr ++ Probe.fetched host 8000))
    as [t' [[| |b]|e]]; simpl in Er; subst t'; unfold ret; simpl fst;
    rewrite <- app_assoc; reflexivity.
Qed.

Lemma harness_probe_ports_cases (host : string) (tr : trace) :
  (exists ext,
     fst (Harness.probe_ports w host [8000; 8001] tr) = tr ++ ext /\
     Forall Probe.no_second_start ext) \/
  (Run.calls_succeed w (List.length tr) (Probe.served host 8000) /\
   exists rest,
     fst (Harness.probe_ports w host [8000; 8001] tr)
     = tr ++ Probe.served host 8000 ++ ServerStart 8001 :: rest).
Proof.
  cbn [Harness.probe_ports]. unfold bind.
  destruct (harness_probe_port_first_only host tr) as (ext & E & F & _).
  destruct (Harness.probe_port w host 8000 tr) as [t r] eqn:Ep. simpl in E.
  destruct r as [[b|]|e]; try (left; exists ext; split; [exact E | exact F]).
  destruct (harness_probe_port_next _ _ _ _ Ep) as [-> Hc].
  right. split; [exact Hc|].
  destruct (harness_probe_port_starts host 8001 (tr ++ Probe.served host 8000))
    as (rest & Er).
  exists rest. cbv beta iota.
  destruct (Harness.probe_port w host 8001 (tr ++ Probe.served host 8000))
    as [t' [[b|]|e]]; simpl in Er; subst t'; unfold ret; simpl fst;
    rewrite <- app_assoc; reflexivity.
Qed.

Lemma harness_probe_ports_pass (host : string) (ports : list Z) :
  forall tr tr',
    Harness.probe_ports w host ports tr = (tr', Ret true) ->
    tr' = tr ++ flat_map (Probe.served host) ports /\
    Run.calls_succeed w (List.length tr) (flat_map (Probe.served host) ports).
Proof.
  induction ports as [|port ports IH]; intros tr tr'; cbn [Harness.probe_ports flat_map].
  - unfold ret. intros H. injection H as <-. rewrite app_nil_r.
    split; [reflexivity | apply calls_succeed_nil].
  - unfold bind at 1.
    destruct (Harness.probe_port w host port tr) as [t r] eqn:E.
    destruct r as [[b|]|e]; [| |discriminate].
    + unfold ret. intros H. injection H as _ ->.
      apply harness_probe_port_answers in E. discriminate E.
    + intros H. destruct (harness_probe_port_next _ _ _ _ E) as [-> Hc].
      destruct (IH _ _ H) as [-> Hrest]. rewrite <- app_assoc.
      split; [reflexivity|].
      apply calls_succeed_app; [exact Hc|].
      rewrite length_app in Hrest. exact Hrest.
Qed.

(** *** The calls of [check_server] before the ports *)

Lemma harness_check_server_prelude (tr : trace) :
  (exists ext r,
     Harness.check_server w tr = (tr ++ ext, r) /\
     Forall Probe.no_second_start ext /\ r <> Ret true) \/
  (Run.calls_succeed w (List.length tr) Probe.session_calls /\
   Harness.check_server w tr
   = Harness.probe_ports w (host_ip w) [8000; 8001] (tr ++ Probe.session_calls)).
Proof.
  unfold Harness.check_server.
  unfold bind, try_except, Harness.dump_logcat, get_ip, ret, call. cbv beta iota.
  repeat match goal with
         | |- context [raises w ?n ?e] => destruct (raises w n e) eqn:?; cbn
         | |- context [is_instance ?c ?e] => destruct (is_instance c e) eqn:?; cbn
         end;
    first
      [ right; split;
        [ unfold Probe.session_calls; these_calls_succeed
        | rewrite <- !app_assoc; reflexivity ]
      | left; rewrite <- ?app_assoc; eexists; eexists;
        split; [reflexivity | split; [repeat constructor | discriminate]] ].
Qed.

Lemma adb_second_port_after_first (tr ext : trace) :
  fst (Adb.check_server w tr) = tr ++ ext ->
  In (ServerStart 8001) ext ->
  Run.calls_succeed w (List.length tr) (GetIp :: Probe.fetched (host_ip w) 8000) /\
  exists rest,
    ext = GetIp :: Probe.fetched (host_ip w) 8000 ++ ServerStart 8001 :: rest.
Proof.
  unfold Adb.check_server, get_ip, bind, call, ret.
  destruct (raises w (List.length tr) GetIp) eqn:Hip.
  - simpl. intros H Hin. apply app_inv_head in H. subst ext.
    destruct Hin as [Hin|[]]. discriminate Hin.
  - destruct (adb_probe_ports_cases (host_ip w) (tr ++ [GetIp]))
      as [(e1 & E & F) | (Hc & rest & E)];
      rewrite E, <- app_assoc; intros H Hin; apply app_inv_head in H; subst ext.
    + exfalso. destruct Hin as [Hin|Hin]; [discriminate Hin|].
      exact (second_start_not_in _ F Hin).
    + split; [|exists rest; reflexivity].
      apply calls_succeed_cons; [exact Hip|].
      rewrite length_app, Nat.add_1_r in Hc. exact Hc.
Qed.

Lemma harness_second_port_after_first (tr ext : trace) :
  fst (Harness.check_server w tr) = tr ++ ext ->
  In (ServerStart 8001) ext ->
  Run.calls_succeed w (List.length tr)
    (Probe.session_calls ++ Probe.served (host_ip w) 8000) /\
  exists rest,
    ext = Probe.session_calls ++ Probe.served (host_ip w) 8000
          ++ ServerStart 8001 :: rest.
Proof.
  destruct (harness_check_server_prelude tr) as [(e0 & r & E & F & _) | (Hs & E)];
    rewrite E.
  - simpl. intros H Hin. apply app_inv_head in H. subst ext.
    exfalso. exact (second_start_not_in _ F Hin).
  - destruct (harness_probe_ports_cases (host_ip w) (tr ++ Probe.session_calls))
      as [(e1 & E1 & F) | (Hc & rest & E1)];
      rewrite E1, <- app_assoc; intros H Hin; apply app_inv_head in H; subst ext.
    + exfalso. apply in_app_or in Hin. destruct Hin as [Hin|Hin].
      * simpl in Hin. repeat (destruct Hin as [Hin|Hin]; [discriminate Hin|]).
        exact Hin.
      * exact (second_start_not_in _ F Hin).
    + split; [|exists rest; reflexivity].
      apply calls_succeed_app; [exact Hs|].
      rewrite length_app in Hc. exact Hc.
Qed.

End probes.

(** C7 (amended).  When the calls before it succeed and starting the server
    on port 8000 raises, [check_server] returns False at once, in both
    modules: port 8001 is not tried.  And in every run of either
    [check_server] in which the server is started on port 8001, the probe on
    port 8000 went through before: the calls up to the stop of the server on
    port 8000 were all made, in order, and none of them failed. *)
Theorem check_server_first_port_fails (w : world) (tr : trace) (x : exn) :
  (Run.calls_succeed w (List.length tr) [GetIp] ->
   raises w (List.length tr + 1) (ServerStart 8000) = Some x ->
   Adb.check_server w tr = (tr ++ [GetIp; ServerStart 8000], Ret false)) /\
  (Run.calls_succeed w (List.length tr)
     [NewDeviceManager; Forward; AdbForwardList; NewMarionette;
      StartSession; WaitForB2GReady 60; GetIp] ->
   raises w (List.length tr + 7) (ServerStart 8000) = Some x ->
   Harness.check_server w tr
   = (tr ++ [NewDeviceManager; Forward; AdbForwardList; NewMarionette;
             StartSession; WaitForB2GReady 60; GetIp; ServerStart 8000],
      Ret false)) /\
  (forall ext,
     fst (Adb.check_server w tr) = tr ++ ext ->
     In (ServerStart 8001) ext ->
     Run.calls_succeed w (List.length tr)
       (GetIp :: Probe.fetched (host_ip w) 8000) /\
     exists rest,
       ext = GetIp :: Probe.fetched (host_ip w) 8000 ++ ServerStart 8001 :: rest) /\
  (forall ext,
     fst (Harness.check_server w tr) = tr ++ ext ->
     In (ServerStart 8001) ext ->
     Run.calls_succeed w (List.length tr)
       (Probe.session_calls ++ Probe.served (host_ip w) 8000) /\
     exists rest,
       ext = Probe.session_calls ++ Probe.served (host_ip w) 8000
             ++ ServerStart 8001 :: rest).
Proof.
  split; [|split; [|split]].
  - intros Hc Hx.
    unfold Adb.check_server, get_ip, bind; cbn [Adb.probe_ports].
    unfold Adb.probe_port, bind, try_except, ret. cbv beta iota.
    rewrite (call_ok w GetIp) by nth_call_succeeds Hc. cbv beta iota.
    rewrite (call_fails w _ x) by this_call_fails Hx. cbv beta iota.
    simpl. rewrite <- app_assoc. reflexivity.
  - intros Hc Hx.
    unfold Harness.check_server, get_ip, bind, try_except;
      cbn [Harness.probe_ports].
    unfold Harness.probe_port, bind, try_except, ret. cbv beta iota.
    repeat (rewrite call_ok by nth_call_succeeds Hc; cbv beta iota; cbn [negb]).
    rewrite (call_fails w _ x) by this_call_fails Hx. cbv beta iota.
    simpl. rewrite <- !app_assoc. reflexivity.
  - intros ext. apply adb_second_port_after_first.
  - intros ext. apply harness_second_port_after_first.
Qed.

(** Discharges [calls_succeed] in a concrete world. *)
Ltac concrete_calls_succeed :=
  let i := fresh "i" in
  let e := fresh "e" in
  let H := fresh "H" in
  intros i e H;
  repeat (destruct i as [|i]; [injection H as <-; reflexivity|]);
  destruct i; discriminate H.

Lemma check_server_first_port_fails_witness :
  (Adb.check_server Scenario.port_8000_busy []
   = ([] ++ [GetIp; ServerStart 8000], Ret false) /\
   Harness.check_server Scenario.port_8000_busy []
   = ([] ++ [NewDeviceManager; Forward; AdbForwardList; NewMarionette;
             StartSession; WaitForB2GReady 60; GetIp; ServerStart 8000],
      Ret false)) /\
  (Run.calls_succeed Scenario.quiet 0 (GetIp :: Probe.fetched "10.0.0.2" 8000) /\
   exists rest,
     [GetIp; ServerStart 8000; Curl "10.0.0.2" 8000; ServerStop 8000;
      ServerStart 8001; Curl "10.0.0.2" 8001; ServerStop 8001]
     = GetIp :: Probe.fetched "10.0.0.2" 8000 ++ ServerStart 8001 :: rest) /\
  (Run.calls_succeed Scenario.quiet 0
     (Probe.session_calls ++ Probe.served "10.0.0.2" 8000) /\
   exists rest,
     Probe.session_calls ++ Probe.served "10.0.0.2" 8000
     ++ Probe.served "10.0.0.2" 8001
     = Probe.session_calls ++ Probe.served "10.0.0.2" 8000
       ++ ServerStart 8001 :: rest).
Proof.
  split; [|split].
  - destruct (check_server_first_port_fails Scenario.port_8000_busy []
                Scenario.address_in_use) as (Ha & Hh & _).
    split.
    + apply Ha; [concrete_calls_succeed | reflexivity].
    + apply Hh; [concrete_calls_succeed | reflexivity].
  - destruct (check_server_first_port_fails Scenario.quiet []
                Scenario.address_in_use) as (_ & _ & Hq & _).
    apply Hq; [reflexivity | simpl; auto 10].
  - destruct (check_server_first_port_fails Scenario.quiet []
                Scenario.address_in_use) as (_ & _ & _ & Hq).
    apply Hq; [reflexivity | simpl; auto 20].
Defined.

(** C7 as stated fails: with port 8000 taken on the host and everything else
    in order, [check_server] returns False in both modules and never starts
    a server on port 8001. *)
Lemma check_server_no_fallback :
  snd (Adb.check_server Scenario.port_8000_busy []) = Ret false /\
  ~ In (ServerStart 8001) (fst (Adb.check_server Scenario.port_8000_busy [])) /\
  snd (Harness.check_server Scenario.port_8000_busy []) = Ret false /\
  ~ In (ServerStart 8001) (fst (Harness.check_server Scenario.port_8000_busy [])).
Proof.
  repeat split; try reflexivity; simpl; intros H;
    repeat (destruct H as [H|H]; [discriminate H|]); exact H.
Qed.

(** C6.  With a device present, when the root check of
    [ADBDeviceInterface.check_preconditions] fails (the process list cannot
    be read, adbd is not found, or it does not run as root), the only calls
    of the pipeline are the process listing and one reboot: no later check
    is evaluated, and the run ends with [SystemExit(1)], or with the
    exception of the reboot when that raises.  In harness.py, whose pipeline
    has no root check, no run starts the suite loop, whatever the checks
    answer, and [run_tests] does not return 0. *)
Theorem root_check_failure_reboots_once
    (w : world) (version : string) (tests : list string)
    (cfg : Harness.config) (tr : trace) :
  (raises w (List.length tr) GetProcessList <> None \/
   snd (Adb.scan_adbd (process_list w (List.length tr))) = false ->
   Adb.check_preconditions w true version tr
   = (tr ++ [GetProcessList; AdbReboot],
      Raise (match raises w (List.length tr + 1) AdbReboot with
             | Some x => x
             | None => SystemExit 1
             end))) /\
  (exists ext,
     fst (Harness.run_tests w tests cfg tr) = tr ++ ext /\
     Forall Run.no_suite_activity ext /\
     Run.fails_run (snd (Harness.run_tests w tests cfg tr))).
Proof.
  split; [|apply run_tests_spec].
  intros H.
  unfold Adb.check_preconditions, and_then, Adb.check_root, bind, try_except,
    get_process_list, sys_exit, raise, ret, call.
  cbv beta iota. cbn [negb].
  assert (Hpos : List.length (tr ++ [GetProcessList]) = (List.length tr + 1)%nat)
    by (rewrite length_app; reflexivity).
  destruct (raises w (List.length tr) GetProcessList) as [x|].
  - cbn. rewrite <- app_assoc, Hpos.
    destruct (raises w (List.length tr + 1) AdbReboot); reflexivity.
  - destruct H as [H|H]; [congruence|]. rewrite H. cbn.
    rewrite <- app_assoc, Hpos.
    destruct (raises w (List.length tr + 1) AdbReboot); reflexivity.
Qed.

Lemma root_check_failure_reboots_once_witness :
  Adb.check_preconditions Scenario.no_root true "2.1" []
  = ([] ++ [GetProcessList; AdbReboot], Raise (SystemExit 1)).
Proof.
  destruct (root_check_failure_reboots_once Scenario.no_root "2.1" []
              Scenario.two_suites []) as [H _].
  apply H. right. reflexivity.
Defined.

(** ** [build_command] *)

Lemma append_empty (s : string) : (s ++ "")%string = s.
Proof. induction s as [|c s IH]; simpl; [|rewrite IH]; reflexivity. Qed.

(** C9.  For a configuration in which [suite] is
    [{cmd: "run_x", run_args: ["--out=%(temp_dir)s"], common_args: []}],
    [build_command] with the groups g1 and g2 returns the argument vector
    run_x, the raw-log flag whose file name is
    [<suite>_structuredg1_g2.log] under [temp_dir], [--log-mach=-],
    [--include=g1], [--include=g2] and [--out=<temp_dir>]. *)
Theorem build_command_run_x
    (cfg : Harness.config) (suite temp_dir : string) :
  Harness.lookup suite (Harness.suites cfg) = Some Scenario.suite_x ->
  let log_name := (temp_dir ++ "/" ++ suite ++ "_structuredg1_g2.log")%string in
  let argv :=
    ["run_x"; ("--log-raw=" ++ log_name)%string; "--log-mach=-";
     "--include=g1"; "--include=g2"; ("--out=" ++ temp_dir)%string] in
  Harness.build_command cfg suite ["g1"; "g2"] temp_dir
  = Ret (argv, [log_name], log_name) /\
  hd_error argv = Some "run_x" /\
  In "--include=g1" argv /\ In "--include=g2" argv /\
  In ("--out=" ++ temp_dir)%string argv.
Proof.
  intros H log_name argv. split.
  - unfold Harness.build_command. rewrite H. cbn.
    rewrite append_empty. reflexivity.
  - subst argv. cbn. repeat split; auto 10.
Qed.

Lemma build_command_run_x_witness :
  Harness.build_command (Harness.mkConfig [("sx", Scenario.suite_x)] [("version", "2.1")])
    "sx" ["g1"; "g2"] "/tmp/t"
  = Ret (["run_x"; "--log-raw=/tmp/t/sx_structuredg1_g2.log"; "--log-mach=-";
          "--include=g1"; "--include=g2"; "--out=/tmp/t"],
         ["/tmp/t/sx_structuredg1_g2.log"], "/tmp/t/sx_structuredg1_g2.log").
Proof.
  apply (build_command_run_x
           (Harness.mkConfig [("sx", Scenario.suite_x)] [("version", "2.1")])
           "sx" "/tmp/t").
  reflexivity.
Defined.

(** * Further properties of the code *)

(** ** Strings *)

Lemma prefix_append (a b : string) : String.prefix a (a ++ b)%string = true.
Proof.
  induction a as [|c a IH]; simpl.
  - destruct b; reflexivity.
  - destruct (ascii_dec c c); [exact IH | congruence].
Qed.

Lemma lstrip_slash_no_leading_slash (s : string) :
  Str.starts_with_slash (Str.lstrip_slash s) = false.
Proof.
  induction s as [|c s IH]; simpl; [reflexivity|].
  destruct (Ascii.eqb c Str.slash) eqn:E; [exact IH|].
  simpl. exact E.
Qed.

Lemma path_join_relative (a b : string) :
  Str.starts_with_slash b = false ->
  exists sep, (sep = "" \/ sep = "/") /\ Str.path_join a b = (a ++ sep ++ b)%string.
Proof.
  intros H. unfold Str.path_join. rewrite H.
  destruct ((a =? "")%string || Str.ends_with_slash a).
  - exists "". auto.
  - exists "/". auto.
Qed.

(** X1.  [DeviceBackup.local_dir], in both modules: the staged path of any
    remote path is [backup_path], a separator or nothing, and the remote path
    without its leading slashes; it is always below [backup_path], also for
    an absolute remote path. *)
Theorem local_dir_below_backup_path (backup_path remote : string) :
  (exists sep, (sep = "" \/ sep = "/") /\
     Harness.local_dir backup_path remote
     = (backup_path ++ sep ++ Str.lstrip_slash remote)%string) /\
  String.prefix backup_path (Harness.local_dir backup_path remote) = true /\
  Adb.local_dir backup_path remote = Harness.local_dir backup_path remote.
Proof.
  destruct (path_join_relative backup_path (Str.lstrip_slash remote)
              (lstrip_slash_no_leading_slash remote)) as (sep & Hsep & E).
  split; [|split].
  - exists sep. auto.
  - unfold Harness.local_dir. rewrite E. apply prefix_append.
  - reflexivity.
Qed.

(** ** [iter_suites] *)


Lemma lookup_add_test (s s' : string) (g : option string)
    (d : list (string * list string)) :
  Harness.lookup s (Harness.add_test s' g d)
  = if (s' =? s)%string
    then Some (match Harness.lookup s d with
               | Some gs => gs ++ Select.some_group g
               | None => Select.some_group g
               end)
    else Harness.lookup s d.
Proof.
  induction d as [|[k gs] rest IH]; simpl.
  - destruct (s' =? s)%string; destruct g; reflexivity.
  - destruct (String.eqb_spec k s') as [->|Hk]; simpl.
    + destruct (s' =? s)%string; [|reflexivity].
      destruct g; simpl; rewrite ?app_nil_r; reflexivity.
    + destruct (String.eqb_spec k s) as [->|Hks].
      * destruct (String.eqb_spec s' s); [congruence | reflexivity].
      * exact IH.
Qed.

Lemma keys_add_test (x s' : string) (g : option string)
    (d : list (string * list string)) :
  In x (map fst (Harness.add_test s' g d)) <-> x = s' \/ In x (map fst d).
Proof.
  induction d as [|[k gs] rest IH]; simpl.
  - intuition congruence.
  - destruct (String.eqb_spec k s') as [->|Hk]; simpl.
    + intuition congruence.
    + rewrite IH. intuition congruence.
Qed.

Lemma NoDup_add_test (s' : string) (g : option string)
    (d : list (string * list string)) :
  NoDup (map fst d) -> NoDup (map fst (Harness.add_test s' g d)).
Proof.
  induction d as [|[k gs] rest IH]; simpl; intros H.
  - constructor; [intros []| constructor].
  - inversion H as [|? ? Hnot Hrest]; subst.
    destruct (String.eqb_spec k s') as [->|Hk]; simpl.
    + constructor; assumption.
    + constructor; [|apply IH; exact Hrest].
      rewrite keys_add_test. intros [->|Hin]; [congruence | contradiction].
Qed.

Lemma select_step_eq (d : list (string * list string)) (t : string) :
  Select.select_step d t = Harness.add_test (Select.suite_of t) (Select.group_of t) d.
Proof.
  unfold Select.select_step, Select.suite_of, Select.group_of.
  destruct (Str.split1 ":" t); reflexivity.
Qed.

Lemma lookup_fold_select (s : string) (ts : list string) :
  forall d,
    Harness.lookup s (fold_left Select.select_step ts d)
    = match Harness.lookup s d with
      | Some gs => Some (gs ++ Select.groups_for s ts)
      | None =>
          if existsb (Select.names s) ts
          then Some (Select.groups_for s ts)
          else None
      end.
Proof.
  induction ts as [|t ts IH]; intros d; simpl.
  - destruct (Harness.lookup s d); [rewrite app_nil_r|]; reflexivity.
  - rewrite IH, select_step_eq, lookup_add_test.
    unfold Select.some_group.
    change (Select.names s t) with (Select.suite_of t =? s)%string.
    destruct (Select.suite_of t =? s)%string; simpl.
    + destruct (Harness.lookup s d) as [gs|]; [rewrite <- app_assoc|]; reflexivity.
    + destruct (Harness.lookup s d); reflexivity.
Qed.

Lemma NoDup_fold_select (ts : list string) :
  forall d, NoDup (map fst d) -> NoDup (map fst (fold_left Select.select_step ts d)).
Proof.
  induction ts as [|t ts IH]; intros d H; simpl; [exact H|].
  apply IH. rewrite select_step_eq. apply NoDup_add_test, H.
Qed.

Lemma iter_suites_fold (tests : list string) (cfg : Harness.config) :
  Harness.iter_suites tests cfg = fold_left Select.select_step (Select.tokens tests cfg) [].
Proof. reflexivity. Qed.

Lemma lookup_some_in {A : Type} (s : string) (d : list (string * A)) :
  In s (map fst d) <-> Harness.lookup s d <> None.
Proof.
  induction d as [|[k v] rest IH]; simpl.
  - intuition congruence.
  - destruct (String.eqb_spec k s) as [->|Hk].
    + split; [discriminate | auto].
    + rewrite <- IH. intuition congruence.
Qed.

(** X2.  [iter_suites] yields every suite once: the suite names are pairwise
    distinct, and they are the suites named by the tokens (the given tests,
    or the configured suites when no test is given). *)
Theorem iter_suites_yields_each_suite_once
    (tests : list string) (cfg : Harness.config) :
  NoDup (map fst (Harness.iter_suites tests cfg)) /\
  (forall suite,
     In suite (map fst (Harness.iter_suites tests cfg)) <->
     In suite (map Select.suite_of (Select.tokens tests cfg))).
Proof.
  rewrite iter_suites_fold. split.
  - apply NoDup_fold_select. constructor.
  - intros suite. rewrite lookup_some_in, lookup_fold_select. simpl.
    rewrite in_map_iff.
    destruct (existsb (Select.names suite) (Select.tokens tests cfg)) eqn:E.
    + split; [intros _|discriminate].
      apply existsb_exists in E. destruct E as (t & Hin & Ht).
      exists t. split; [|exact Hin]. apply String.eqb_eq. exact Ht.
    + split; [congruence|]. intros (t & Ht & Hin). exfalso.
      assert (H : existsb (Select.names suite) (Select.tokens tests cfg) = true).
      { apply existsb_exists. exists t. split; [exact Hin|].
        apply String.eqb_eq. exact Ht. }
      congruence.
Qed.

(** X3.  The groups that [iter_suites] yields for a suite are the groups of
    the tokens [suite:group] in the order given, and the empty list (all
    tests) when the suite is only named without a group; a suite that no
    token names is not yielded. *)
Theorem iter_suites_groups
    (tests : list string) (cfg : Harness.config) (suite : string) :
  Harness.lookup suite (Harness.iter_suites tests cfg)
  = if existsb (Select.names suite) (Select.tokens tests cfg)
    then Some (Select.groups_for suite (Select.tokens tests cfg))
    else None.
Proof.
  rewrite iter_suites_fold, lookup_fold_select. reflexivity.
Qed.

Lemma split1_without_sep (sep : ascii) (s : string) :
  Text.has_char sep s = false -> Str.split1 sep s = (s, None).
Proof.
  induction s as [|c s IH]; simpl; [reflexivity|].
  intros H. apply orb_false_iff in H. destruct H as [Hc Hs].
  rewrite Hc, (IH Hs). reflexivity.
Qed.

Lemma add_test_fresh (s : string) (d : list (string * list string)) :
  ~ In s (map fst d) -> Harness.add_test s None d = d ++ [(s, [])].
Proof.
  induction d as [|[k gs] rest IH]; simpl; intros H; [reflexivity|].
  destruct (String.eqb_spec k s) as [->|Hk]; [tauto|].
  rewrite IH; [reflexivity | tauto].
Qed.

Lemma fold_select_names (names : list string) :
  forall d,
    NoDup names ->
    (forall n, In n names -> ~ In n (map fst d)) ->
    Forall (fun n => Text.has_char ":" n = false) names ->
    fold_left Select.select_step names d = d ++ map (fun n => (n, [])) names.
Proof.
  induction names as [|n names IH]; intros d Hnd Hfresh Hcolon; simpl.
  - rewrite app_nil_r. reflexivity.
  - inversion Hnd as [|? ? Hn Hnd']; subst.
    inversion Hcolon as [|? ? Hc Hcolon']; subst.
    unfold Select.select_step at 2. rewrite (split1_without_sep _ _ Hc).
    rewrite add_test_fresh by (apply Hfresh; left; reflexivity).
    rewrite IH; auto.
    + rewrite <- app_assoc. reflexivity.
    + intros m Hm. rewrite map_app, in_app_iff. simpl.
      intros [Hin|[->|[]]]; [|contradiction].
      apply (Hfresh m); [right; exact Hm | exact Hin].
Qed.

(** X4.  With no test on the command line, and configured suite names that
    are distinct and contain no colon, [iter_suites] yields every configured
    suite, in the order of the configuration, each with the empty group list
    (all tests). *)
Theorem iter_suites_default (cfg : Harness.config) :
  NoDup (map fst (Harness.suites cfg)) ->
  Forall (fun n => Text.has_char ":" n = false) (map fst (Harness.suites cfg)) ->
  Harness.iter_suites [] cfg = map (fun n => (n, [])) (map fst (Harness.suites cfg)).
Proof.
  intros Hnd Hcolon. rewrite iter_suites_fold. simpl Select.tokens.
  rewrite fold_select_names; auto.
Qed.

Lemma iter_suites_default_witness :
  Harness.iter_suites [] Scenario.two_suites = [("suiteA", []); ("suiteB", [])].
Proof.
  apply (iter_suites_default Scenario.two_suites).
  - simpl. repeat constructor; simpl; intuition discriminate.
  - simpl. repeat constructor.
Defined.

(** ** Templates and [build_command] *)

Lemma py_format_text_then (pre rest : string) (d : list (string * string)) :
  Text.has_char "%" pre = false ->
  Harness.py_format_from Harness.Text (pre ++ rest) d
  = Text.prepend pre (Harness.py_format_from Harness.Text rest d).
Proof.
  induction pre as [|c pre IH]; simpl; intros H.
  - destruct (Harness.py_format_from Harness.Text rest d); reflexivity.
  - apply orb_false_iff in H. destruct H as [Hc Hp]. rewrite Hc, (IH Hp).
    destruct (Harness.py_format_from Harness.Text rest d); reflexivity.
Qed.

Lemma py_format_key (k acc rest : string) (d : list (string * string)) :
  Text.has_char "(" k = false -> Text.has_char ")" k = false ->
  Harness.py_format_from (Harness.Key acc) (k ++ String ")" rest) d
  = Harness.py_format_from (Harness.Conv (acc ++ k)) rest d.
Proof.
  revert acc. induction k as [|c k IH]; simpl; intros acc Ho Hc.
  - rewrite append_empty. reflexivity.
  - apply orb_false_iff in Ho, Hc. destruct Ho as [Ho1 Ho2], Hc as [Hc1 Hc2].
    rewrite Hc1, Ho1, (IH _ Ho2 Hc2).
    replace ((acc ++ String c "") ++ k)%string with (acc ++ String c k)%string;
      [reflexivity|].
    clear. induction acc as [|a acc IHa]; simpl; [reflexivity|].
    rewrite IHa. reflexivity.
Qed.

(** X5.  [item % subn], for a template made of text without [%], one
    placeholder [%(key)s] and a remainder: an unknown key raises [KeyError]
    with that key; a known key is replaced by its value, between the text
    left unchanged and the formatted remainder. *)
Theorem py_format_placeholder
    (pre key post : string) (subn : list (string * string)) :
  Text.has_char "%" pre = false ->
  Text.has_char "(" key = false -> Text.has_char ")" key = false ->
  Harness.py_format (pre ++ "%(" ++ key ++ ")s" ++ post) subn
  = match Harness.lookup key subn with
    | None => Raise (Exc KeyError key)
    | Some v => Text.prepend (pre ++ v) (Harness.py_format post subn)
    end.
Proof.
  intros Hpre Ho Hc. unfold Harness.py_format.
  rewrite (py_format_text_then _ _ _ Hpre). simpl.
  rewrite (py_format_key key "" _ _ Ho Hc). simpl.
  destruct (Harness.lookup key subn) as [v|]; [|reflexivity].
  destruct (Harness.py_format_from Harness.Text post subn) as [s|e]; simpl;
    [|reflexivity].
  f_equal. clear. induction pre as [|c pre IH]; simpl; [reflexivity|].
  rewrite IH. reflexivity.
Qed.

Lemma py_format_placeholder_witness :
  Harness.py_format ("--profile=" ++ "%(" ++ "profile" ++ ")s" ++ "/x")
    [("temp_dir", "/tmp/t")]
  = Raise (Exc KeyError "profile").
Proof.
  apply (py_format_placeholder "--profile=" "profile" "/x" [("temp_dir", "/tmp/t")]);
    reflexivity.
Defined.

Lemma py_format_plain_text (item : string) (subn : list (string * string)) :
  Text.has_char "%" item = false -> Harness.py_format item subn = Ret item.
Proof.
  intros H. unfold Harness.py_format.
  rewrite <- (append_empty item) at 1.
  rewrite (py_format_text_then _ _ _ H). simpl. rewrite append_empty. reflexivity.
Qed.

Lemma format_all_plain (items : list string) (subn : list (string * string)) :
  Text.plain items -> Harness.format_all items subn = Ret items.
Proof.
  induction 1 as [|item rest Hi _ IH]; simpl; [reflexivity|].
  rewrite (py_format_plain_text _ _ Hi), IH. reflexivity.
Qed.

(** X6.  When the configured arguments and extra files of a suite hold no
    [%], [build_command] returns the command, the raw-log and mach-log
    flags, one [--include] flag per group in order (none for no group), and
    then the run-time and the common arguments as configured; the output
    files are the raw log and the extra files. *)
Theorem build_command_plain_arguments
    (cfg : Harness.config) (suite : string) (opts : Harness.suite_opts)
    (exe : string) (groups : list string) (temp_dir : string) :
  Harness.lookup suite (Harness.suites cfg) = Some opts ->
  Harness.cmd opts = Some exe ->
  Text.plain (Harness.get_list (Harness.run_args opts)) ->
  Text.plain (Harness.get_list (Harness.common_args opts)) ->
  Text.plain (Harness.get_list (Harness.extra_files opts)) ->
  Harness.build_command cfg suite groups temp_dir
  = Ret ([exe; ("--log-raw=" ++ Text.log_name_of suite groups temp_dir)%string;
          "--log-mach=-"]
         ++ map (fun g => ("--include=" ++ g)%string) groups
         ++ Harness.get_list (Harness.run_args opts)
         ++ Harness.get_list (Harness.common_args opts),
         Text.log_name_of suite groups temp_dir
         :: Harness.get_list (Harness.extra_files opts),
         Text.log_name_of suite groups temp_dir).
Proof.
  intros Hs Hc Hr Hcm He. unfold Harness.build_command.
  rewrite Hs, Hc.
  rewrite (format_all_plain _ _ Hr), (format_all_plain _ _ Hcm),
    (format_all_plain _ _ He).
  unfold Text.log_name_of. destruct groups; simpl; reflexivity.
Qed.

Lemma build_command_plain_arguments_witness :
  Harness.build_command Scenario.two_suites "suiteA" [] "/tmp/t"
  = Ret (["run_a"; "--log-raw=/tmp/t/suiteA_structured.log"; "--log-mach=-"],
         ["/tmp/t/suiteA_structured.log"], "/tmp/t/suiteA_structured.log").
Proof.
  apply (build_command_plain_arguments Scenario.two_suites "suiteA"
           (Harness.mkSuite (Some "run_a") None None None) "run_a" [] "/tmp/t");
    try reflexivity; constructor.
Defined.

Lemma py_format_from_then (pre rest text : string) (d : list (string * string)) :
  forall st,
    Harness.py_format_from st pre d = Ret text ->
    Harness.py_format_from st (pre ++ rest) d
    = Text.prepend text (Harness.py_format_from Harness.Text rest d).
Proof.
  revert text. induction pre as [|c pre IH]; intros text st H.
  - destruct st; try discriminate H. simpl in H. injection H as <-. simpl.
    destruct (Harness.py_format_from Harness.Text rest d); reflexivity.
  - cbn [String.append]. destruct st; cbn [Harness.py_format_from] in H |- *.
    + destruct (Ascii.eqb c "%"); [exact (IH _ _ H)|].
      destruct (Harness.py_format_from Harness.Text pre d) as [s|e] eqn:E;
        [|discriminate H].
      injection H as <-. rewrite (IH _ _ E).
      destruct (Harness.py_format_from Harness.Text rest d); reflexivity.
    + destruct (Ascii.eqb c "%").
      * destruct (Harness.py_format_from Harness.Text pre d) as [s|e] eqn:E;
          [|discriminate H].
        injection H as <-. rewrite (IH _ _ E).
        destruct (Harness.py_format_from Harness.Text rest d); reflexivity.
      * destruct (Ascii.eqb c "("); [exact (IH _ _ H) | discriminate H].
    + destruct (Ascii.eqb c ")"); [exact (IH _ _ H)|].
      destruct (Ascii.eqb c "("); [discriminate H | exact (IH _ _ H)].
    + destruct (Ascii.eqb c "s"); [|discriminate H].
      destruct (Harness.lookup name d) as [v|]; [|discriminate H].
      destruct (Harness.py_format_from Harness.Text pre d) as [s|e] eqn:E;
        [|discriminate H].
      injection H as <-. rewrite (IH _ _ E).
      destruct (Harness.py_format_from Harness.Text rest d); simpl; [|reflexivity].
      f_equal. clear. induction v as [|x v IHv]; simpl; [reflexivity|].
      rewrite IHv. reflexivity.
Qed.

Lemma py_format_missing_key (pre key post text : string) (d : list (string * string)) :
  Harness.py_format pre d = Ret text ->
  Text.has_char "(" key = false -> Text.has_char ")" key = false ->
  Harness.lookup key d = None ->
  Harness.py_format (pre ++ "%(" ++ key ++ ")s" ++ post) d = Raise (Exc KeyError key).
Proof.
  intros Hpre Ho Hc Hk. unfold Harness.py_format in *.
  rewrite (py_format_from_then _ _ _ _ _ Hpre).
  change ("%(" ++ key ++ ")s" ++ post)%string
    with (String "%" (String "(" (key ++ String ")" (String "s" post)))).
  cbn [Harness.py_format_from Ascii.eqb Bool.eqb].
  rewrite (py_format_key key "" _ _ Ho Hc). cbn [String.append].
  cbn [Harness.py_format_from Ascii.eqb Bool.eqb]. rewrite Hk. reflexivity.
Qed.

Lemma format_all_first_raise
    (good : list string) (item : string) (later formatted : list string)
    (subn : list (string * string)) (e : exn) :
  Harness.format_all good subn = Ret formatted ->
  Harness.py_format item subn = Raise e ->
  Harness.format_all (good ++ item :: later) subn = Raise e.
Proof.
  revert formatted. induction good as [|g good IH]; intros formatted Hg H; simpl.
  - rewrite H. reflexivity.
  - simpl in Hg. destruct (Harness.py_format g subn); [|discriminate Hg].
    destruct (Harness.format_all good subn) as [l|] eqn:E; [|discriminate Hg].
    rewrite (IH _ eq_refl H). reflexivity.
Qed.

(** X7.  [build_command] raises [KeyError]: with the suite name for a suite
    that is not configured; with [cmd] for a suite without a command; and
    with the key of a placeholder [%(key)s] of a run-time argument when the
    key is neither [temp_dir] nor a top-level entry of the configuration,
    and the arguments before it and the text before the placeholder are
    formatted without error (they may hold other placeholders). *)
Theorem build_command_key_errors
    (cfg : Harness.config) (suite : string) (groups : list string)
    (temp_dir : string) :
  (Harness.lookup suite (Harness.suites cfg) = None ->
   Harness.build_command cfg suite groups temp_dir = Raise (Exc KeyError suite)) /\
  (forall opts,
     Harness.lookup suite (Harness.suites cfg) = Some opts ->
     Harness.cmd opts = None ->
     Harness.build_command cfg suite groups temp_dir = Raise (Exc KeyError "cmd")) /\
  (forall opts exe good formatted pre text key post later,
     Harness.lookup suite (Harness.suites cfg) = Some opts ->
     Harness.cmd opts = Some exe ->
     Harness.run_args opts
     = Some (good ++ (pre ++ "%(" ++ key ++ ")s" ++ post)%string :: later) ->
     Harness.format_all good (("temp_dir", temp_dir) :: Harness.entries cfg)
     = Ret formatted ->
     Harness.py_format pre (("temp_dir", temp_dir) :: Harness.entries cfg)
     = Ret text ->
     Text.has_char "(" key = false -> Text.has_char ")" key = false ->
     Harness.lookup key (("temp_dir", temp_dir) :: Harness.entries cfg) = None ->
     Harness.build_command cfg suite groups temp_dir = Raise (Exc KeyError key)).
Proof.
  unfold Harness.build_command. split; [|split].
  - intros ->. reflexivity.
  - intros opts -> ->. reflexivity.
  - intros opts exe good formatted pre text key post later -> -> -> Hg Hpre Ho Hc Hk.
    cbn [Harness.get_list].
    rewrite (format_all_first_raise good _ later formatted _ (Exc KeyError key) Hg);
      [reflexivity|].
    apply (py_format_missing_key _ _ _ text); assumption.
Qed.

Lemma build_command_key_errors_witness :
  Harness.build_command Samples.needs_profile "suiteC" [] "/tmp/t"
  = Raise (Exc KeyError "suiteC") /\
  Harness.build_command Samples.needs_profile "bare" [] "/tmp/t"
  = Raise (Exc KeyError "cmd") /\
  Harness.build_command Samples.needs_profile "sp" [] "/tmp/t"
  = Raise (Exc KeyError "profile").
Proof.
  split; [|split].
  - destruct (build_command_key_errors Samples.needs_profile "suiteC" [] "/tmp/t")
      as [H _].
    apply H. reflexivity.
  - destruct (build_command_key_errors Samples.needs_profile "bare" [] "/tmp/t")
      as (_ & H & _).
    apply (H (Harness.mkSuite None None None None)); reflexivity.
  - destruct (build_command_key_errors Samples.needs_profile "sp" [] "/tmp/t")
      as (_ & _ & H).
    apply (H (Harness.mkSuite (Some "run_p")
                (Some ["--out=%(temp_dir)s"; "--p=%(profile)s"]) None None)
             "run_p" ["--out=%(temp_dir)s"] ["--out=/tmp/t"]
             "--p=" "--p=" "profile" "" []);
      reflexivity.
Defined.

(** ** Paths *)

Lemma has_char_append (c : ascii) (a b : string) :
  Text.has_char c (a ++ b) = Text.has_char c a || Text.has_char c b.
Proof.
  induction a as [|x a IH]; simpl; [reflexivity|].
  rewrite IH, orb_assoc. reflexivity.
Qed.

Lemma replace_char_removes (old new : ascii) (s : string) :
  Ascii.eqb new old = false ->
  Text.has_char old (Str.replace_char old new s) = false.
Proof.
  intros H. induction s as [|c s IH]; simpl; [reflexivity|].
  rewrite IH, orb_false_r.
  destruct (Ascii.eqb c old) eqn:E; [exact H | exact E].
Qed.

Lemma concat_without_char (c : ascii) (sep : string) (items : list string) :
  Text.has_char c sep = false ->
  Forall (fun s => Text.has_char c s = false) items ->
  Text.has_char c (String.concat sep items) = false.
Proof.
  intros Hsep. induction 1 as [|x rest Hx Hrest IH]; simpl; [reflexivity|].
  destruct rest as [|y rest]; [exact Hx|].
  rewrite !has_char_append, Hx, Hsep. exact IH.
Qed.

Lemma rsplit1_without_sep (sep : ascii) (s : string) :
  Text.has_char sep s = false -> Str.rsplit1 sep s = None.
Proof.
  induction s as [|c s IH]; simpl; [reflexivity|].
  intros H. apply orb_false_iff in H. destruct H as [Hc Hs].
  rewrite (IH Hs), Hc. reflexivity.
Qed.

(** Round trip: splitting at the last separator undoes the join. *)
Lemma rsplit1_append (sep : ascii) (a b : string) :
  Text.has_char sep b = false ->
  Str.rsplit1 sep (a ++ String sep b) = Some (a, b).
Proof.
  intros H. induction a as [|c a IH]; simpl.
  - rewrite (rsplit1_without_sep _ _ H), Ascii.eqb_refl. reflexivity.
  - rewrite IH. reflexivity.
Qed.

(** X8.  The raw log that [build_command] names lies directly in [temp_dir]
    when the suite name has no slash: slashes in group names are replaced, so
    splitting the path at its last slash gives [temp_dir] and the file
    name. *)
Theorem build_command_log_in_temp_dir
    (cfg : Harness.config) (suite : string) (groups : list string)
    (temp_dir : string) (argv files : list string) (log : string) :
  Text.has_char "/" suite = false ->
  Harness.build_command cfg suite groups temp_dir = Ret (argv, files, log) ->
  Str.rsplit1 "/" log
  = Some (temp_dir,
          (suite ++ "_structured"
             ++ String.concat "_" (map (Str.replace_char "/" "-") groups)
             ++ ".log")%string) /\
  hd_error files = Some log.
Proof.
  intros Hsuite H. unfold Harness.build_command in H.
  destruct (Harness.lookup suite (Harness.suites cfg)) as [opts|]; [|discriminate].
  destruct (Harness.cmd opts) as [exe|]; [|discriminate].
  destruct (Harness.format_all (Harness.get_list (Harness.run_args opts)) _);
    [|discriminate].
  destruct (Harness.format_all (Harness.get_list (Harness.common_args opts)) _);
    [|discriminate].
  destruct (Harness.format_all (Harness.get_list (Harness.extra_files opts)) _);
    [|discriminate].
  injection H as _ <- <-. split; [|reflexivity].
  apply (rsplit1_append "/" temp_dir).
  rewrite !has_char_append, Hsuite. simpl.
  rewrite orb_false_r. apply concat_without_char; [reflexivity|].
  apply Forall_forall. intros x Hx. apply in_map_iff in Hx.
  destruct Hx as (g & <- & _). apply replace_char_removes. reflexivity.
Qed.

Lemma build_command_log_in_temp_dir_witness :
  Str.rsplit1 "/" "/tmp/t/sx_structureda-b_c.log"
  = Some ("/tmp/t", "sx_structureda-b_c.log") /\
  hd_error ["/tmp/t/sx_structureda-b_c.log"] = Some "/tmp/t/sx_structureda-b_c.log".
Proof.
  apply (build_command_log_in_temp_dir
           (Harness.mkConfig [("sx", Scenario.suite_x)] [])
           "sx" ["a/b"; "c"] "/tmp/t"
           ["run_x"; "--log-raw=/tmp/t/sx_structureda-b_c.log"; "--log-mach=-";
            "--include=a/b"; "--include=c"; "--out=/tmp/t"]
           ["/tmp/t/sx_structureda-b_c.log"]
           "/tmp/t/sx_structureda-b_c.log");
    reflexivity.
Defined.

(** ** [check_root] *)

(** X9.  The loop of [check_root] decides on the first process named
    [/sbin/adbd]: root access is reported exactly when that process exists
    and its user is [root]; later adbd entries do not count. *)
Theorem check_root_first_adbd (processes : list process) :
  (snd (Adb.scan_adbd processes) = true <->
   exists before pid after,
     processes = before ++ (pid, "/sbin/adbd", "root") :: after /\
     Forall (fun p => Obs.is_adbd p = false) before) /\
  (fst (Adb.scan_adbd processes) = true <->
   exists p, In p processes /\ Obs.is_adbd p = true).
Proof.
  induction processes as [|[[pid name] user] rest [IHroot IHadbd]]; simpl.
  - split; split; try discriminate.
    + intros (before & pid & after & H & _). destruct before; discriminate H.
    + intros (p & [] & _).
  - destruct (String.eqb_spec name "/sbin/adbd") as [->|Hname]; simpl.
    + split; split.
      * intros Hu. apply String.eqb_eq in Hu. subst user.
        exists [], pid, rest. split; [reflexivity | constructor].
      * intros (before & pid' & after & H & Hb).
        destruct before as [|b before]; simpl in H.
        -- injection H as _ -> _. reflexivity.
        -- injection H as <- _. inversion Hb as [|? ? Hx _]; subst.
           simpl in Hx. discriminate Hx.
      * intros _. exists (pid, "/sbin/adbd", user). split; [left|]; reflexivity.
      * reflexivity.
    + split; split.
      * intros H. apply IHroot in H. destruct H as (before & pid' & after & -> & Hb).
        exists ((pid, name, user) :: before), pid', after. split; [reflexivity|].
        constructor; [|exact Hb]. simpl. apply String.eqb_neq. exact Hname.
      * intros (before & pid' & after & H & Hb). apply IHroot.
        destruct before as [|b before]; simpl in H.
        -- injection H as _ -> _. congruence.
        -- injection H as _ ->. inversion Hb; subst.
           exists before, pid', after. auto.
      * intros H. apply IHadbd in H. destruct H as (p & Hin & Hp).
        exists p. split; [right|]; assumption.
      * intros (p & [<-|Hin] & Hp).
        -- simpl in Hp. apply String.eqb_eq in Hp. congruence.
        -- apply IHadbd. exists p. auto.
Qed.

(** ** The checks of harness.py *)

Lemma ask_ok (w : world) (e : event) (tr : trace) :
  Run.calm w -> ask w e tr = (tr ++ [e], Ret (truth w (List.length tr) e)).
Proof. intros H. unfold ask. rewrite H. reflexivity. Qed.

Lemma call_calm (w : world) (e : event) (tr : trace) :
  Run.calm w -> call w e tr = (tr ++ [e], Ret tt).
Proof. intros H. apply call_ok, H. Qed.

Lemma network_loop_round (w : world) (n : nat) (tr : trace) :
  Run.calm w ->
  Harness.network_loop w (S n) false tr
  = Harness.network_loop w n (truth w (List.length tr) Netcfg)
      (tr ++ [Netcfg; Sleep 1]).
Proof.
  intros Hc. cbn [Harness.network_loop]. unfold bind.
  rewrite (ask_ok _ _ _ Hc), (call_calm _ _ _ Hc), <- app_assoc. reflexivity.
Qed.

Lemma network_loop_active (w : world) (n : nat) (tr : trace) :
  Harness.network_loop w n true tr = (tr, Ret true).
Proof. destruct n; reflexivity. Qed.

Lemma network_loop_gives_up (w : world) (n : nat) :
  Run.calm w ->
  forall tr,
    (forall i, (i < n)%nat -> truth w (List.length tr + 2 * i) Netcfg = false) ->
    Harness.network_loop w n false tr = (tr ++ Obs.netcfg_polls n, Ret false).
Proof.
  intros Hc. induction n as [|n IH]; intros tr H.
  - simpl. unfold ret. rewrite app_nil_r. reflexivity.
  - rewrite (network_loop_round _ _ _ Hc).
    replace (truth w (List.length tr) Netcfg) with false
      by (rewrite <- (H 0%nat) by lia; f_equal; lia).
    rewrite IH.
    + unfold Obs.netcfg_polls. simpl. rewrite <- app_assoc. reflexivity.
    + intros i Hi. rewrite <- (H (S i)) by lia. f_equal.
      rewrite length_app. simpl. lia.
Qed.

Lemma network_loop_finds (w : world) (k : nat) :
  Run.calm w ->
  forall n tr,
    (k < n)%nat ->
    (forall i, (i < k)%nat -> truth w (List.length tr + 2 * i) Netcfg = false) ->
    truth w (List.length tr + 2 * k) Netcfg = true ->
    Harness.network_loop w n false tr = (tr ++ Obs.netcfg_polls (S k), Ret true).
Proof.
  intros Hc. induction k as [|k IH]; intros n tr Hn Hfalse Htrue;
    (destruct n as [|n]; [lia|]); rewrite (network_loop_round _ _ _ Hc).
  - replace (truth w (List.length tr) Netcfg) with true
      by (rewrite <- Htrue; f_equal; lia).
    rewrite network_loop_active. reflexivity.
  - replace (truth w (List.length tr) Netcfg) with false
      by (rewrite <- (Hfalse 0%nat) by lia; f_equal; lia).
    rewrite (IH n).
    + unfold Obs.netcfg_polls. simpl. rewrite <- app_assoc. reflexivity.
    + lia.
    + intros i Hi. rewrite <- (Hfalse (S i)) by lia. f_equal.
      rewrite length_app. simpl. lia.
    + rewrite <- Htrue. f_equal. rewrite length_app. simpl. lia.
Qed.

(** X10.  When no call fails, [check_network] of harness.py polls [netcfg]
    once a second: it returns True right after the first poll that shows an
    address, and returns False after 40 polls without one; it never polls
    more than 40 times. *)
Theorem check_network_polls_at_most_40 (w : world) (tr : trace) :
  Run.calm w ->
  ((forall i, (i < 40)%nat ->
      truth w (List.length tr + 1 + 2 * i) Netcfg = false) ->
   Harness.check_network w tr
   = (tr ++ NewDeviceManager :: Obs.netcfg_polls 40, Ret false)) /\
  (forall k,
     (k < 40)%nat ->
     (forall i, (i < k)%nat ->
        truth w (List.length tr + 1 + 2 * i) Netcfg = false) ->
     truth w (List.length tr + 1 + 2 * k) Netcfg = true ->
     Harness.check_network w tr
     = (tr ++ NewDeviceManager :: Obs.netcfg_polls (S k), Ret true)).
Proof.
  intros Hc.
  assert (Hlen : List.length (tr ++ [NewDeviceManager]) = (List.length tr + 1)%nat)
    by (rewrite length_app; reflexivity).
  unfold Harness.check_network, bind. rewrite (call_calm _ _ _ Hc).
  split.
  - intros H. rewrite (network_loop_gives_up w 40 Hc).
    + rewrite <- app_assoc. reflexivity.
    + intros i Hi. rewrite Hlen. apply H, Hi.
  - intros k Hk Hfalse Htrue. rewrite (network_loop_finds w k Hc).
    + rewrite <- app_assoc. reflexivity.
    + exact Hk.
    + intros i Hi. rewrite Hlen. apply Hfalse, Hi.
    + rewrite Hlen. exact Htrue.
Qed.

Lemma check_network_polls_at_most_40_witness :
  Harness.check_network Cases.third_poll_answers []
  = ([] ++ NewDeviceManager :: Obs.netcfg_polls 3, Ret true).
Proof.
  destruct (check_network_polls_at_most_40 Cases.third_poll_answers []) as [_ H].
  - intros n e. reflexivity.
  - apply (H 2%nat).
    + lia.
    + intros i Hi. destruct i as [|[|i]]; [reflexivity | reflexivity | lia].
    + reflexivity.
Defined.

(** X11.  [install_marionette] of harness.py, once the device manager is
    there: a fresh install waits 10 seconds and returns True; an extension
    that is already installed counts as success, without the wait; a
    [CalledProcessError] of the installer gives False; any other exception
    of the installer is passed on. *)
Theorem install_marionette_outcomes (w : world) (version : string) (tr : trace) :
  raises w (List.length tr) NewDeviceManager = None ->
  let installed := tr ++ [NewDeviceManager; MarionetteInstall version] in
  (raises w (List.length tr + 1) (MarionetteInstall version) = None ->
   raises w (List.length tr + 2) (Sleep 10) = None ->
   Harness.install_marionette w version tr = (installed ++ [Sleep 10], Ret true)) /\
  (forall x,
     raises w (List.length tr + 1) (MarionetteInstall version) = Some x ->
     Harness.install_marionette w version tr
     = (installed,
        if is_instance AlreadyInstalledException x then Ret true
        else if is_instance CalledProcessError x then Ret false
        else Raise x)).
Proof.
  intros Hdm installed. subst installed.
  unfold Harness.install_marionette, bind, try_except, ret. cbv beta iota.
  rewrite (call_ok w NewDeviceManager) by exact Hdm. cbv beta iota.
  split.
  - intros Hi Hs.
    rewrite (call_ok w (MarionetteInstall version)) by this_call_fails Hi.
    cbv beta iota.
    rewrite (call_ok w (Sleep 10)) by this_call_fails Hs.
    cbv beta iota. rewrite <- !app_assoc. reflexivity.
  - intros x Hx.
    rewrite (call_fails w (MarionetteInstall version) x) by this_call_fails Hx.
    cbv beta iota. rewrite <- app_assoc. cbn [app].
    destruct x as [code| |cls msg]; cbn; try reflexivity.
    destruct cls; reflexivity.
Qed.

Lemma install_marionette_outcomes_witness :
  Harness.install_marionette Cases.already_installed "2.1" []
  = ([NewDeviceManager; MarionetteInstall "2.1"], Ret true).
Proof.
  destruct (install_marionette_outcomes Cases.already_installed "2.1" []) as [_ H].
  - reflexivity.
  - apply (H (Exc AlreadyInstalledException "")). reflexivity.
Defined.

(** ** The probe server of [check_server] *)

(** X12.  In [check_server] of adb_device_interface.py a server that was
    started is always stopped: the calls for one port are the start alone
    when it fails, and otherwise the start, the request from the device and
    the stop, whatever the request does.  In harness.py the stop is skipped
    exactly when [go_back] raises. *)
Theorem started_server_is_stopped
    (w : world) (host : string) (port : Z) (tr : trace) :
  fst (Adb.probe_port w host port tr)
  = tr ++ match raises w (List.length tr) (ServerStart port) with
          | Some _ => [ServerStart port]
          | None => [ServerStart port; Curl host port; ServerStop port]
          end /\
  fst (Harness.probe_port w host port tr)
  = tr ++ match raises w (List.length tr) (ServerStart port) with
          | Some _ => [ServerStart port]
          | None =>
              [ServerStart port; Navigate host port; GoBack]
              ++ match raises w (List.length tr + 2) GoBack with
                 | Some _ => []
                 | None => [ServerStop port]
                 end
          end.
Proof.
  assert (H2 : forall a b : event,
             List.length ((tr ++ [a]) ++ [b]) = (List.length tr + 2)%nat)
    by (intros; rewrite !length_app; simpl; lia).
  split.
  - unfold Adb.probe_port, bind, try_except, try_finally, ret, call.
    cbv beta iota.
    destruct (raises w (List.length tr) (ServerStart port)); cbn; [reflexivity|].
    destruct (raises w (List.length (tr ++ [ServerStart port])) (Curl host port))
      as [x|]; cbn.
    + destruct (is_instance ADBError x); cbn;
        [destruct (Str.contains "curl: not found" (Adb.exn_message x)); cbn|];
        destruct (raises w _ (ServerStop port)); cbn;
        rewrite <- !app_assoc; reflexivity.
    + destruct (raises w _ (ServerStop port)); cbn;
        rewrite <- !app_assoc; reflexivity.
  - unfold Harness.probe_port, bind, try_except, try_finally, ret, call.
    cbv beta iota.
    destruct (raises w (List.length tr) (ServerStart port)); cbn; [reflexivity|].
    destruct (raises w (List.length (tr ++ [ServerStart port])) (Navigate host port));
      cbn; rewrite H2;
      destruct (raises w (List.length tr + 2) GoBack); cbn;
      try (destruct (raises w _ (ServerStop port)); cbn);
      rewrite <- !app_assoc; reflexivity.
Qed.

(** X13.  [check_server] of adb_device_interface.py tolerates a device
    without curl: when the request on port 8000 fails with an [ADBError]
    whose message contains [curl: not found], the server is stopped, port
    8001 is not probed, and the check returns True. *)
Theorem check_server_tolerates_missing_curl
    (w : world) (tr : trace) (message : string) :
  Run.calls_succeed w (List.length tr) [GetIp; ServerStart 8000] ->
  raises w (List.length tr + 2) (Curl (host_ip w) 8000)
  = Some (Exc ADBError message) ->
  Str.contains "curl: not found" message = true ->
  raises w (List.length tr + 3) (ServerStop 8000) = None ->
  Adb.check_server w tr
  = (tr ++ [GetIp; ServerStart 8000; Curl (host_ip w) 8000; ServerStop 8000],
     Ret true).
Proof.
  intros Hc Hcurl Hmsg Hstop.
  unfold Adb.check_server, get_ip, bind; cbn [Adb.probe_ports].
  unfold Adb.probe_port, bind, try_except, try_finally, ret. cbv beta iota.
  repeat (rewrite call_ok by nth_call_succeeds Hc; cbv beta iota; cbn [negb]).
  rewrite (call_fails w _ (Exc ADBError message)) by this_call_fails Hcurl.
  cbv beta iota. cbn [is_instance subclass exc_class_eqb orb Adb.exn_message].
  rewrite Hmsg.
  rewrite (call_ok w (ServerStop 8000)) by this_call_fails Hstop.
  cbv beta iota. rewrite <- !app_assoc. reflexivity.
Qed.

Lemma check_server_tolerates_missing_curl_witness :
  Adb.check_server Cases.no_curl []
  = ([GetIp; ServerStart 8000; Curl "10.0.0.2" 8000; ServerStop 8000], Ret true).
Proof.
  apply (check_server_tolerates_missing_curl Cases.no_curl []
           "/system/bin/sh: curl: not found").
  - concrete_calls_succeed.
  - reflexivity.
  - reflexivity.
  - reflexivity.
Defined.

(** ** [ADBDeviceInterface.check_preconditions] *)

Section adb_pipeline.
Variable w : world.

Lemma adb_check_server_no_reboot : Run.emits Obs.no_reboot (Adb.check_server w).
Proof.
  unfold Adb.check_server. emits_tac. simpl. unfold Adb.probe_port. emits_tac.
Qed.

Lemma adb_checks_no_reboot (version : string) :
  Run.emits Obs.no_reboot
    (and_then (Adb.check_root w)
       (and_then (Adb.install_marionette w version)
          (and_then (Adb.ensure_settings w)
             (and_then (Adb.check_network w) (Adb.check_server w))))).
Proof.
  unfold Adb.check_root, Adb.install_marionette, Adb.ensure_settings,
    Adb.check_network.
  emits_tac. apply adb_check_server_no_reboot.
Qed.

End adb_pipeline.

Lemma adb_check_preconditions_shape (w : world) (version : string) (tr : trace) :
  Adb.check_preconditions w true version tr
  = (let (tr', r) :=
       and_then (Adb.check_root w)
         (and_then (Adb.install_marionette w version)
            (and_then (Adb.ensure_settings w)
               (and_then (Adb.check_network w) (Adb.check_server w)))) tr in
     match r with
     | Ret true => (tr', Ret true)
     | _ => (call w AdbReboot ;; sys_exit 1)%py tr'
     end).
Proof.
  unfold Adb.check_preconditions. cbn [negb]. unfold bind at 1.
  unfold try_except. cbv beta.
  destruct (and_then (Adb.check_root w) _ tr) as [tr' [[|]|x]]; reflexivity.
Qed.

(** X14.  With a device present, [ADBDeviceInterface.check_preconditions]
    either returns True without any reboot, or issues exactly one reboot, as
    its last call, and raises; it never returns False.  So whichever check
    fails or raises, the device is rebooted once and the run ends. *)
Theorem adb_check_preconditions_reboots_once_on_failure
    (w : world) (version : string) (tr : trace) :
  exists ext,
    fst (Adb.check_preconditions w true version tr) = tr ++ ext /\
    ((snd (Adb.check_preconditions w true version tr) = Ret true /\
      Forall Obs.no_reboot ext) \/
     ((exists e, snd (Adb.check_preconditions w true version tr) = Raise e) /\
      exists before, ext = before ++ [AdbReboot] /\ Forall Obs.no_reboot before)).
Proof.
  destruct (adb_checks_no_reboot w version tr) as (ext & E & F & _).
  rewrite adb_check_preconditions_shape.
  destruct (and_then (Adb.check_root w) _ tr) as [tr1 r]. simpl in E. subst tr1.
  assert (Hfail : exists e,
             (call w AdbReboot;; sys_exit 1)%py (tr ++ ext)
             = (tr ++ ext ++ [AdbReboot], Raise e) :> trace * result bool).
  { unfold bind, call, sys_exit, raise. rewrite <- app_assoc.
    destruct (raises w (List.length (tr ++ ext)) AdbReboot) as [x|]; eauto. }
  destruct Hfail as [e He].
  destruct r as [[|]|x].
  - exists ext. split; [reflexivity|]. left. auto.
  - rewrite He. exists (ext ++ [AdbReboot]). split; [reflexivity|].
    right. split; [exists e; reflexivity|]. exists ext. auto.
  - rewrite He. exists (ext ++ [AdbReboot]). split; [reflexivity|].
    right. split; [exists e; reflexivity|]. exists ext. auto.
Qed.

(** ** The device snapshot *)

Lemma harness_enter_no_cleanup (w : world) :
  Run.emits (fun e => Run.is_rmtree e = false /\ Run.is_run_suite e = false)
    (Harness.DeviceBackup_enter w).
Proof.
  unfold Harness.DeviceBackup_enter, Harness.backup_dir, Harness.backup_file,
    Harness.ensure_dir.
  repeat
    match goal with
    | |- Run.emits _ (call _ _) => apply emits_call; split; reflexivity
    | |- Run.emits _ (ask _ _) => apply emits_ask; split; reflexivity
    | _ => emits_step
    end.
Qed.

(** X18.  When taking the snapshot fails (the device manager, the temporary
    directory or a pull raises), the [with DeviceBackup()] block of harness.py
    passes the exception on at once: no suite is run, and the staging
    directory, if it was created, is not removed. *)
Theorem failed_snapshot_is_not_cleaned
    (w : world) (tests : list string) (cfg : Harness.config)
    (tr tr1 : trace) (e : exn) :
  Harness.DeviceBackup_enter w tr = (tr1, Raise e) ->
  Harness.suite_phase w tests cfg tr = (tr1, Raise e) /\
  exists ext,
    tr1 = tr ++ ext /\
    Forall (fun ev => Run.is_rmtree ev = false /\ Run.is_run_suite ev = false) ext.
Proof.
  intros H. split.
  - unfold Harness.suite_phase, with_, bind. rewrite H. reflexivity.
  - destruct (harness_enter_no_cleanup w tr) as (ext & E & F & _).
    rewrite H in E. exists ext. auto.
Qed.

Lemma failed_snapshot_is_not_cleaned_witness :
  Harness.suite_phase Cases.pull_fails [] Scenario.two_suites []
  = ([NewDeviceManager; Mkdtemp; PathExists "/tmp/tmpXk3/data/local";
      GetDirectory "/data/local" "/tmp/tmpXk3/data/local";
      PathExists "/tmp/tmpXk3/data/b2g/mozilla";
      GetDirectory "/data/b2g/mozilla" "/tmp/tmpXk3/data/b2g/mozilla"],
     Raise (Exc DMError "pull failed")).
Proof.
  apply (failed_snapshot_is_not_cleaned Cases.pull_fails [] Scenario.two_suites []).
  reflexivity.
Defined.

Lemma suite_phase_removes_staging_once_witness :
  exists body,
    fst (Harness.suite_phase Scenario.suiteA_raises ["suiteA"; "suiteB"]
           Scenario.two_suites [])
    = [NewDeviceManager; Mkdtemp; PathExists "/tmp/tmpXk3/data/local";
       GetDirectory "/data/local" "/tmp/tmpXk3/data/local";
       PathExists "/tmp/tmpXk3/data/b2g/mozilla";
       GetDirectory "/data/b2g/mozilla" "/tmp/tmpXk3/data/b2g/mozilla";
       PathExists "/tmp/tmpXk3/system/etc";
       GetFile "/system/etc/hosts" "/tmp/tmpXk3/system/etc/hosts"]
      ++ body ++ [Rmtree "/tmp/tmpXk3"] /\
    Forall (fun e => Run.is_rmtree e = false) body.
Proof.
  apply (suite_phase_removes_staging_once Scenario.suiteA_raises
           ["suiteA"; "suiteB"] Scenario.two_suites []).
  reflexivity.
Defined.

Lemma suite_loop_goes_on_witness :
  exists error',
    Harness.suite_loop Scenario.suiteA_raises "/tmp/b" false
      [("suiteA", []); ("suiteB", ["g"])] []
    = ([] ++ Plan.suite_loop_calls "/tmp/b" [("suiteA", []); ("suiteB", ["g"])],
       Ret error') /\
    (false = true -> error' = true) /\
    (forall item rest x,
       [("suiteA", []); ("suiteB", ["g"])] = item :: rest ->
       raises Scenario.suiteA_raises (List.length (@nil event))
         (RunSuite (fst item) (snd item)) = Some x ->
       error' = true).
Proof.
  apply (suite_loop_goes_on Scenario.suiteA_raises).
  intros n e H. destruct e; try reflexivity. discriminate H.
Defined.

Section copies.
Variable w : world.
Hypothesis Hcalm : Run.calm w.

Lemma observes_for_each {A X : Type} (obs : trace -> list X)
    (good : A -> Prop) (f : A -> list X) (body : A -> M unit) (items : list A) :
  (forall a b, obs (a ++ b) = obs a ++ obs b) -> obs [] = [] ->
  (forall x, good x -> Obs.observes obs (f x) (body x)) ->
  Forall good items ->
  Obs.observes obs (flat_map f items) (for_each body items).
Proof.
  intros Happ Hnil Hbody. induction 1 as [|x rest Hx _ IH]; intros tr; simpl.
  - exists []. unfold ret. rewrite app_nil_r. auto.
  - unfold bind. destruct (Hbody x Hx tr) as (ext1 & -> & O1).
    destruct (IH (tr ++ ext1)) as (ext2 & -> & O2).
    exists (ext1 ++ ext2). rewrite app_assoc, Happ, O1, O2. auto.
Qed.

Lemma flat_map_single {A B : Type} (g : A -> B) (l : list A) :
  flat_map (fun x => [g x]) l = map g l.
Proof. induction l as [|x l IH]; simpl; [|rewrite IH]; reflexivity. Qed.

Lemma pulled_app (a b : trace) : Obs.pulled (a ++ b) = Obs.pulled a ++ Obs.pulled b.
Proof. apply flat_map_app. Qed.

Lemma pushed_app (a b : trace) : Obs.pushed (a ++ b) = Obs.pushed a ++ Obs.pushed b.
Proof. apply flat_map_app. Qed.

Lemma adb_backup_dir_pulls (backup_path d : string) :
  Obs.observes Obs.pulled [Obs.dir_copy backup_path d] (Adb.backup_dir w backup_path d).
Proof.
  intros tr. unfold Adb.backup_dir, Adb.ensure_dir, bind.
  rewrite (ask_ok _ _ _ Hcalm).
  destruct (truth w (List.length tr) _); cbn [negb]; unfold ret;
    rewrite ?(call_calm _ _ _ Hcalm), ?(call_calm _ _ _ Hcalm), <- ?app_assoc;
    eexists; (split; [reflexivity|]); reflexivity.
Qed.

Lemma adb_backup_file_pulls (backup_path f : string) :
  Plan.has_slash f ->
  Obs.observes Obs.pulled [Obs.file_copy backup_path f] (Adb.backup_file w backup_path f).
Proof.
  intros Hs tr. unfold Adb.backup_file, Obs.file_copy, Obs.staged_file,
    Plan.has_slash in *.
  destruct (Str.rsplit1 "/"%char f) as [[d n]|]; [|congruence].
  unfold Adb.ensure_dir, bind. rewrite (ask_ok _ _ _ Hcalm).
  destruct (truth w (List.length tr) _); cbn [negb]; unfold ret;
    rewrite ?(call_calm _ _ _ Hcalm), ?(call_calm _ _ _ Hcalm), <- ?app_assoc;
    eexists; (split; [reflexivity|]); reflexivity.
Qed.

Lemma adb_restore_file_pushes (backup_path f : string) :
  Plan.has_slash f ->
  Obs.observes Obs.pushed [Obs.file_copy backup_path f] (Adb.restore_file w backup_path f).
Proof.
  intros Hs tr. unfold Adb.restore_file, Obs.file_copy, Obs.staged_file,
    Plan.has_slash in *.
  destruct (Str.rsplit1 "/"%char f) as [[d n]|]; [|congruence].
  unfold bind. rewrite !(call_calm _ _ _ Hcalm), <- app_assoc.
  eexists; (split; [reflexivity|]); reflexivity.
Qed.

Lemma adb_restore_dir_pushes (backup_path d : string) :
  Obs.observes Obs.pushed [Obs.dir_copy backup_path d] (Adb.restore_dir w backup_path d).
Proof.
  intros tr. unfold Adb.restore_dir, bind.
  rewrite !(call_calm _ _ _ Hcalm), <- app_assoc.
  eexists; (split; [reflexivity|]); reflexivity.
Qed.

Lemma Forall_true {A : Type} (l : list A) : Forall (fun _ => True) l.
Proof. apply Forall_forall. auto. Qed.

(** X19.  When no call fails and every backed-up file path has a slash,
    [DeviceBackup.backup] of adb_device_interface.py pulls each directory and
    then each file into its staged path below the new temporary directory,
    and [restore] pushes back exactly these staged copies to the paths they
    came from (files first). *)
Theorem restore_pushes_what_backup_pulled
    (dirs files : list string) (tr tr' : trace) :
  Forall Plan.has_slash files ->
  exists ext ext',
    Adb.backup w dirs files tr = (tr ++ ext, Ret (tmpdir w)) /\
    Adb.restore w dirs files (tmpdir w) tr' = (tr' ++ ext', Ret tt) /\
    Obs.pulled ext
    = map (Obs.dir_copy (tmpdir w)) dirs ++ map (Obs.file_copy (tmpdir w)) files /\
    Obs.pushed ext'
    = map (Obs.file_copy (tmpdir w)) files ++ map (Obs.dir_copy (tmpdir w)) dirs /\
    Permutation (Obs.pulled ext) (Obs.pushed ext').
Proof.
  intros Hs.
  pose proof (observes_for_each Obs.pulled (fun _ => True) _ _ dirs
                pulled_app eq_refl
                (fun d _ => adb_backup_dir_pulls (tmpdir w) d) (Forall_true dirs))
    as Bd.
  pose proof (observes_for_each Obs.pulled Plan.has_slash _ _ files
                pulled_app eq_refl (adb_backup_file_pulls (tmpdir w)) Hs) as Bf.
  pose proof (observes_for_each Obs.pushed Plan.has_slash _ _ files
                pushed_app eq_refl (adb_restore_file_pushes (tmpdir w)) Hs) as Rf.
  pose proof (observes_for_each Obs.pushed (fun _ => True) _ _ dirs
                pushed_app eq_refl
                (fun d _ => adb_restore_dir_pushes (tmpdir w) d) (Forall_true dirs))
    as Rd.
  rewrite flat_map_single in Bd, Bf, Rf, Rd.
  destruct (Bd (tr ++ [Mkdtemp])) as (e1 & E1 & O1).
  destruct (Bf ((tr ++ [Mkdtemp]) ++ e1)) as (e2 & E2 & O2).
  destruct (Rf (tr' ++ [Remount])) as (e3 & E3 & O3).
  destruct (Rd ((tr' ++ [Remount]) ++ e3)) as (e4 & E4 & O4).
  exists (Mkdtemp :: e1 ++ e2), (Remount :: e3 ++ e4).
  assert (Hpull : Obs.pulled (Mkdtemp :: e1 ++ e2)
                  = map (Obs.dir_copy (tmpdir w)) dirs
                    ++ map (Obs.file_copy (tmpdir w)) files).
  { change (Mkdtemp :: e1 ++ e2) with ([Mkdtemp] ++ e1 ++ e2).
    rewrite !pulled_app, O1, O2. reflexivity. }
  assert (Hpush : Obs.pushed (Remount :: e3 ++ e4)
                  = map (Obs.file_copy (tmpdir w)) files
                    ++ map (Obs.dir_copy (tmpdir w)) dirs).
  { change (Remount :: e3 ++ e4) with ([Remount] ++ e3 ++ e4).
    rewrite !pushed_app, O3, O4. reflexivity. }
  repeat split.
  - unfold Adb.backup, mkdtemp, bind, ret.
    rewrite (call_calm _ _ _ Hcalm), E1, E2, <- !app_assoc. reflexivity.
  - unfold Adb.restore, bind.
    rewrite (call_calm _ _ _ Hcalm), E3, E4, <- !app_assoc. reflexivity.
  - exact Hpull.
  - exact Hpush.
  - rewrite Hpull, Hpush. apply Permutation_app_comm.
Qed.

End copies.

Lemma restore_pushes_what_backup_pulled_witness :
  exists ext ext',
    Adb.backup Scenario.quiet ["/data/local"] ["/system/etc/hosts"] []
    = ([] ++ ext, Ret "/tmp/tmpXk3") /\
    Adb.restore Scenario.quiet ["/data/local"] ["/system/etc/hosts"] "/tmp/tmpXk3" []
    = ([] ++ ext', Ret tt) /\
    Obs.pulled ext
    = [("/data/local", "/tmp/tmpXk3/data/local");
       ("/system/etc/hosts", "/tmp/tmpXk3/system/etc/hosts")] /\
    Obs.pushed ext'
    = [("/system/etc/hosts", "/tmp/tmpXk3/system/etc/hosts");
       ("/data/local", "/tmp/tmpXk3/data/local")] /\
    Permutation (Obs.pulled ext) (Obs.pushed ext').
Proof.
  apply (restore_pushes_what_backup_pulled Scenario.quiet).
  - intros n e. reflexivity.
  - constructor; [|constructor]. unfold Plan.has_slash. simpl. discriminate.
Defined.

(** ** [poll_wait]: what every run keeps *)

Section poll_wait_invariants.
Import PollWait.
Variable V : Type.
Variable truthy : V -> bool.
Variable clock : nat -> Z.
Variable func : nat -> result V.
Variable after_first : option (result unit).
Variable polling_interval timeout : Z.

Lemma run_after_first_sleeps (ran_first : bool) (st st2 : state) (r : result unit) :
  run_after_first after_first ran_first st = (st2, r) -> sleeps st2 = sleeps st.
Proof.
  unfold run_after_first.
  destruct after_first; [destruct ran_first|]; simpl; intros H;
    injection H as <- _; reflexivity.
Qed.

Lemma loop_sleeps (fuel : nat) :
  forall start ct ran_first st st' r,
    loop truthy clock func after_first polling_interval timeout
      fuel start ct ran_first st = Some (st', r) ->
    reads st = (2 + 2 * List.length (sleeps st))%nat ->
    Forall (fun d => 0 <= d) (sleeps st) ->
    reads st' = (2 + 2 * List.length (sleeps st'))%nat /\
    Forall (fun d => 0 <= d) (sleeps st').
Proof.
  induction fuel as [|fuel IH]; intros start ct rf st st' r Hrun Hr Hs;
    [discriminate|].
  simpl in Hrun.
  destruct (ct - start <? timeout); [|injection Hrun as <- _; auto].
  destruct (func (evals st)) as [value|e]; [|injection Hrun as <- _; auto].
  destruct (truthy value); [injection Hrun as <- _; auto|].
  destruct (run_after_first after_first rf (tick_eval st)) as [st2 [[]|e]] eqn:Hcb.
  - pose proof (run_after_first_reads _ _ _ _ _ Hcb) as Hr2.
    pose proof (run_after_first_sleeps _ _ _ _ Hcb) as Hs2.
    simpl in Hr2, Hs2.
    apply IH in Hrun; [exact Hrun| |].
    + simpl. rewrite Hr2, Hs2, Hr, length_app. simpl. lia.
    + simpl. rewrite Hs2. apply Forall_app. split; [exact Hs|].
      constructor; [lia | constructor].
  - pose proof (run_after_first_reads _ _ _ _ _ Hcb) as Hr2.
    pose proof (run_after_first_sleeps _ _ _ _ Hcb) as Hs2.
    simpl in Hr2, Hs2. injection Hrun as <- _.
    rewrite Hr2, Hs2. auto.
Qed.

(** X20.  Every run of [poll_wait] that ends, whatever the predicate, the
    callback and the clock do: calls the callback at most once, and not at
    all when none is supplied; never asks for a negative sleep; and reads
    the clock twice at the start and twice per sleep. *)
Theorem poll_wait_keeps (fuel : nat) (st : state) (r : result V) :
  poll_wait truthy clock func after_first polling_interval timeout fuel
  = Some (st, r) ->
  (callbacks st <= 1)%nat /\
  (after_first = None -> callbacks st = 0%nat) /\
  Forall (fun d => 0 <= d) (sleeps st) /\
  reads st = (2 + 2 * List.length (sleeps st))%nat.
Proof.
  intros Hrun.
  assert (Hcb : (callbacks st <= 1)%nat /\
                (after_first = None -> callbacks st = 0%nat)).
  { destruct (poll_wait_sound _ _ _ _ _ _ _ _ _ _ Hrun) as (n & _ & Hstop).
    assert (Hafter : (callbacks_after after_first n <= 1)%nat /\
                     (after_first = None -> callbacks_after after_first n = 0%nat)).
    { unfold callbacks_after. destruct after_first; destruct n; auto.
      split; [lia | discriminate]. }
    destruct Hafter as [Hle Hnone].
    destruct Hstop as [_ (_ & _ & Hc) | v _ _ _ _ Hc | e _ _ _ Hc
                      | e _ _ _ Haf _ Hc]; rewrite Hc; auto.
    split; [lia|]. intros Hn. rewrite Hn in Haf. discriminate Haf. }
  destruct Hcb as [Hle Hnone].
  unfold poll_wait in Hrun. apply loop_sleeps in Hrun; simpl; auto.
  destruct Hrun as [Hr Hs].
  repeat split; auto.
Qed.

End poll_wait_invariants.

Lemma poll_wait_keeps_witness :
  (PollWait.callbacks Cases.after_one_sleep <= 1)%nat /\
  (Some (Ret tt) = None -> PollWait.callbacks Cases.after_one_sleep = 0%nat) /\
  Forall (fun d => 0 <= d) (PollWait.sleeps Cases.after_one_sleep) /\
  PollWait.reads Cases.after_one_sleep
  = (2 + 2 * List.length (PollWait.sleeps Cases.after_one_sleep))%nat.
Proof.
  apply (poll_wait_keeps bool (fun b => b) (fun n => Z.of_nat n)
           (fun _ => Ret false) (Some (Ret tt)) 2 3 5%nat
           Cases.after_one_sleep (Raise (Exc WaitTimeout ""))).
  reflexivity.
Defined.

(** ** [PushFile] *)

(** X21.  [with PushFile(device, local, remote)]: the file system is
    remounted first exactly when [remote] starts with [/system/]; once the
    push has gone through, the body is run and the remote file is removed
    after it, once, whatever the body does, and the outcome is that of the
    body unless the removal raises. *)
Theorem with_PushFile_removes_the_file
    (w : world) (A : Type) (local remote : string) (body : M A) (tr : trace) :
  let enter_calls :=
    (if String.prefix "/system/" remote then [Remount] else [])
    ++ [Push local remote] in
  Run.calls_succeed w (List.length tr) enter_calls ->
  let after_body := body (tr ++ enter_calls) in
  Device.with_PushFile w local remote body tr
  = (fst after_body ++ [Rm remote false],
     match raises w (List.length (fst after_body)) (Rm remote false) with
     | Some x => Raise x
     | None => snd after_body
     end).
Proof.
  intros enter_calls Hc after_body. subst enter_calls after_body.
  unfold Device.with_PushFile, with_, Device.PushFile_enter, Device.PushFile_exit,
    bind, try_finally, ret.
  destruct (String.prefix "/system/" remote); cbn [app] in *; cbv beta iota.
  - repeat (rewrite call_ok by nth_call_succeeds Hc; cbv beta iota).
    rewrite <- app_assoc. cbn [app].
    destruct (body (tr ++ [Remount; Push local remote])) as [tr' r].
    unfold call. cbn [fst snd].
    destruct (raises w (List.length tr') (Rm remote false)); reflexivity.
  - repeat (rewrite call_ok by nth_call_succeeds Hc; cbv beta iota).
    destruct (body (tr ++ [Push local remote])) as [tr' r].
    unfold call. cbn [fst snd].
    destruct (raises w (List.length tr') (Rm remote false)); reflexivity.
Qed.

Lemma with_PushFile_removes_the_file_witness :
  Device.with_PushFile Scenario.quiet "hosts" "/system/etc/hosts"
    (call Scenario.quiet AdbReboot) []
  = ([Remount; Push "hosts" "/system/etc/hosts"; AdbReboot;
      Rm "/system/etc/hosts" false], Ret tt).
Proof.
  apply (with_PushFile_removes_the_file Scenario.quiet unit "hosts"
           "/system/etc/hosts" (call Scenario.quiet AdbReboot) []).
  concrete_calls_succeed.
Defined.

(** ** The poll of [wait_for_device_ready] *)

Section readiness.
Variable listings : nat -> result string.

Lemma prefs_modified_first : Device.prefs_modified listings 0 = Ret false.
Proof.
  unfold Device.prefs_modified, Device.inner. simpl.
  destruct (Device.listing_mtime (listings 0)); reflexivity.
Qed.

(** [times[0]], once set, is the first modification time that was read. *)
Lemma times_before_some (n : nat) (first : string) :
  Device.times_before listings n = Some first ->
  exists i, (i < n)%nat /\ Device.listing_mtime (listings i) = Some first.
Proof.
  induction n as [|n IH]; simpl; [discriminate|].
  unfold Device.inner.
  destruct (Device.listing_mtime (listings n)) as [m|] eqn:Hm.
  - destruct (Device.times_before listings n) as [f|] eqn:Ht; simpl; intros H.
    + destruct (IH H) as (i & Hi & Hf). exists i. split; [lia | exact Hf].
    + injection H as <-. exists n. split; [lia | exact Hm].
  - simpl. intros H. destruct (IH H) as (i & Hi & Hf).
    exists i. split; [lia | exact Hf].
Qed.

Lemma prefs_modified_true (n : nat) :
  Device.prefs_modified listings n = Ret true ->
  exists i first mtime,
    (i < n)%nat /\
    Device.listing_mtime (listings i) = Some first /\
    Device.listing_mtime (listings n) = Some mtime /\
    mtime <> first.
Proof.
  unfold Device.prefs_modified, Device.inner.
  destruct (Device.listing_mtime (listings n)) as [m|] eqn:Hm; [|discriminate].
  destruct (Device.times_before listings n) as [f|] eqn:Ht; [|discriminate].
  simpl. intros H. injection H as H. apply negb_true_iff, String.eqb_neq in H.
  destruct (times_before_some n f Ht) as (i & Hi & Hf).
  exists i, f, m. auto.
Qed.

Variable clock : nat -> Z.
Variable after_first : option (result unit).
Variable wait_polling_interval timeout : Z.

(** X22.  The poll that ends [wait_for_device_ready] never succeeds at its
    first evaluation, which only records the modification time of the
    preferences file: when it returns, the predicate has been evaluated at
    least twice, the [after_first] action (start or reboot), if any, has
    been run exactly once, and two listings showed different modification
    times.  If every listing that can be read shows the same time, it does
    not return (it can only time out or fail). *)
Theorem wait_for_device_ready_runs_the_action
    (fuel : nat) (st : PollWait.state) (v : bool) :
  Device.wait_for_prefs clock listings after_first wait_polling_interval timeout fuel
  = Some (st, Ret v) ->
  v = true /\ (2 <= PollWait.evals st)%nat /\
  (after_first <> None -> PollWait.callbacks st = 1%nat) /\
  exists i j first mtime,
    (i < j)%nat /\
    Device.listing_mtime (listings i) = Some first /\
    Device.listing_mtime (listings j) = Some mtime /\
    mtime <> first.
Proof.
  intros Hrun. unfold Device.wait_for_prefs in Hrun.
  destruct (poll_wait_sound _ _ _ _ _ _ _ _ _ _ Hrun) as (n & _ & Hstop).
  remember (Ret v) as r eqn:Hr0.
  destruct Hstop as [Hout Hat | v' Hin [Hf Ht] Hrd He Hc | e Hin Hf He Hc
                    | e Hn Hin Hfal Haf He Hc]; try discriminate Hr0.
  injection Hr0 as <-. simpl in Ht. subst v'.
  destruct n as [|n]; [rewrite prefs_modified_first in Hf; discriminate Hf|].
  split; [reflexivity|]. split; [lia|]. split.
  - intros Hsome. rewrite Hc. unfold PollWait.callbacks_after.
    destruct after_first; [reflexivity | congruence].
  - destruct (prefs_modified_true _ Hf) as (i & first & mtime & Hi & H1 & H2 & H3).
    exists i, (S n), first, mtime. auto.
Qed.

End readiness.

(** The listings of a device on which the preferences file is rewritten
    between the second and the third poll. *)
Lemma wait_for_device_ready_runs_the_action_witness :
  true = true /\ (2 <= PollWait.evals Samples.ready_state)%nat /\
  (Some (Ret tt) <> None -> PollWait.callbacks Samples.ready_state = 1%nat) /\
  exists i j first mtime,
    (i < j)%nat /\
    Device.listing_mtime (Samples.rewritten_prefs i) = Some first /\
    Device.listing_mtime (Samples.rewritten_prefs j) = Some mtime /\
    mtime <> first.
Proof.
  apply (wait_for_device_ready_runs_the_action Samples.rewritten_prefs
           (fun n => Z.of_nat n) (Some (Ret tt)) 2 30 5%nat Samples.ready_state true).
  reflexivity.
Defined.

(** ** Rules for the generic trace monad *)

Section eff_rules.
Variable E : Type.
Variable P : E -> Prop.

#[local] Abbreviation issues := (Eff.issues P).

Lemma issues_ret {A : Type} (a : A) : issues (Eff.ret a).
Proof. intros tr. exists []. simpl. rewrite app_nil_r. auto. Qed.

Lemma issues_raise {A : Type} (e : exn) : issues (@Eff.raise E A e).
Proof. intros tr. exists []. simpl. rewrite app_nil_r. auto. Qed.

Lemma issues_call (raises : nat -> E -> option exn) (e : E) :
  P e -> issues (Eff.call raises e).
Proof. intros H tr. exists [e]. simpl. auto. Qed.

Lemma issues_say (e : E) : P e -> issues (Eff.say e).
Proof. intros H tr. exists [e]. simpl. auto. Qed.

Lemma issues_bind {A B : Type} (m : Eff.M E A) (k : A -> Eff.M E B) :
  issues m -> (forall a, issues (k a)) -> issues (Eff.bind m k).
Proof.
  intros Hm Hk tr. unfold Eff.bind. destruct (Hm tr) as (ext & E1 & F1).
  destruct (m tr) as [tr' [a|e]]; simpl in E1; subst tr'.
  - destruct (Hk a (tr ++ ext)) as (ext' & E2 & F2).
    exists (ext ++ ext'). rewrite E2, app_assoc. split; [reflexivity|].
    apply Forall_app; auto.
  - exists ext. auto.
Qed.

Lemma issues_try_except {A : Type} (m : Eff.M E A) (catches : exn -> bool)
    (handler : exn -> Eff.M E A) :
  issues m -> (forall e, issues (handler e)) ->
  issues (Eff.try_except m catches handler).
Proof.
  intros Hm Hh tr. unfold Eff.try_except. destruct (Hm tr) as (ext & E1 & F1).
  destruct (m tr) as [tr' [a|e]]; simpl in E1; subst tr'.
  - exists ext. auto.
  - destruct (catches e); [|exists ext; auto].
    destruct (Hh e (tr ++ ext)) as (ext' & E2 & F2).
    exists (ext ++ ext'). rewrite E2, app_assoc. split; [reflexivity|].
    apply Forall_app; auto.
Qed.

Lemma issues_try_finally {A : Type} (m : Eff.M E A) (fin : Eff.M E unit) :
  issues m -> issues fin -> issues (Eff.try_finally m fin).
Proof.
  intros Hm Hf tr. unfold Eff.try_finally. destruct (Hm tr) as (ext & E1 & F1).
  destruct (m tr) as [tr' r]; simpl in E1; subst tr'.
  destruct (Hf (tr ++ ext)) as (ext' & E2 & F2).
  destruct (fin (tr ++ ext)) as [tr'' [[]|e]]; simpl in E2; subst tr'';
    exists (ext ++ ext'); rewrite app_assoc; (split; [reflexivity|]);
    apply Forall_app; auto.
Qed.

Lemma issues_for_each {A : Type} (body : A -> Eff.M E unit) (items : list A) :
  (forall x, issues (body x)) -> issues (Eff.for_each body items).
Proof.
  intros H. induction items as [|x rest IH]; simpl.
  - apply issues_ret.
  - apply issues_bind; auto.
Qed.

End eff_rules.


(** ** [run_test] and [run_suite] *)

Section runner_facts.
Import Runner.
Variable w : Runner.world.
Variable cfg : Harness.config.

Lemma do_ok (e : event) (tr : list event) :
  raises w (List.length tr) e = None -> Runner.do w e tr = (tr ++ [e], Ret tt).
Proof. intros H. unfold Runner.do, Eff.call. rewrite H. reflexivity. Qed.

Lemma do_fails (e : event) (x : exn) (tr : list event) :
  raises w (List.length tr) e = Some x -> Runner.do w e tr = (tr ++ [e], Raise x).
Proof. intros H. unfold Runner.do, Eff.call. rewrite H. reflexivity. Qed.

(** X23.  [run_test]: when [build_command] raises, no process is created
    and the exception is passed on; when creating the process handler
    raises, nothing else is called; once the handler exists, [kill] is
    called exactly once, as the last call, on every path, and an exception of
    [kill] is dropped: the outcome is the output files and the raw log when
    [run] and [wait] return, and otherwise the exception of [run] or
    [wait]. *)
Theorem run_test_kills_the_process
    (suite : string) (groups : list string) (temp : string) (tr : list event) :
  (forall e,
     Harness.build_command cfg suite groups temp = Raise e ->
     run_test w cfg suite groups temp tr = (tr, Raise e)) /\
  (forall cmd files log,
     Harness.build_command cfg suite groups temp = Ret (cmd, files, log) ->
     (forall x,
        raises w (List.length tr) (ProcessHandlerNew cmd) = Some x ->
        run_test w cfg suite groups temp tr
        = (tr ++ [ProcessHandlerNew cmd], Raise x)) /\
     (raises w (List.length tr) (ProcessHandlerNew cmd) = None ->
      run_test w cfg suite groups temp tr
      = match raises w (List.length tr + 1) ProcRun with
        | Some x => (tr ++ [ProcessHandlerNew cmd; ProcRun; ProcKill], Raise x)
        | None =>
            (tr ++ [ProcessHandlerNew cmd; ProcRun; ProcWait; ProcKill],
             match raises w (List.length tr + 2) ProcWait with
             | Some x => Raise x
             | None => Ret (files, log)
             end)
        end)).
Proof.
  split.
  - intros e H. unfold run_test. rewrite H. reflexivity.
  - intros cmd files log H. unfold run_test. rewrite H. split.
    + intros x Hx. unfold Eff.bind. rewrite (do_fails _ _ _ Hx). reflexivity.
    + intros Hnew. unfold Eff.bind at 1. rewrite (do_ok _ _ Hnew).
      unfold Eff.try_finally, Eff.try_except, Eff.bind, Eff.ret, Runner.do, Eff.call.
      replace (List.length (tr ++ [ProcessHandlerNew cmd]))
        with (List.length tr + 1)%nat by (rewrite length_app; reflexivity).
      destruct (raises w (List.length tr + 1) ProcRun) as [x|].
      * destruct (raises w _ ProcKill); cbn; rewrite <- !app_assoc; reflexivity.
      * replace (List.length ((tr ++ [ProcessHandlerNew cmd]) ++ [ProcRun]))
          with (List.length tr + 2)%nat by (rewrite !length_app; simpl; lia).
        destruct (raises w (List.length tr + 2) ProcWait) as [x|];
          destruct (raises w _ ProcKill); cbn; rewrite <- !app_assoc; reflexivity.
Qed.

Lemma rsplit1_tail (sep : ascii) (s a b : string) :
  Str.rsplit1 sep s = Some (a, b) -> Text.has_char sep b = false.
Proof.
  revert a b. induction s as [|c s IH]; simpl; intros a b H; [discriminate|].
  destruct (Str.rsplit1 sep s) as [[a' b']|] eqn:E.
  - injection H as _ <-. apply (IH a' b'). reflexivity.
  - destruct (Ascii.eqb c sep); [|discriminate]. injection H as _ <-.
    clear IH. revert E. induction s as [|d s IHs]; simpl; [reflexivity|].
    destruct (Str.rsplit1 sep s) as [[? ?]|]; [discriminate|].
    destruct (Ascii.eqb d sep); [discriminate|]. intros _. simpl.
    apply IHs. reflexivity.
Qed.

Lemma basename_flat (path : string) : Text.has_char "/" (basename path) = false.
Proof.
  unfold basename. destruct (Str.rsplit1 "/" path) as [[a b]|] eqn:E.
  - apply (rsplit1_tail _ _ _ _ E).
  - revert E. induction path as [|c s IH]; simpl; [reflexivity|].
    destruct (Str.rsplit1 "/" s) as [[? ?]|]; [discriminate|].
    destruct (Ascii.eqb c "/"); [discriminate|]. intros _. simpl. apply IH.
    reflexivity.
Qed.

Lemma run_test_calm :
  (forall n e, raises w n e = None) ->
  forall suite groups temp cmd files log tr,
    Harness.build_command cfg suite groups temp = Ret (cmd, files, log) ->
    run_test w cfg suite groups temp tr
    = (tr ++ [ProcessHandlerNew cmd; ProcRun; ProcWait; ProcKill], Ret (files, log)).
Proof.
  intros Hc suite groups temp cmd files log tr Hb. unfold run_test. rewrite Hb.
  unfold Eff.bind, Eff.try_finally, Eff.try_except, Eff.ret.
  rewrite !(do_ok _ _ (Hc _ _)), <- !app_assoc. reflexivity.
Qed.

Lemma add_files_calm (suite : string) (files : list string) :
  (forall n e, raises w n e = None) ->
  forall tr,
    Eff.for_each (add_file w suite) files tr = (tr ++ archived suite files, Ret tt).
Proof.
  intros Hc. induction files as [|f files IH]; intros tr; simpl.
  - unfold Eff.ret. rewrite app_nil_r. reflexivity.
  - unfold Eff.bind, add_file. rewrite (do_ok _ _ (Hc _ _)), IH, <- app_assoc.
    reflexivity.
Qed.

(** X24.  [run_suite], when no call fails and [build_command] returns: the
    calls are the creation of the temporary directory, the process (created,
    run, waited for, killed), one archive entry per output file, named by
    the suite, a slash and the file name without its directories, the
    sub-suite report of the raw log, and the removal of the temporary
    directory. *)
Theorem run_suite_archives_under_the_suite
    (suite : string) (groups : list string) (cmd files : list string) (log : string)
    (tr : list event) :
  (forall n e, raises w n e = None) ->
  Harness.build_command cfg suite groups (temp_dir w) = Ret (cmd, files, log) ->
  run_suite w cfg suite groups tr
  = (tr ++ [TempDirNew; ProcessHandlerNew cmd; ProcRun; ProcWait; ProcKill]
        ++ archived suite files
        ++ [AddSubsuiteReport log; TempDirRemove (temp_dir w)],
     Ret tt) /\
  Forall
    (fun e =>
       match e with
       | ZipWrite _ arcname =>
           exists name,
             arcname = (suite ++ "/" ++ name)%string /\
             Text.has_char "/" name = false
       | _ => True
       end)
    (archived suite files).
Proof.
  intros Hc Hb. split.
  - unfold run_suite, Eff.with_. unfold Eff.bind at 1 2.
    rewrite (do_ok _ _ (Hc _ _)). unfold Eff.ret at 1.
    unfold Eff.try_finally, Eff.bind at 1.
    rewrite (run_test_calm Hc _ _ _ _ _ _ _ Hb).
    unfold Eff.bind. rewrite (add_files_calm _ _ Hc), !(do_ok _ _ (Hc _ _)).
    rewrite <- !app_assoc. reflexivity.
  - unfold archived. apply Forall_forall. intros e He.
    apply in_map_iff in He. destruct He as (path & <- & _).
    exists (basename path). split; [reflexivity | apply basename_flat].
Qed.

Lemma run_test_issues (suite : string) (groups : list string) (temp : string) :
  Eff.issues process_call (run_test w cfg suite groups temp).
Proof.
  unfold run_test.
  destruct (Harness.build_command cfg suite groups temp) as [[[cmd files] log]|e];
    [|apply issues_raise].
  apply issues_bind; [apply issues_call; exact I|]. intros _.
  apply issues_try_finally.
  - apply issues_bind; [apply issues_call; exact I|]. intros _.
    apply issues_bind; [apply issues_call; exact I|]. intros _.
    apply issues_ret.
  - apply issues_try_except; [apply issues_call; exact I|].
    intros _. apply issues_ret.
Qed.

(** X25.  [run_suite] on every path: once the temporary directory exists it
    is removed exactly once, as the last call; and when [run_test] raises,
    nothing is added to the archive and no sub-suite report is made. *)
Theorem run_suite_removes_the_temporary_directory
    (suite : string) (groups : list string) (tr : list event) :
  raises w (List.length tr) TempDirNew = None ->
  (exists body,
     fst (run_suite w cfg suite groups tr)
     = tr ++ [TempDirNew] ++ body ++ [TempDirRemove (temp_dir w)] /\
     Forall no_temp_removal body) /\
  (forall e,
     snd (run_test w cfg suite groups (temp_dir w) (tr ++ [TempDirNew])) = Raise e ->
     run_suite w cfg suite groups tr
     = (fst (run_test w cfg suite groups (temp_dir w) (tr ++ [TempDirNew]))
        ++ [TempDirRemove (temp_dir w)],
        match raises w
                (List.length
                   (fst (run_test w cfg suite groups (temp_dir w) (tr ++ [TempDirNew]))))
                (TempDirRemove (temp_dir w)) with
        | Some x => Raise x
        | None => Raise e
        end)).
Proof.
  intros Hnew.
  assert (Hbody : Eff.issues no_temp_removal
            (Eff.bind (run_test w cfg suite groups (temp_dir w))
               (fun '(result_files, structured_path) =>
                  Eff.bind (Eff.for_each (add_file w suite) result_files)
                    (fun _ => Runner.do w (AddSubsuiteReport structured_path))))).
  { apply issues_bind.
    - intros t. destruct (run_test_issues suite groups (temp_dir w) t)
        as (ext & E1 & F1).
      exists ext. split; [exact E1|].
      eapply Forall_impl; [|exact F1]. intros [] H; simpl; auto.
    - intros [files log]. apply issues_bind.
      + apply issues_for_each. intros x. apply issues_call. exact I.
      + intros _. apply issues_call. exact I. }
  split.
  - unfold run_suite, Eff.with_. unfold Eff.bind at 1 2.
    rewrite (do_ok _ _ Hnew). unfold Eff.ret at 1. unfold Eff.try_finally.
    destruct (Hbody (tr ++ [TempDirNew])) as (ext & E1 & F1).
    destruct (Eff.bind (run_test w cfg suite groups (temp_dir w)) _ (tr ++ [TempDirNew]))
      as [tr' r]. simpl in E1. subst tr'.
    exists ext. split; [|exact F1].
    unfold Runner.do, Eff.call.
    destruct (raises w _ (TempDirRemove (temp_dir w))); simpl;
      rewrite <- !app_assoc; reflexivity.
  - intros e He. unfold run_suite, Eff.with_. unfold Eff.bind at 1 2.
    rewrite (do_ok _ _ Hnew). unfold Eff.ret at 1.
    unfold Eff.try_finally, Eff.bind at 1.
    destruct (run_test w cfg suite groups (temp_dir w) (tr ++ [TempDirNew]))
      as [tr' r]. simpl in He. subst r. cbn [fst].
    unfold Runner.do, Eff.call.
    destruct (raises w (List.length tr') (TempDirRemove (temp_dir w))); reflexivity.
Qed.

End runner_facts.

(** ** [list_tests] *)

Section list_tests_facts.
Import Runner.
Variable w : Runner.world.

Lemma for_each_app {E A : Type} (body : A -> Eff.M E unit) (xs ys : list A)
    (tr : list E) :
  Eff.for_each body (xs ++ ys) tr
  = Eff.bind (Eff.for_each body xs) (fun _ => Eff.for_each body ys) tr.
Proof.
  revert tr. induction xs as [|x xs IH]; intros tr; simpl.
  - reflexivity.
  - unfold Eff.bind. destruct (body x tr) as [tr' [[]|e]]; [|reflexivity].
    rewrite IH. reflexivity.
Qed.

Lemma print_groups (name : string) (groups : list string) (tr : list event) :
  Eff.for_each (fun group => Eff.say (Print (name ++ ":" ++ group)%string)) groups tr
  = (tr ++ map (fun group => Print (name ++ ":" ++ group)%string) groups, Ret tt).
Proof.
  revert tr. induction groups as [|g groups IH]; intros tr; simpl.
  - unfold Eff.ret. rewrite app_nil_r. reflexivity.
  - unfold Eff.bind, Eff.say. rewrite IH, <- app_assoc. reflexivity.
Qed.

Lemma list_suites_ok (items : list (string * Harness.suite_opts)) :
  listings_succeed w items ->
  forall tr,
    Eff.for_each (list_suite w) items tr = (tr ++ flat_map (listed w) items, Ret tt).
Proof.
  induction items as [|[name opts] items IH]; intros H tr; simpl.
  - unfold Eff.ret. rewrite app_nil_r. reflexivity.
  - destruct (H (name, opts) (or_introl eq_refl)) as (cmd & Hcmd & Hok).
    simpl in Hcmd. unfold Eff.bind at 1. unfold list_suite, listed. simpl.
    rewrite Hcmd. unfold Eff.try_except, Eff.bind, Runner.do, Eff.call.
    rewrite Hok, print_groups, IH by (intros i Hi; apply H; right; exact Hi).
    rewrite <- !app_assoc. reflexivity.
Qed.

(** X26.  [list_tests] prints the heading, then for every configured suite,
    in the order of the configuration, one line [suite:group] for each line
    of the output of its listing command, then the usage text, and returns
    0, when every listing succeeds.  At the first suite whose listing raises,
    the later suites are not queried: a [CalledProcessError] or an [OSError]
    gives one message on the error stream and [SystemExit] with code 1, any
    other exception is passed on; and a suite without [cmd] gives a
    [KeyError] before any command is run for it. *)
Theorem list_tests_lists_every_group (cfg : Harness.config) (tr : list event) :
  (listings_succeed w (Harness.suites cfg) ->
   list_tests w cfg tr
   = (tr ++ [Print "Tests available:"]
         ++ flat_map (listed w) (Harness.suites cfg)
         ++ [Print usage],
      Ret 0)) /\
  (forall before name opts rest,
     Harness.suites cfg = before ++ (name, opts) :: rest ->
     listings_succeed w before ->
     (Harness.cmd opts = None ->
      list_tests w cfg tr
      = (tr ++ [Print "Tests available:"] ++ flat_map (listed w) before,
         Raise (Exc KeyError "cmd"))) /\
     (forall cmd x,
        list_command opts = Ret cmd ->
        raises w (List.length tr + 1 + List.length (flat_map (listed w) before))
          (CheckOutput cmd) = Some x ->
        list_tests w cfg tr
        = if is_listing_error x
          then (tr ++ [Print "Tests available:"] ++ flat_map (listed w) before
                   ++ [CheckOutput cmd; PrintErr (listing_failure cmd x)],
                Raise (SystemExit 1))
          else (tr ++ [Print "Tests available:"] ++ flat_map (listed w) before
                   ++ [CheckOutput cmd],
                Raise x))).
Proof.
  split.
  - intros H. unfold list_tests. unfold Eff.bind at 1. unfold Eff.say at 1.
    unfold Eff.bind at 1. rewrite (list_suites_ok _ H).
    unfold Eff.bind, Eff.say, Eff.ret. rewrite <- !app_assoc. reflexivity.
  - intros before name opts rest Hs Hb.
    assert (Hpos : List.length ((tr ++ [Print "Tests available:"])
                                  ++ flat_map (listed w) before)
                   = (List.length tr + 1 + List.length (flat_map (listed w) before))%nat)
      by (rewrite !length_app; reflexivity).
    split.
    + intros Hcmd. unfold list_tests. rewrite Hs.
      unfold Eff.bind at 1. unfold Eff.say at 1. unfold Eff.bind at 1.
      rewrite for_each_app. unfold Eff.bind at 1. rewrite (list_suites_ok _ Hb).
      simpl Eff.for_each. unfold Eff.bind at 1.
      unfold list_suite, list_command. rewrite Hcmd. unfold Eff.raise.
      rewrite <- !app_assoc. reflexivity.
    + intros cmd x Hcmd Hx. unfold list_tests. rewrite Hs.
      unfold Eff.bind at 1. unfold Eff.say at 1. unfold Eff.bind at 1.
      rewrite for_each_app. unfold Eff.bind at 1. rewrite (list_suites_ok _ Hb).
      simpl Eff.for_each. unfold Eff.bind at 1.
      unfold list_suite. rewrite Hcmd.
      unfold Eff.try_except, Eff.bind at 1, Runner.do, Eff.call.
      rewrite Hpos, Hx.
      destruct (is_listing_error x).
      * unfold Eff.bind, Eff.say, Eff.raise, listing_failure.
        rewrite <- !app_assoc. reflexivity.
      * rewrite <- !app_assoc. reflexivity.
Qed.

End list_tests_facts.

(** ** From the lines of [list_tests] to [iter_suites] *)

Lemma split1_token (name group : string) :
  Text.has_char ":" name = false ->
  Str.split1 ":" (name ++ ":" ++ group)%string = (name, Some group).
Proof.
  change (":" ++ group)%string with (String ":"%char group).
  induction name as [|c name IH]; simpl; intros H; [reflexivity|].
  apply orb_false_iff in H. destruct H as [Hc Hn].
  rewrite Hc, (IH Hn). reflexivity.
Qed.

Lemma fold_select_groups (name : string) (groups : list string) :
  Text.has_char ":" name = false ->
  forall before,
    fold_left Select.select_step
      (map (fun group => (name ++ ":" ++ group)%string) groups) [(name, before)]
    = [(name, before ++ groups)].
Proof.
  intros Hn. induction groups as [|g groups IH]; intros before; cbn [map fold_left].
  - rewrite app_nil_r. reflexivity.
  - unfold Select.select_step at 2. rewrite (split1_token _ _ Hn).
    cbn [Harness.add_test]. rewrite String.eqb_refl, IH, <- app_assoc. reflexivity.
Qed.

(** X27.  The lines that [list_tests] prints for a suite can be given back
    on the command line: for a suite name without a colon, [iter_suites] on
    the tokens [name:group] of a non-empty list of groups yields that one
    suite, with these groups in the same order (a group may itself contain a
    colon). *)
Theorem listed_tokens_select_their_groups
    (cfg : Harness.config) (name : string) (groups : list string) :
  Text.has_char ":" name = false ->
  groups <> [] ->
  Harness.iter_suites (map (fun group => (name ++ ":" ++ group)%string) groups) cfg
  = [(name, groups)].
Proof.
  intros Hn Hg. destruct groups as [|g groups]; [congruence|].
  unfold Harness.iter_suites. cbn [map fold_left].
  rewrite (split1_token _ _ Hn). cbn [Harness.add_test].
  apply (fold_select_groups name groups Hn [g]).
Qed.

Lemma listed_tokens_select_their_groups_witness :
  Harness.iter_suites ["webapi:apps"; "webapi:a:b"] Scenario.two_suites
  = [("webapi", ["apps"; "a:b"])].
Proof.
  apply (listed_tokens_select_their_groups Scenario.two_suites "webapi" ["apps"; "a:b"]).
  - reflexivity.
  - discriminate.
Defined.

Lemma run_test_kills_the_process_witness :
  Runner.run_test Samples.wait_fails Samples.one_suite "sx" ["g1"; "g2"] "/tmp/t" []
  = ([Runner.ProcessHandlerNew Samples.sx_command; Runner.ProcRun; Runner.ProcWait;
      Runner.ProcKill],
     Raise (Exc OSError "no child")).
Proof.
  destruct (run_test_kills_the_process Samples.wait_fails Samples.one_suite
              "sx" ["g1"; "g2"] "/tmp/t" []) as [_ H].
  destruct (H Samples.sx_command [Samples.sx_log] Samples.sx_log) as [_ H'].
  - reflexivity.
  - apply H'. reflexivity.
Defined.

Lemma run_suite_archives_under_the_suite_witness :
  Runner.run_suite Samples.calm_runner Samples.one_suite "sx" ["g1"; "g2"] []
  = ([Runner.TempDirNew; Runner.ProcessHandlerNew Samples.sx_command; Runner.ProcRun;
      Runner.ProcWait; Runner.ProcKill;
      Runner.ZipWrite Samples.sx_log "sx/sx_structuredg1_g2.log";
      Runner.AddSubsuiteReport Samples.sx_log; Runner.TempDirRemove "/tmp/t"],
     Ret tt).
Proof.
  destruct (run_suite_archives_under_the_suite Samples.calm_runner Samples.one_suite
              "sx" ["g1"; "g2"] Samples.sx_command [Samples.sx_log] Samples.sx_log [])
    as [H _].
  - intros n e. reflexivity.
  - reflexivity.
  - exact H.
Defined.

Lemma run_suite_removes_the_temporary_directory_witness :
  Runner.run_suite Samples.wait_fails Samples.one_suite "sx" ["g1"; "g2"] []
  = ([Runner.TempDirNew; Runner.ProcessHandlerNew Samples.sx_command; Runner.ProcRun;
      Runner.ProcWait; Runner.ProcKill; Runner.TempDirRemove "/tmp/t"],
     Raise (Exc OSError "no child")).
Proof.
  destruct (run_suite_removes_the_temporary_directory Samples.wait_fails Samples.one_suite
              "sx" ["g1"; "g2"] []) as [_ H].
  - reflexivity.
  - apply (H (Exc OSError "no child")). reflexivity.
Defined.

Lemma list_tests_lists_every_group_witness :
  Runner.list_tests Samples.run_b_missing Scenario.two_suites []
  = ([Runner.Print "Tests available:";
      Runner.CheckOutput ["run_a"; "--list-test-groups"];
      Runner.Print "suiteA:apps"; Runner.Print "suiteA:sms";
      Runner.CheckOutput ["run_b"; "--list-test-groups"];
      Runner.PrintErr
        "Failed to run command: run_b --list-test-groups: No such file"],
     Raise (SystemExit 1)).
Proof.
  destruct (list_tests_lists_every_group Samples.run_b_missing Scenario.two_suites [])
    as [_ H].
  destruct (H [("suiteA", Harness.mkSuite (Some "run_a") None None None)]
              "suiteB" (Harness.mkSuite (Some "run_b") None None None) [])
    as [_ H'].
  - reflexivity.
  - intros item [<-|[]]. exists ["run_a"; "--list-test-groups"].
    split; [reflexivity | intros n; reflexivity].
  - apply (H' ["run_b"; "--list-test-groups"] (Exc OSError "No such file"));
      reflexivity.
Defined.

(** ** [install_marionette] of adb_device_interface.py *)

(** X28.  [ADBDeviceInterface.install_marionette]: after a fresh install, and
    also when the extension is already installed, the device is restarted
    and the result is True (or the exception of the restart); a
    [WaitTimeout] of the installer gives False without a restart; every
    other exception of the installer, [CalledProcessError] included, is
    passed on without a restart, so the second [CalledProcessError] clause,
    which would return False, is never taken. *)
Theorem adb_install_marionette_outcomes
    (raises : nat -> Device.install_event -> option exn) (version : string)
    (tr : list Device.install_event) :
  let restarted :=
    (tr ++ [Device.MarionetteInstall version; Device.Restart],
     match raises (List.length tr + 1)%nat Device.Restart with
     | Some y => Raise y
     | None => Ret true
     end) in
  Device.install_marionette raises version tr
  = match raises (List.length tr) (Device.MarionetteInstall version) with
    | None => restarted
    | Some x =>
        if is_instance AlreadyInstalledException x then restarted
        else (tr ++ [Device.MarionetteInstall version],
              if is_instance WaitTimeout x then Ret false else Raise x)
    end.
Proof.
  cbv zeta.
  assert (Hpos : List.length (tr ++ [Device.MarionetteInstall version])
                 = (List.length tr + 1)%nat)
    by (rewrite length_app; reflexivity).
  unfold Device.install_marionette, Eff.bind, Eff.try_except, Eff.call, Eff.ret,
    Eff.raise.
  destruct (raises (List.length tr) (Device.MarionetteInstall version)) as [x|].
  - destruct x as [code| |cls msg]; cbn; try reflexivity.
    destruct cls; cbn; rewrite ?Hpos, <- ?app_assoc; try reflexivity;
      destruct (raises (List.length tr + 1)%nat Device.Restart); reflexivity.
  - cbn. rewrite Hpos, <- app_assoc.
    destruct (raises (List.length tr + 1)%nat Device.Restart); reflexivity.
Qed.

(** ** get_webidl.py *)

Lemma skip_append (a b : string) : Webidl.skip (String.length a) (a ++ b)%string = b.
Proof. induction a as [|c a IH]; simpl; [destruct b; reflexivity | exact IH]. Qed.

Lemma skip_suffix (n : nat) (s : string) :
  exists stem, s = (stem ++ Webidl.skip n s)%string.
Proof.
  revert s. induction n as [|n IH]; intros s.
  - exists EmptyString. destruct s; reflexivity.
  - destruct s as [|c s]; simpl.
    + exists EmptyString. reflexivity.
    + destruct (IH s) as (stem & H). exists (String c stem). simpl. congruence.
Qed.

Lemma length_append (a b : string) :
  String.length (a ++ b)%string = (String.length a + String.length b)%nat.
Proof. induction a as [|c a IH]; simpl; [reflexivity | rewrite IH; reflexivity]. Qed.

(** X29.  get_webidl.py writes one line per directory entry whose name ends
    in the six characters [webidl] (a dot before them is not asked for), in
    the order of the listing, and nothing for the other entries; the line is
    the name after [gecko/dom/webidl/], between double quotes. *)
Theorem webidl_lists_names_ending_in_webidl (names : list string) :
  Forall (fun fn => Str.starts_with_slash fn = false) names ->
  Webidl.written names
  = map Webidl.webidl_line (filter (fun fn => (Webidl.last6 fn =? "webidl")%string) names) /\
  (forall fn,
     (Webidl.last6 fn =? "webidl")%string = true <->
     exists stem, fn = (stem ++ "webidl")%string).
Proof.
  intros Hn. split.
  - unfold Webidl.written.
    induction Hn as [|fn names Hfn _ IH]; cbn [flat_map filter]; [reflexivity|].
    rewrite IH. destruct (Webidl.last6 fn =? "webidl")%string; [|reflexivity].
    cbn [map app]. f_equal. unfold Webidl.webidl_line, Str.path_join. rewrite Hfn.
    reflexivity.
  - intros fn. rewrite String.eqb_eq. unfold Webidl.last6. split.
    + intros H. destruct (skip_suffix (String.length fn - 6) fn) as (stem & E).
      exists stem. rewrite H in E. exact E.
    + intros (stem & ->). rewrite length_append. simpl String.length.
      replace (String.length stem + 6 - 6)%nat with (String.length stem) by lia.
      apply skip_append.
Qed.

Lemma webidl_lists_names_ending_in_webidl_witness :
  Webidl.written ["Apps.webidl"; "moz.build"; "notwebidl"]
  = [Webidl.webidl_line "Apps.webidl"; Webidl.webidl_line "notwebidl"].
Proof.
  destruct (webidl_lists_names_ending_in_webidl ["Apps.webidl"; "moz.build"; "notwebidl"])
    as [H _].
  - repeat constructor.
  - exact H.
Defined.

(** ** [check_server] of harness.py *)

(** X30.  [check_server] of harness.py returns True only after both ports
    were served: the calls of the run are then exactly the calls that set up
    the session and then, for port 8000 and for port 8001 in turn, the start
    of the server, the request from the device, [go_back] and the stop of
    the server; and none of these calls has failed. *)
Theorem check_server_passes_after_both_ports (w : world) (tr tr' : trace) :
  Harness.check_server w tr = (tr', Ret true) ->
  tr' = tr ++ Probe.session_calls
           ++ Probe.served (host_ip w) 8000 ++ Probe.served (host_ip w) 8001 /\
  Run.calls_succeed w (List.length tr)
    (Probe.session_calls
       ++ Probe.served (host_ip w) 8000 ++ Probe.served (host_ip w) 8001).
Proof.
  intros H.
  destruct (harness_check_server_prelude w tr) as [(e0 & r & E & _ & Hr) | (Hs & E)];
    rewrite E in H.
  - injection H as _ ->. congruence.
  - apply harness_probe_ports_pass in H. destruct H as [-> Hc].
    cbn [flat_map] in Hc |- *. rewrite app_nil_r in Hc |- *.
    split; [rewrite <- app_assoc; reflexivity|].
    apply calls_succeed_app; [exact Hs|].
    rewrite length_app in Hc. exact Hc.
Qed.

Lemma check_server_passes_after_both_ports_witness :
  fst (Harness.check_server Scenario.quiet [])
  = [] ++ Probe.session_calls
       ++ Probe.served "10.0.0.2" 8000 ++ Probe.served "10.0.0.2" 8001 /\
  Run.calls_succeed Scenario.quiet 0
    (Probe.session_calls
       ++ Probe.served "10.0.0.2" 8000 ++ Probe.served "10.0.0.2" 8001).
Proof.
  apply (check_server_passes_after_both_ports Scenario.quiet []
           (fst (Harness.check_server Scenario.quiet []))).
  reflexivity.
Defined.
